(** * SonicCanvas: audio-feature extraction and the particle pipeline

    A shallow embedding of [AudioEngine] (src/audio-engine.js) and of the
    [Visualizer] class (the JavaScript listing in src/README.md).

    JavaScript numbers are IEEE-754 binary64 values, modelled by Rocq's
    primitive floats, so NaN, infinities and rounding behave as in the
    browser.  [Date.now()] timestamps are integers of milliseconds and
    are modelled as [Z]; loop counters are [nat]. *)

From Stdlib Require Import ZArith List Lia Bool String Floats.
From Stdlib Require Reals Lra.
Import ListNotations.

Local Open Scope float_scope.
Local Set Warnings "-inexact-float".

(** Results of calls that may raise: [TypeError] is what JavaScript throws
    when a property of [null] or [undefined] is read. *)
Inductive js_result (A : Type) : Type :=
| Ok (a : A)
| TypeError.
Arguments Ok {A} a.
Arguments TypeError {A}.

Definition js_bind {A B : Type} (r : js_result A) (f : A -> js_result B)
  : js_result B :=
  match r with Ok a => f a | TypeError => TypeError end.

Notation "'let!' x := r 'in' k" := (js_bind r (fun x => k))
  (at level 200, x name, r at level 100, k at level 200).

(** ** JavaScript number helpers *)

(** [Math.min(x, y)] (only ever called on non-NaN, non-zero-sign-sensitive
    values here, but written out in full). *)
Definition Math_min (x y : float) : float :=
  if is_nan x || is_nan y then nan
  else if x <? y then x
  else if y <? x then y
  else if get_sign x then x else y.

(** [x > y] for JS numbers (false as soon as one side is NaN). *)
Definition gtf (x y : float) : bool := y <? x.

(** [Math.max(x, y)]: NaN if either argument is NaN; +0 wins over -0. *)
Definition Math_max (x y : float) : float :=
  if is_nan x || is_nan y then nan
  else if x <? y then y
  else if y <? x then x
  else if get_sign x then y else x.

(** A non-negative integer as a JS number. *)
Definition fnat (n : nat) : float := of_uint63 (Uint63.of_Z (Z.of_nat n)).

(** [Math.floor(x)] used as an array index: [None] when the result is not
    a non-negative finite integer, i.e. when the index is [undefined]-like
    or negative (every index of the code is non-negative). *)
Definition floor_index (x : float) : option nat :=
  match Prim2SF x with
  | S754_zero _ => Some O
  | S754_finite false m e =>
      if (0 <=? e)%Z then Some (Z.to_nat (Z.shiftl (Zpos m) e))
      else Some (Z.to_nat (Z.shiftr (Zpos m) (- e)))
  | _ => None
  end.

(** A store into a [Float32Array] cell, read back ([Math.fround]): the
    binary64 value rounded to binary32 (24-bit significand, exponents down
    to the subnormal 2^-149), to nearest with ties to even; values from
    2^128 on overflow to an infinity.  The binary32 result is exact in
    binary64. *)
Definition fround (x : float) : float :=
  match Prim2SF x with
  | S754_finite sg m e =>
      let d := (Z.log2 (Zpos m) + 1)%Z in
      let e' := Z.max (e + d - 24) (-149) in
      let '(q, eq) :=
        if (e' <=? e)%Z then (Zpos m, e)
        else
          let sh := (e' - e)%Z in
          let q := Z.shiftr (Zpos m) sh in
          let r := Z.land (Zpos m) (Z.ones sh) in
          let half := Z.shiftl 1 (sh - 1) in
          if (half <? r)%Z || ((r =? half)%Z && Z.odd q) then (q + 1, e')%Z
          else (q, e') in
      match q with
      | Zpos q' =>
          if (128 <=? Z.log2 (Zpos q') + eq)%Z then SF2Prim (S754_infinity sg)
          else SF2Prim (S754_finite sg q' eq)
      | _ => SF2Prim (S754_zero sg)
      end
  | _ => x
  end.

(** A [Uint8Array] element as a JS number. *)
Definition fbyte (b : Byte.byte) : float := fnat (N.to_nat (Byte.to_N b)).

(** [a[k]] on a [Uint8Array]: out of range, or a bad index, gives
    [undefined], which turns every arithmetic use into NaN. *)
Definition u8_get (a : list Byte.byte) (k : option nat) : float :=
  match k with
  | Some n => match nth_error a n with Some b => fbyte b | None => nan end
  | None => nan
  end.

(** ** Beat detection ([AudioEngine.detectBeat]) *)

Module Beat.

Record state := mkState {
  lastBeatTime : Z;
  currentBeat : float
}.

Definition beatThreshold : float := 1.3.
Definition beatDecayRate : float := 0.98.
Definition beatMinInterval : Z := 200.

(** The engine's initial detector state. *)
Definition init : state := mkState 0 0.

(** [detectBeat(currentAverage)] with [now = Date.now()]; returns the beat
    flag and the new detector state. *)
Definition detectBeat (s : state) (currentAverage : float) (now : Z)
  : bool * state :=
  let '(beatDetected, last, cb) :=
    if (beatMinInterval <? now - lastBeatTime s)%Z then
      if gtf currentAverage (currentBeat s * beatThreshold) then
        (true, now, currentAverage)
      else (false, lastBeatTime s, currentBeat s)
    else (false, lastBeatTime s, currentBeat s) in
  let cb := cb * beatDecayRate in
  let cb := Math_max cb (currentAverage * 0.5) in
  (beatDetected, mkState last cb).

(** [n] successive calls with the same average [a], [dt] milliseconds
    apart, the first at [now]. *)
Fixpoint run_const (a : float) (dt : Z) (n : nat) (now : Z) (s : state) : state :=
  match n with
  | O => s
  | S n' => run_const a dt n' (now + dt)%Z (snd (detectBeat s a now))
  end.

(** Successive calls [(currentAverage, now)]; the final detector state. *)
Fixpoint run_calls (s : state) (calls : list (float * Z)) : state :=
  match calls with
  | [] => s
  | (a, now) :: rest => run_calls (snd (detectBeat s a now)) rest
  end.

End Beat.

(** ** Frequency analysis ([AudioEngine.getFrequencyData] and
    [AudioEngine.extractFrequencyBands]) *)

Module Audio.

Local Open Scope string_scope.

(** The parts of the engine the analysis reads.  [audioContext] is kept
    only through its [sampleRate]; [analyser] only through whether it was
    created. *)
Record engine := mkEngine {
  audioContext : option float;      (* sampleRate of the context *)
  analyser : option unit;
  dataArray : option (list Byte.byte);
  bufferLength : nat;
  beat : Beat.state;
  frequencyBands : list (string * (float * float))
}.

(** The constructor's band table, in the order [Object.entries] lists it. *)
Definition defaultBands : list (string * (float * float)) :=
  [("sub", (0, 60)); ("bass", (60, 250)); ("low", (250, 500));
   ("mid", (500, 2000)); ("high", (2000, 4000)); ("treble", (4000, 8000))].

Record audioData := mkAudioData {
  frequencyData : list Byte.byte;
  average : float;
  beatFlag : bool;
  beatIntensity : float;
  bands : list (string * float)
}.

(** [bands.name]; an absent property reads as [undefined], i.e. NaN in
    arithmetic. *)
Definition band (b : list (string * float)) (name : string) : float :=
  match find (fun p => String.eqb (fst p) name) b with
  | Some (_, v) => v
  | None => nan
  end.

(** [for (let i = a; i < b; i++) sum += dataArray[i]] *)
Fixpoint sum_range (d : list Byte.byte) (i : nat) (count : nat) (acc : float)
  : float :=
  match count with
  | O => acc
  | S c => sum_range d (S i) c (acc + u8_get d (Some i))
  end.

(** One band of [extractFrequencyBands]. *)
Definition band_energy (nyquist : float) (bufLen : nat) (d : list Byte.byte)
    (range : float * float) : float :=
  let '(start, end_) := range in
  match floor_index ((start / nyquist) * fnat bufLen),
        floor_index ((end_ / nyquist) * fnat bufLen) with
  | Some startBin, Some endBin =>
      let sum := sum_range d startBin (endBin - startBin) 0 in
      (sum / (fnat endBin - fnat startBin)) / 255
  | _, _ => nan
  end.

Definition extractFrequencyBands (e : engine) (d : list Byte.byte)
  : js_result (list (string * float)) :=
  match audioContext e with
  | None => TypeError
  | Some sampleRate =>
      let nyquist := sampleRate / 2 in
      Ok (map (fun p => (fst p, band_energy nyquist (bufferLength e) d (snd p)))
              (frequencyBands e))
  end.

(** [analyser.getByteFrequencyData(arr)]: copies the current snapshot into
    [arr] as far as both reach. *)
Definition getByteFrequencyData (arr spectrum : list Byte.byte) : list Byte.byte :=
  List.app (firstn (List.length arr) spectrum) (skipn (List.length spectrum) arr).

Definition zeroBands : list (string * float) :=
  [("sub", 0); ("bass", 0); ("low", 0); ("mid", 0); ("high", 0); ("treble", 0)].

Definition zeroData : audioData :=
  mkAudioData (repeat Byte.x00 1024) 0 false 0 zeroBands.

(** [getFrequencyData()] at time [now], with [spectrum] the snapshot the
    analyser holds for this frame. *)
Definition getFrequencyData (e : engine) (spectrum : list Byte.byte) (now : Z)
  : js_result (engine * audioData) :=
  match analyser e, dataArray e with
  | Some _, Some arr =>
      let arr := getByteFrequencyData arr spectrum in
      let average :=
        fold_left (fun sum v => sum + fbyte v) arr 0 / fnat (bufferLength e) in
      let '(beatDetected, bs) := Beat.detectBeat (beat e) average now in
      let e := mkEngine (audioContext e) (analyser e) (Some arr) (bufferLength e)
                        bs (frequencyBands e) in
      match extractFrequencyBands e arr with
      | TypeError => TypeError
      | Ok bands =>
          Ok (e, mkAudioData arr (average / 255) beatDetected
                   (Beat.currentBeat bs / 255) bands)
      end
  | _, _ => Ok (e, zeroData)
  end.

(** The engine after a successful [initAudioContext] (fftSize 2048). *)
Definition initialized (sampleRate : float) : engine :=
  mkEngine (Some sampleRate) (Some tt) (Some (repeat Byte.x00 1024)) 1024
           Beat.init defaultBands.

End Audio.

(** ** The particle field ([Visualizer]) *)

Module Vis.

(** [THREE.Vector3] *)
Record vec3 := mkVec3 { vx : float; vy : float; vz : float }.

Definition vzero : vec3 := mkVec3 0 0 0.

(** [v.multiplyScalar(k)] *)
Definition multiplyScalar (v : vec3) (k : float) : vec3 :=
  mkVec3 (vx v * k) (vy v * k) (vz v * k).

(** A [THREE.Color] is written only through [setHSL(h, s, l)]; it is kept as
    that triple (the conversion to RGB is a fixed function of Three.js). *)
Record hsl := mkHSL { hue : float; sat : float; light : float }.

Record palette := mkPalette { hueBase : float; hueRange : float; saturation : float }.

Definition cyberpunk : palette := mkPalette 0.5 0.3 1.0.
Definition sunset : palette := mkPalette 0.05 0.15 0.9.
Definition ocean : palette := mkPalette 0.55 0.15 0.8.

(** [this.colorPalettes[paletteNames[this.currentPalette]]]: [undefined]
    for an index outside 0..2. *)
Definition palette_of (n : nat) : option palette :=
  nth_error [cyberpunk; sunset; ocean] n.

(** The built-in [Math] functions the code calls and that have no binary64
    primitive in Rocq: [Math.sin], [Math.cos], [Math.atan2], [Math.acos]
    and the successive results of [Math.random()]. *)
Record JSMath := mkJSMath {
  sin : float -> float;
  cos : float -> float;
  atan2 : float -> float -> float;
  acos : float -> float;
  random : nat -> float
}.

Definition Math_PI : float := 3.141592653589793.

(** The visualizer's state.  [pendingDecays] counts the [decayPulse]
    callbacks queued with [requestAnimationFrame]; [rngCalls] counts the
    calls of [Math.random()] made so far.  The GPU position buffer mirrors
    [particlePositions] after every particle pass (the radial-symmetry
    pass writes only that buffer and is not modelled). *)
Record vstate := mkVState {
  particleCount : nat;
  particlePositions : list vec3;
  particleVelocities : list vec3;
  particleColors : list hsl;
  sizes : list float;
  time : float;
  cameraAngle : float;
  cameraRadius : float;
  cameraHeight : float;
  cameraPosition : vec3;
  bassIntensity : float;
  midIntensity : float;
  trebleIntensity : float;
  isFrozen : bool;
  pulseEffect : bool;
  pulseIntensity : float;
  currentPalette : nat;
  radialSymmetry : bool;
  cameraShake : vec3;
  cameraShakeIntensity : float;
  visualMode : string;
  particleConnections : list (nat * nat * float);
  spiralAngle : float;
  spiralTightness : float;
  spikeIntensity : float;
  isRunning : bool;
  pendingDecays : nat;
  rngCalls : nat
}.

Definition set_particleCount (v : nat) (s : vstate) : vstate :=
  mkVState v (particlePositions s) (particleVelocities s) (particleColors s) (sizes s) (time s) (cameraAngle s) (cameraRadius s) (cameraHeight s) (cameraPosition s) (bassIntensity s) (midIntensity s) (trebleIntensity s) (isFrozen s) (pulseEffect s) (pulseIntensity s) (currentPalette s) (radialSymmetry s) (cameraShake s) (cameraShakeIntensity s) (visualMode s) (particleConnections s) (spiralAngle s) (spiralTightness s) (spikeIntensity s) (isRunning s) (pendingDecays s) (rngCalls s).
Definition set_particlePositions (v : list vec3) (s : vstate) : vstate :=
  mkVState (particleCount s) v (particleVelocities s) (particleColors s) (sizes s) (time s) (cameraAngle s) (cameraRadius s) (cameraHeight s) (cameraPosition s) (bassIntensity s) (midIntensity s) (trebleIntensity s) (isFrozen s) (pulseEffect s) (pulseIntensity s) (currentPalette s) (radialSymmetry s) (cameraShake s) (cameraShakeIntensity s) (visualMode s) (particleConnections s) (spiralAngle s) (spiralTightness s) (spikeIntensity s) (isRunning s) (pendingDecays s) (rngCalls s).
Definition set_particleVelocities (v : list vec3) (s : vstate) : vstate :=
  mkVState (particleCount s) (particlePositions s) v (particleColors s) (sizes s) (time s) (cameraAngle s) (cameraRadius s) (cameraHeight s) (cameraPosition s) (bassIntensity s) (midIntensity s) (trebleIntensity s) (isFrozen s) (pulseEffect s) (pulseIntensity s) (currentPalette s) (radialSymmetry s) (cameraShake s) (cameraShakeIntensity s) (visualMode s) (particleConnections s) (spiralAngle s) (spiralTightness s) (spikeIntensity s) (isRunning s) (pendingDecays s) (rngCalls s).
Definition set_particleColors (v : list hsl) (s : vstate) : vstate :=
  mkVState (particleCount s) (particlePositions s) (particleVelocities s) v (sizes s) (time s) (cameraAngle s) (cameraRadius s) (cameraHeight s) (cameraPosition s) (bassIntensity s) (midIntensity s) (trebleIntensity s) (isFrozen s) (pulseEffect s) (pulseIntensity s) (currentPalette s) (radialSymmetry s) (cameraShake s) (cameraShakeIntensity s) (visualMode s) (particleConnections s) (spiralAngle s) (spiralTightness s) (spikeIntensity s) (isRunning s) (pendingDecays s) (rngCalls s).
Definition set_sizes (v : list float) (s : vstate) : vstate :=
  mkVState (particleCount s) (particlePositions s) (particleVelocities s) (particleColors s) v (time s) (cameraAngle s) (cameraRadius s) (cameraHeight s) (cameraPosition s) (bassIntensity s) (midIntensity s) (trebleIntensity s) (isFrozen s) (pulseEffect s) (pulseIntensity s) (currentPalette s) (radialSymmetry s) (cameraShake s) (cameraShakeIntensity s) (visualMode s) (particleConnections s) (spiralAngle s) (spiralTightness s) (spikeIntensity s) (isRunning s) (pendingDecays s) (rngCalls s).
Definition set_time (v : float) (s : vstate) : vstate :=
  mkVState (particleCount s) (particlePositions s) (particleVelocities s) (particleColors s) (sizes s) v (cameraAngle s) (cameraRadius s) (cameraHeight s) (cameraPosition s) (bassIntensity s) (midIntensity s) (trebleIntensity s) (isFrozen s) (pulseEffect s) (pulseIntensity s) (currentPalette s) (radialSymmetry s) (cameraShake s) (cameraShakeIntensity s) (visualMode s) (particleConnections s) (spiralAngle s) (spiralTightness s) (spikeIntensity s) (isRunning s) (pendingDecays s) (rngCalls s).
Definition set_cameraAngle (v : float) (s : vstate) : vstate :=
  mkVState (particleCount s) (particlePositions s) (particleVelocities s) (particleColors s) (sizes s) (time s) v (cameraRadius s) (cameraHeight s) (cameraPosition s) (bassIntensity s) (midIntensity s) (trebleIntensity s) (isFrozen s) (pulseEffect s) (pulseIntensity s) (currentPalette s) (radialSymmetry s) (cameraShake s) (cameraShakeIntensity s) (visualMode s) (particleConnections s) (spiralAngle s) (spiralTightness s) (spikeIntensity s) (isRunning s) (pendingDecays s) (rngCalls s).
Definition set_cameraRadius (v : float) (s : vstate) : vstate :=
  mkVState (particleCount s) (particlePositions s) (particleVelocities s) (particleColors s) (sizes s) (time s) (cameraAngle s) v (cameraHeight s) (cameraPosition s) (bassIntensity s) (midIntensity s) (trebleIntensity s) (isFrozen s) (pulseEffect s) (pulseIntensity s) (currentPalette s) (radialSymmetry s) (cameraShake s) (cameraShakeIntensity s) (visualMode s) (particleConnections s) (spiralAngle s) (spiralTightness s) (spikeIntensity s) (isRunning s) (pendingDecays s) (rngCalls s).
Definition set_cameraHeight (v : float) (s : vstate) : vstate :=
  mkVState (particleCount s) (particlePositions s) (particleVelocities s) (particleColors s) (sizes s) (time s) (cameraAngle s) (cameraRadius s) v (cameraPosition s) (bassIntensity s) (midIntensity s) (trebleIntensity s) (isFrozen s) (pulseEffect s) (pulseIntensity s) (currentPalette s) (radialSymmetry s) (cameraShake s) (cameraShakeIntensity s) (visualMode s) (particleConnections s) (spiralAngle s) (spiralTightness s) (spikeIntensity s) (isRunning s) (pendingDecays s) (rngCalls s).
Definition set_cameraPosition (v : vec3) (s : vstate) : vstate :=
  mkVState (particleCount s) (particlePositions s) (particleVelocities s) (particleColors s) (sizes s) (time s) (cameraAngle s) (cameraRadius s) (cameraHeight s) v (bassIntensity s) (midIntensity s) (trebleIntensity s) (isFrozen s) (pulseEffect s) (pulseIntensity s) (currentPalette s) (radialSymmetry s) (cameraShake s) (cameraShakeIntensity s) (visualMode s) (particleConnections s) (spiralAngle s) (spiralTightness s) (spikeIntensity s) (isRunning s) (pendingDecays s) (rngCalls s).
Definition set_bassIntensity (v : float) (s : vstate) : vstate :=
  mkVState (particleCount s) (particlePositions s) (particleVelocities s) (particleColors s) (sizes s) (time s) (cameraAngle s) (cameraRadius s) (cameraHeight s) (cameraPosition s) v (midIntensity s) (trebleIntensity s) (isFrozen s) (pulseEffect s) (pulseIntensity s) (currentPalette s) (radialSymmetry s) (cameraShake s) (cameraShakeIntensity s) (visualMode s) (particleConnections s) (spiralAngle s) (spiralTightness s) (spikeIntensity s) (isRunning s) (pendingDecays s) (rngCalls s).
Definition set_midIntensity (v : float) (s : vstate) : vstate :=
  mkVState (particleCount s) (particlePositions s) (particleVelocities s) (particleColors s) (sizes s) (time s) (cameraAngle s) (cameraRadius s) (cameraHeight s) (cameraPosition s) (bassIntensity s) v (trebleIntensity s) (isFrozen s) (pulseEffect s) (pulseIntensity s) (currentPalette s) (radialSymmetry s) (cameraShake s) (cameraShakeIntensity s) (visualMode s) (particleConnections s) (spiralAngle s) (spiralTightness s) (spikeIntensity s) (isRunning s) (pendingDecays s) (rngCalls s).
Definition set_trebleIntensity (v : float) (s : vstate) : vstate :=
  mkVState (particleCount s) (particlePositions s) (particleVelocities s) (particleColors s) (sizes s) (time s) (cameraAngle s) (cameraRadius s) (cameraHeight s) (cameraPosition s) (bassIntensity s) (midIntensity s) v (isFrozen s) (pulseEffect s) (pulseIntensity s) (currentPalette s) (radialSymmetry s) (cameraShake s) (cameraShakeIntensity s) (visualMode s) (particleConnections s) (spiralAngle s) (spiralTightness s) (spikeIntensity s) (isRunning s) (pendingDecays s) (rngCalls s).
Definition set_isFrozen (v : bool) (s : vstate) : vstate :=
  mkVState (particleCount s) (particlePositions s) (particleVelocities s) (particleColors s) (sizes s) (time s) (cameraAngle s) (cameraRadius s) (cameraHeight s) (cameraPosition s) (bassIntensity s) (midIntensity s) (trebleIntensity s) v (pulseEffect s) (pulseIntensity s) (currentPalette s) (radialSymmetry s) (cameraShake s) (cameraShakeIntensity s) (visualMode s) (particleConnections s) (spiralAngle s) (spiralTightness s) (spikeIntensity s) (isRunning s) (pendingDecays s) (rngCalls s).
Definition set_pulseEffect (v : bool) (s : vstate) : vstate :=
  mkVState (particleCount s) (particlePositions s) (particleVelocities s) (particleColors s) (sizes s) (time s) (cameraAngle s) (cameraRadius s) (cameraHeight s) (cameraPosition s) (bassIntensity s) (midIntensity s) (trebleIntensity s) (isFrozen s) v (pulseIntensity s) (currentPalette s) (radialSymmetry s) (cameraShake s) (cameraShakeIntensity s) (visualMode s) (particleConnections s) (spiralAngle s) (spiralTightness s) (spikeIntensity s) (isRunning s) (pendingDecays s) (rngCalls s).
Definition set_pulseIntensity (v : float) (s : vstate) : vstate :=
  mkVState (particleCount s) (particlePositions s) (particleVelocities s) (particleColors s) (sizes s) (time s) (cameraAngle s) (cameraRadius s) (cameraHeight s) (cameraPosition s) (bassIntensity s) (midIntensity s) (trebleIntensity s) (isFrozen s) (pulseEffect s) v (currentPalette s) (radialSymmetry s) (cameraShake s) (cameraShakeIntensity s) (visualMode s) (particleConnections s) (spiralAngle s) (spiralTightness s) (spikeIntensity s) (isRunning s) (pendingDecays s) (rngCalls s).
Definition set_currentPalette (v : nat) (s : vstate) : vstate :=
  mkVState (particleCount s) (particlePositions s) (particleVelocities s) (particleColors s) (sizes s) (time s) (cameraAngle s) (cameraRadius s) (cameraHeight s) (cameraPosition s) (bassIntensity s) (midIntensity s) (trebleIntensity s) (isFrozen s) (pulseEffect s) (pulseIntensity s) v (radialSymmetry s) (cameraShake s) (cameraShakeIntensity s) (visualMode s) (particleConnections s) (spiralAngle s) (spiralTightness s) (spikeIntensity s) (isRunning s) (pendingDecays s) (rngCalls s).
Definition set_radialSymmetry (v : bool) (s : vstate) : vstate :=
  mkVState (particleCount s) (particlePositions s) (particleVelocities s) (particleColors s) (sizes s) (time s) (cameraAngle s) (cameraRadius s) (cameraHeight s) (cameraPosition s) (bassIntensity s) (midIntensity s) (trebleIntensity s) (isFrozen s) (pulseEffect s) (pulseIntensity s) (currentPalette s) v (cameraShake s) (cameraShakeIntensity s) (visualMode s) (particleConnections s) (spiralAngle s) (spiralTightness s) (spikeIntensity s) (isRunning s) (pendingDecays s) (rngCalls s).
Definition set_cameraShake (v : vec3) (s : vstate) : vstate :=
  mkVState (particleCount s) (particlePositions s) (particleVelocities s) (particleColors s) (sizes s) (time s) (cameraAngle s) (cameraRadius s) (cameraHeight s) (cameraPosition s) (bassIntensity s) (midIntensity s) (trebleIntensity s) (isFrozen s) (pulseEffect s) (pulseIntensity s) (currentPalette s) (radialSymmetry s) v (cameraShakeIntensity s) (visualMode s) (particleConnections s) (spiralAngle s) (spiralTightness s) (spikeIntensity s) (isRunning s) (pendingDecays s) (rngCalls s).
Definition set_cameraShakeIntensity (v : float) (s : vstate) : vstate :=
  mkVState (particleCount s) (particlePositions s) (particleVelocities s) (particleColors s) (sizes s) (time s) (cameraAngle s) (cameraRadius s) (cameraHeight s) (cameraPosition s) (bassIntensity s) (midIntensity s) (trebleIntensity s) (isFrozen s) (pulseEffect s) (pulseIntensity s) (currentPalette s) (radialSymmetry s) (cameraShake s) v (visualMode s) (particleConnections s) (spiralAngle s) (spiralTightness s) (spikeIntensity s) (isRunning s) (pendingDecays s) (rngCalls s).
Definition set_visualMode (v : string) (s : vstate) : vstate :=
  mkVState (particleCount s) (particlePositions s) (particleVelocities s) (particleColors s) (sizes s) (time s) (cameraAngle s) (cameraRadius s) (cameraHeight s) (cameraPosition s) (bassIntensity s) (midIntensity s) (trebleIntensity s) (isFrozen s) (pulseEffect s) (pulseIntensity s) (currentPalette s) (radialSymmetry s) (cameraShake s) (cameraShakeIntensity s) v (particleConnections s) (spiralAngle s) (spiralTightness s) (spikeIntensity s) (isRunning s) (pendingDecays s) (rngCalls s).
Definition set_particleConnections (v : list (nat * nat * float)) (s : vstate) : vstate :=
  mkVState (particleCount s) (particlePositions s) (particleVelocities s) (particleColors s) (sizes s) (time s) (cameraAngle s) (cameraRadius s) (cameraHeight s) (cameraPosition s) (bassIntensity s) (midIntensity s) (trebleIntensity s) (isFrozen s) (pulseEffect s) (pulseIntensity s) (currentPalette s) (radialSymmetry s) (cameraShake s) (cameraShakeIntensity s) (visualMode s) v (spiralAngle s) (spiralTightness s) (spikeIntensity s) (isRunning s) (pendingDecays s) (rngCalls s).
Definition set_spiralAngle (v : float) (s : vstate) : vstate :=
  mkVState (particleCount s) (particlePositions s) (particleVelocities s) (particleColors s) (sizes s) (time s) (cameraAngle s) (cameraRadius s) (cameraHeight s) (cameraPosition s) (bassIntensity s) (midIntensity s) (trebleIntensity s) (isFrozen s) (pulseEffect s) (pulseIntensity s) (currentPalette s) (radialSymmetry s) (cameraShake s) (cameraShakeIntensity s) (visualMode s) (particleConnections s) v (spiralTightness s) (spikeIntensity s) (isRunning s) (pendingDecays s) (rngCalls s).
Definition set_spiralTightness (v : float) (s : vstate) : vstate :=
  mkVState (particleCount s) (particlePositions s) (particleVelocities s) (particleColors s) (sizes s) (time s) (cameraAngle s) (cameraRadius s) (cameraHeight s) (cameraPosition s) (bassIntensity s) (midIntensity s) (trebleIntensity s) (isFrozen s) (pulseEffect s) (pulseIntensity s) (currentPalette s) (radialSymmetry s) (cameraShake s) (cameraShakeIntensity s) (visualMode s) (particleConnections s) (spiralAngle s) v (spikeIntensity s) (isRunning s) (pendingDecays s) (rngCalls s).
Definition set_spikeIntensity (v : float) (s : vstate) : vstate :=
  mkVState (particleCount s) (particlePositions s) (particleVelocities s) (particleColors s) (sizes s) (time s) (cameraAngle s) (cameraRadius s) (cameraHeight s) (cameraPosition s) (bassIntensity s) (midIntensity s) (trebleIntensity s) (isFrozen s) (pulseEffect s) (pulseIntensity s) (currentPalette s) (radialSymmetry s) (cameraShake s) (cameraShakeIntensity s) (visualMode s) (particleConnections s) (spiralAngle s) (spiralTightness s) v (isRunning s) (pendingDecays s) (rngCalls s).
Definition set_isRunning (v : bool) (s : vstate) : vstate :=
  mkVState (particleCount s) (particlePositions s) (particleVelocities s) (particleColors s) (sizes s) (time s) (cameraAngle s) (cameraRadius s) (cameraHeight s) (cameraPosition s) (bassIntensity s) (midIntensity s) (trebleIntensity s) (isFrozen s) (pulseEffect s) (pulseIntensity s) (currentPalette s) (radialSymmetry s) (cameraShake s) (cameraShakeIntensity s) (visualMode s) (particleConnections s) (spiralAngle s) (spiralTightness s) (spikeIntensity s) v (pendingDecays s) (rngCalls s).
Definition set_pendingDecays (v : nat) (s : vstate) : vstate :=
  mkVState (particleCount s) (particlePositions s) (particleVelocities s) (particleColors s) (sizes s) (time s) (cameraAngle s) (cameraRadius s) (cameraHeight s) (cameraPosition s) (bassIntensity s) (midIntensity s) (trebleIntensity s) (isFrozen s) (pulseEffect s) (pulseIntensity s) (currentPalette s) (radialSymmetry s) (cameraShake s) (cameraShakeIntensity s) (visualMode s) (particleConnections s) (spiralAngle s) (spiralTightness s) (spikeIntensity s) (isRunning s) v (rngCalls s).
Definition set_rngCalls (v : nat) (s : vstate) : vstate :=
  mkVState (particleCount s) (particlePositions s) (particleVelocities s) (particleColors s) (sizes s) (time s) (cameraAngle s) (cameraRadius s) (cameraHeight s) (cameraPosition s) (bassIntensity s) (midIntensity s) (trebleIntensity s) (isFrozen s) (pulseEffect s) (pulseIntensity s) (currentPalette s) (radialSymmetry s) (cameraShake s) (cameraShakeIntensity s) (visualMode s) (particleConnections s) (spiralAngle s) (spiralTightness s) (spikeIntensity s) (isRunning s) (pendingDecays s) v.

(** [a[i] = x] on an array of length at least [i + 1]; a typed array
    ignores a write out of range. *)
Fixpoint set_nth {A : Type} (l : list A) (i : nat) (x : A) : list A :=
  match l, i with
  | [], _ => []
  | _ :: t, O => x :: t
  | y :: t, S j => y :: set_nth t j x
  end.

(** [for (let i = i0; i < i0 + n; i++) step(i)] *)
Fixpoint for_range (n i : nat) (step : nat -> vstate -> js_result vstate)
    (s : vstate) : js_result vstate :=
  match n with
  | O => Ok s
  | S n' => let! s' := step i s in for_range n' (S i) step s'
  end.

(** [Math.floor((i / this.particleCount) * frequencyData.length)] *)
Definition freqIndex (i N len : nat) : option nat :=
  floor_index ((fnat i / fnat N) * fnat len).

(** [frequencyData[freqIndex] / 255] *)
Definition freqValueAt (fd : list Byte.byte) (k : option nat) : float :=
  u8_get fd k / 255.

(** What one iteration of a particle loop computes for particle [i]: its
    new position, velocity, color and size, and the [Math.random()]
    counter afterwards. *)
Record pout := mkPout {
  o_pos : vec3; o_vel : vec3; o_color : hsl; o_size : float; o_rng : nat
}.

(** Writes of one iteration: [pos] and [vel] are the particle's own
    [Vector3] objects, [color] its own [THREE.Color], [sizes[i]] a typed
    array cell. *)
Definition write_particle (i : nat) (o : pout) (s : vstate) : vstate :=
  set_rngCalls (o_rng o)
    (set_sizes (set_nth (sizes s) i (fround (o_size o)))
      (set_particleColors (set_nth (particleColors s) i (o_color o))
        (set_particleVelocities (set_nth (particleVelocities s) i (o_vel o))
          (set_particlePositions (set_nth (particlePositions s) i (o_pos o)) s)))).

(** One iteration of a loop that reads [particlePositions[i]],
    [particleVelocities[i]] and [particleColors[i]]; reading a field of a
    missing entry throws. *)
Definition particle_step
    (body : nat -> vec3 -> vec3 -> hsl -> nat -> js_result pout)
    (i : nat) (s : vstate) : js_result vstate :=
  match nth_error (particlePositions s) i, nth_error (particleVelocities s) i,
        nth_error (particleColors s) i with
  | Some p, Some v, Some c =>
      let! o := body i p v c (rngCalls s) in Ok (write_particle i o s)
  | _, _, _ => TypeError
  end.

(** [palette.hueBase] etc. on a possibly [undefined] palette. *)
Definition with_palette {A : Type} (pal : option palette) (k : palette -> A)
  : js_result A :=
  match pal with Some p => Ok (k p) | None => TypeError end.

Section Modes.

Variable M : JSMath.

(** The per-frame inputs of a mode update (the arguments
    [frequencyData, average, beat, beatIntensity]). *)
Variables (fd : list Byte.byte) (average : float) (beat : bool)
          (beatIntensity : float).

(** Loop body of [updateParticles] (the generic rule, also the first half
    of Neural); [s] supplies the shared scalars. *)
Definition generic_body (s : vstate) (i : nat) (pos vel : vec3) (_ : hsl)
    (rng : nat) : js_result pout :=
  let freqValue := freqValueAt fd (freqIndex i (particleCount s) (List.length fd)) in
  let distance := sqrt (vx pos * vx pos + vy pos * vy pos + vz pos * vz pos) in
  let force := freqValue * 5 in
  let directionX := vx pos / distance in
  let directionY := vy pos / distance in
  let directionZ := vz pos / distance in
  let vel := mkVec3 (vx vel + directionX * force * 0.1)
                    (vy vel + directionY * force * 0.1)
                    (vz vel + directionZ * force * 0.1) in
  let vel :=
    if beat || pulseEffect s then
      let pulseStrength := if pulseEffect s then pulseIntensity s else beatIntensity in
      mkVec3 (vx vel + directionX * pulseStrength * 0.5)
             (vy vel + directionY * pulseStrength * 0.5)
             (vz vel + directionZ * pulseStrength * 0.5)
    else vel in
  let pos := mkVec3 (vx pos + vx vel) (vy pos + vy vel) (vz pos + vz vel) in
  let vel := multiplyScalar vel 0.95 in
  let targetDistance := 100 + bassIntensity s * 50 in
  let restoreForce := (targetDistance - distance) * 0.01 in
  let pos := mkVec3 (vx pos + directionX * restoreForce)
                    (vy pos + directionY * restoreForce)
                    (vz pos + directionZ * restoreForce) in
  with_palette (palette_of (currentPalette s)) (fun palette =>
    let hue := hueBase palette + freqValue * hueRange palette - average * 0.2 in
    let saturation := saturation palette + freqValue * 0.1 in
    let lightness := 0.4 + freqValue * 0.4 in
    let pulseSize := if pulseEffect s then pulseIntensity s * 2 else 0 in
    mkPout pos vel (mkHSL hue saturation lightness)
      (1 + freqValue * 3 + (if beat then beatIntensity else 0) + pulseSize) rng).

Definition updateParticles (s : vstate) : js_result vstate :=
  for_range (particleCount s) 0 (particle_step (generic_body s)) s.

(** Loop body of [updateParticlesCosmic]. *)
Definition cosmic_body (s : vstate) (i : nat) (pos vel : vec3) (_ : hsl)
    (rng : nat) : js_result pout :=
  let freqValue := freqValueAt fd (freqIndex i (particleCount s) (List.length fd)) in
  let distance := sqrt (vx pos * vx pos + vz pos * vz pos) in
  let angle := atan2 M (vz pos) (vx pos) + spiralAngle s * spiralTightness s in
  let targetRadius := 100 + bassIntensity s * 80 + freqValue * 50 in
  let targetX := cos M angle * targetRadius in
  let targetZ := sin M angle * targetRadius in
  let vel := mkVec3 (vx vel + (targetX - vx pos) * 0.01)
                    (vy vel + (freqValue * 50 - vy pos) * 0.01)
                    (vz vel + (targetZ - vz pos) * 0.01) in
  let vel :=
    if beat || pulseEffect s then
      let pulseStrength := if pulseEffect s then pulseIntensity s else beatIntensity in
      let directionX := vx pos / Math_max distance 1 in
      let directionZ := vz pos / Math_max distance 1 in
      mkVec3 (vx vel + directionX * pulseStrength * 0.5) (vy vel)
             (vz vel + directionZ * pulseStrength * 0.5)
    else vel in
  let pos := mkVec3 (vx pos + vx vel) (vy pos + vy vel) (vz pos + vz vel) in
  let vel := multiplyScalar vel 0.92 in
  with_palette (palette_of (currentPalette s)) (fun palette =>
    let normalizedDist := Math_min (distance / 200) 1 in
    let hue := hueBase palette + normalizedDist * hueRange palette in
    mkPout pos vel (mkHSL hue (saturation palette) (0.5 + freqValue * 0.5))
      (1 + freqValue * 4 + (if beat then beatIntensity else 0)) rng).

Definition updateParticlesCosmic (s : vstate) : js_result vstate :=
  for_range (particleCount s) 0 (particle_step (cosmic_body s)) s.

(** The Neural edge scan: [i] and [j] run over [0, 5, 10, ...] below
    [Math.min(particleCount, 200)]; an edge [(i, j, opacity * 0.5)] is
    created when the two positions are closer than the threshold. *)
Definition edge (ps : list vec3) (thr : float) (i j : nat)
  : list (nat * nat * float) :=
  let a := nth i ps vzero in
  let b := nth j ps vzero in
  let dx := vx a - vx b in
  let dy := vy a - vy b in
  let dz := vz a - vz b in
  let distance := sqrt (dx * dx + dy * dy + dz * dz) in
  if distance <? thr then [(i, j, (1 - distance / thr) * 0.5)] else [].

Fixpoint scan_j (ps : list vec3) (thr : float) (lim i : nat) (fuel j : nat)
  : list (nat * nat * float) :=
  match fuel with
  | O => []
  | S f => if (j <? lim)%nat then edge ps thr i j ++ scan_j ps thr lim i f (j + 5)
           else []
  end.

Fixpoint scan_i (ps : list vec3) (thr : float) (lim : nat) (fuel i : nat)
  : list (nat * nat * float) :=
  match fuel with
  | O => []
  | S f => if (i <? lim)%nat
           then scan_j ps thr lim i lim (i + 5) ++ scan_i ps thr lim f (i + 5)
           else []
  end.

(** [updateParticlesNeural]: the generic rule, then the edge list is
    rebuilt from scratch.  (The code reads the positions back from the
    GPU buffer, a single-precision copy; the model reads the positions.) *)
Definition updateParticlesNeural (s : vstate) : js_result vstate :=
  let! s := updateParticles s in
  let lim := Nat.min (particleCount s) 200 in
  let connectionThreshold := 60 + midIntensity s * 30 in
  Ok (set_particleConnections
        (scan_i (particlePositions s) connectionThreshold lim lim 0) s).

(** Loop body of [updateParticlesPulse]. *)
Definition pulse_body (s : vstate) (i : nat) (pos vel : vec3) (_ : hsl)
    (rng : nat) : js_result pout :=
  let freqValue := freqValueAt fd (freqIndex i (particleCount s) (List.length fd)) in
  let distance := sqrt (vx pos * vx pos + vy pos * vy pos + vz pos * vz pos) in
  let directionX := vx pos / Math_max distance 1 in
  let directionY := vy pos / Math_max distance 1 in
  let directionZ := vz pos / Math_max distance 1 in
  let pulsePhase :=
    sin M (time s * 2 + (fnat i / fnat (particleCount s)) * Math_PI * 4) in
  let targetDistance :=
    80 + pulsePhase * 40 + freqValue * 60 + bassIntensity s * 40 in
  let force := (targetDistance - distance) * 0.05 in
  let vel := mkVec3 (vx vel + directionX * force) (vy vel + directionY * force)
                    (vz vel + directionZ * force) in
  let vel :=
    if beat then
      mkVec3 (vx vel + directionX * beatIntensity * 2)
             (vy vel + directionY * beatIntensity * 2)
             (vz vel + directionZ * beatIntensity * 2)
    else vel in
  let pos := mkVec3 (vx pos + vx vel) (vy pos + vy vel) (vz pos + vz vel) in
  let vel := multiplyScalar vel 0.88 in
  with_palette (palette_of (currentPalette s)) (fun palette =>
    let hue := hueBase palette + (pulsePhase * 0.5 + 0.5) * hueRange palette in
    mkPout pos vel (mkHSL hue (saturation palette) (0.4 + freqValue * 0.6))
      (2 + freqValue * 5 + abs pulsePhase * 2) rng).

Definition updateParticlesPulse (s : vstate) : js_result vstate :=
  for_range (particleCount s) 0 (particle_step (pulse_body s)) s.

(** Loop body of [updateParticlesChaos]; on a beat it calls [Math.random()]
    three times. *)
Definition chaos_body (s : vstate) (i : nat) (pos vel : vec3) (_ : hsl)
    (rng : nat) : js_result pout :=
  let freqValue := freqValueAt fd (freqIndex i (particleCount s) (List.length fd)) in
  let fi := fnat i in
  let chaosX := sin M (time s * 3 + fi * 0.1) * freqValue * 5 in
  let chaosY := cos M (time s * 4 + fi * 0.15) * freqValue * 5 in
  let chaosZ := sin M (time s * 2.5 + fi * 0.12) * freqValue * 5 in
  let vel := mkVec3 (vx vel + chaosX * 0.1) (vy vel + chaosY * 0.1)
                    (vz vel + chaosZ * 0.1) in
  let '(vel, rng) :=
    if beat then
      (mkVec3 (vx vel + (random M rng - 0.5) * beatIntensity * 3)
              (vy vel + (random M (S rng) - 0.5) * beatIntensity * 3)
              (vz vel + (random M (S (S rng)) - 0.5) * beatIntensity * 3),
       S (S (S rng)))
    else (vel, rng) in
  let distance := sqrt (vx pos * vx pos + vy pos * vy pos + vz pos * vz pos) in
  let vel :=
    if gtf distance 200 then
      mkVec3 (vx vel + (- vx pos / distance) * 0.5)
             (vy vel + (- vy pos / distance) * 0.5)
             (vz vel + (- vz pos / distance) * 0.5)
    else vel in
  let pos := mkVec3 (vx pos + vx vel) (vy pos + vy vel) (vz pos + vz vel) in
  let vel := multiplyScalar vel 0.96 in
  with_palette (palette_of (currentPalette s)) (fun palette =>
    let hue := hueBase palette + sin M (time s * 5 + fi * 0.1) * hueRange palette in
    mkPout pos vel (mkHSL hue (saturation palette) (0.3 + freqValue * 0.7))
      (1 + freqValue * 6) rng).

Definition updateParticlesChaos (s : vstate) : js_result vstate :=
  for_range (particleCount s) 0 (particle_step (chaos_body s)) s.

(** [updateParticlesMinimal] *)
Definition barCount : nat := 64.

(** [Math.floor(this.particleCount / barCount)] *)
Definition particlesPerBar (N : nat) : nat :=
  match floor_index (fnat N / fnat barCount) with Some k => k | None => O end.

(** Inner iteration [p] of bar [bar]; touches particle
    [i = bar * particlesPerBar + p] only (position, color, size). *)
Definition minimal_step (s0 : vstate) (palette : option palette) (ppb bar : nat)
    (freqValue barHeight : float) (p : nat) (s : vstate) : js_result vstate :=
  let i := (bar * ppb + p)%nat in
  match nth_error (particlePositions s) i, nth_error (particleColors s) i with
  | Some pos, Some _ =>
      let x := (fnat bar - fnat barCount / 2) * 8 in
      let y := (fnat p / fnat ppb) * barHeight - 50 in
      let z := 0 in
      let pos := mkVec3 (vx pos + (x - vx pos) * 0.15) (vy pos + (y - vy pos) * 0.15)
                        (vz pos + (z - vz pos) * 0.15) in
      let! c := with_palette palette (fun palette =>
        mkHSL (hueBase palette + (y / 100 + 0.5) * hueRange palette)
              (saturation palette) (0.5 + freqValue * 0.5)) in
      Ok (set_sizes (set_nth (sizes s) i (fround (3 + freqValue * 4)))
           (set_particleColors (set_nth (particleColors s) i c)
             (set_particlePositions (set_nth (particlePositions s) i pos) s)))
  | _, _ => TypeError
  end.

(** [for (let p = 0; p < particlesPerBar; p++) { if (i >= particleCount)
    break; ... }] *)
Fixpoint minimal_inner (s0 : vstate) (palette : option palette) (ppb bar : nat)
    (freqValue barHeight : float) (n p : nat) (s : vstate) : js_result vstate :=
  match n with
  | O => Ok s
  | S n' =>
      if (particleCount s0 <=? bar * ppb + p)%nat then Ok s
      else let! s := minimal_step s0 palette ppb bar freqValue barHeight p s in
           minimal_inner s0 palette ppb bar freqValue barHeight n' (S p) s
  end.

Fixpoint minimal_bars (s0 : vstate) (palette : option palette) (ppb : nat)
    (n bar : nat) (s : vstate) : js_result vstate :=
  match n with
  | O => Ok s
  | S n' =>
      let freqValue :=
        freqValueAt fd (floor_index ((fnat bar / fnat barCount) * fnat (List.length fd))) in
      let barHeight := freqValue * 150 in
      let! s := minimal_inner s0 palette ppb bar freqValue barHeight ppb 0 s in
      minimal_bars s0 palette ppb n' (S bar) s
  end.

Definition updateParticlesMinimal (s : vstate) : js_result vstate :=
  minimal_bars s (palette_of (currentPalette s)) (particlesPerBar (particleCount s))
               barCount 0 s.

(** [updateParticleColors] (the frozen pass): colors and sizes only. *)
Definition colors_step (s0 : vstate) (i : nat) (s : vstate) : js_result vstate :=
  match nth_error (particleColors s) i with
  | Some _ =>
      let freqValue := freqValueAt fd (freqIndex i (particleCount s0) (List.length fd)) in
      let! o := with_palette (palette_of (currentPalette s0)) (fun palette =>
        let hue := hueBase palette + freqValue * hueRange palette - average * 0.2 in
        let saturation := saturation palette + freqValue * 0.1 in
        let lightness := 0.4 + freqValue * 0.4 in
        let pulseSize := if pulseEffect s0 then pulseIntensity s0 * 2 else 0 in
        (mkHSL hue saturation lightness, 1 + freqValue * 3 + pulseSize)) in
      Ok (set_sizes (set_nth (sizes s) i (fround (snd o)))
            (set_particleColors (set_nth (particleColors s) i (fst o)) s))
  | None => TypeError
  end.

Definition updateParticleColors (s : vstate) : js_result vstate :=
  for_range (particleCount s) 0 (colors_step s) s.

End Modes.

(** ** Pulse, gestures, camera and the per-frame [update] *)

(** The step of the [decayPulse] closure of [triggerPulse], over any number
    type: [pulseIntensity *= 0.85]; if the result exceeds [0.1] the closure
    re-queues itself (third component [true]); otherwise the pulse is
    cleared and [pulseIntensity] set to [0]. *)
Section DecayStep.
Context {num : Type} (mul : num -> num -> num) (gt : num -> num -> bool)
        (k085 k01 k0 : num).

Definition decay_step (st : bool * num) : bool * num * bool :=
  let x := mul (snd st) k085 in
  if gt x k01 then (fst st, x, true) else (false, k0, false).

(** The chain of [decayPulse] calls: the first call, then one more per
    animation frame while the previous call re-queued itself; [n] counts
    the frames after the first call. *)
Fixpoint decay_run (n : nat) (st : bool * num) : bool * num * bool :=
  match n with
  | O => decay_step st
  | S n' =>
      let '(eff, x, again) := decay_run n' st in
      if again then decay_step (eff, x) else (eff, x, false)
  end.

End DecayStep.

Definition decayPulse (s : vstate) : vstate :=
  let '(eff, x, again) :=
    decay_step PrimFloat.mul gtf 0.85 0.1 0 (pulseEffect s, pulseIntensity s) in
  let s := set_pulseIntensity x (set_pulseEffect eff s) in
  if again then set_pendingDecays (S (pendingDecays s)) s else s.

(** [triggerPulse(intensity)]: the first decay runs at once. *)
Definition triggerPulse (intensity : float) (s : vstate) : vstate :=
  decayPulse (set_pulseIntensity (intensity + 1.5) (set_pulseEffect true s)).

(** The [requestAnimationFrame] callbacks queued for the next frame:
    each queued [decayPulse] runs once (and may queue itself again). *)
Fixpoint run_decays (n : nat) (s : vstate) : vstate :=
  match n with O => s | S n' => run_decays n' (decayPulse s) end.

Definition animationFrame (s : vstate) : vstate :=
  run_decays (pendingDecays s) (set_pendingDecays 0 s).

Record gestureCommands := mkCommands {
  freeze : bool; pulse : bool; colorPalette : nat
}.

Definition processGestureCommands (commands : gestureCommands) (beat : bool)
    (beatIntensity : float) (s : vstate) : vstate :=
  let s := set_isFrozen (freeze commands) s in
  let s := if pulse commands && negb (pulseEffect s)
           then triggerPulse beatIntensity s else s in
  if Nat.eqb (colorPalette commands) (currentPalette s) then s
  else set_currentPalette (colorPalette commands) s.

Section Frame.

Variable M : JSMath.

Definition updateCameraShake (bass : float) (beat : bool) (s : vstate) : vstate :=
  let csi := if beat then bass * 10 else cameraShakeIntensity s in
  let csi := csi * 0.9 in
  let s := set_cameraShakeIntensity csi s in
  if gtf csi 0.1 then
    let r := rngCalls s in
    set_rngCalls (S (S (S r)))
      (set_cameraShake (mkVec3 ((random M r - 0.5) * csi)
                               ((random M (S r) - 0.5) * csi)
                               ((random M (S (S r)) - 0.5) * csi)) s)
  else set_cameraShake vzero s.

Definition updateCamera (audioIntensity : float) (s : vstate) : vstate :=
  let angle := cameraAngle s + (0.002 + audioIntensity * 0.001) in
  let dynamicRadius := cameraRadius s + audioIntensity * 50 in
  let dynamicHeight := cameraHeight s + bassIntensity s * 30 in
  set_cameraPosition
    (mkVec3 (cos M angle * dynamicRadius + vx (cameraShake s))
            (dynamicHeight + vy (cameraShake s))
            (sin M angle * dynamicRadius + vz (cameraShake s)))
    (set_cameraAngle angle s).

(** The [switch (this.visualMode)] of [update]. *)
Definition runMode (fd : list Byte.byte) (average : float) (beat : bool)
    (beatIntensity : float) (s : vstate) : js_result vstate :=
  if String.eqb (visualMode s) "cosmic"%string then
    updateParticlesCosmic M fd beat beatIntensity s
  else if String.eqb (visualMode s) "neural"%string then
    updateParticlesNeural fd average beat beatIntensity s
  else if String.eqb (visualMode s) "pulse"%string then
    updateParticlesPulse M fd beat beatIntensity s
  else if String.eqb (visualMode s) "chaos"%string then
    updateParticlesChaos M fd beat beatIntensity s
  else if String.eqb (visualMode s) "minimal"%string then
    updateParticlesMinimal fd s
  else updateParticles fd average beat beatIntensity s.

(** The part of [update] before the particle pass: time, band
    intensities, gesture commands, camera shake, spikes and spiral. *)
Definition prepare (a : Audio.audioData) (gestureCommands : option gestureCommands)
    (s : vstate) : vstate :=
  let s := set_time (time s + 0.01) s in
  let bands := Audio.bands a in
  let bass := Audio.band bands "bass"%string in
  let mid := Audio.band bands "mid"%string in
  let treble := Audio.band bands "treble"%string in
  let beat := Audio.beatFlag a in
  let beatIntensity := Audio.beatIntensity a in
  let s := set_trebleIntensity (treble * 1.2)
             (set_midIntensity (mid * 1.5) (set_bassIntensity (bass * 2) s)) in
  let s := match gestureCommands with
           | Some c => processGestureCommands c beat beatIntensity s
           | None => s
           end in
  let s := updateCameraShake bass beat s in
  let s := set_spikeIntensity (treble * 3) s in
  set_spiralAngle (spiralAngle s + (0.01 + bass * 0.05)) s.

(** [update(audioData, gestureCommands)] *)
Definition update (audioData : option Audio.audioData)
    (gestureCommands : option gestureCommands) (s : vstate) : js_result vstate :=
  match audioData with
  | None => Ok s
  | Some a =>
      if negb (isRunning s) then Ok s else
      let s := prepare a gestureCommands s in
      let fd := Audio.frequencyData a in
      let! s := if negb (isFrozen s)
                then runMode fd (Audio.average a) (Audio.beatFlag a)
                       (Audio.beatIntensity a) s
                else updateParticleColors fd (Audio.average a) s in
      Ok (updateCamera (Audio.average a) s)
  end.

End Frame.

(** [setVisualMode(mode)] *)
Definition setVisualMode (mode : string) (s : vstate) : vstate :=
  set_visualMode mode s.

(** ** Construction ([constructor] and [createParticleSystem]) *)

(** Particle [i] of the random spherical distribution; it uses the five
    [Math.random()] results from call [r] on. *)
Definition new_particle (M : JSMath) (r : nat) : vec3 * hsl * float :=
  let radius := random M r * 100 + 50 in
  let theta := random M (S r) * Math_PI * 2 in
  let phi := acos M (random M (2 + r) * 2 - 1) in
  let x := radius * sin M phi * cos M theta in
  let y := radius * sin M phi * sin M theta in
  let z := radius * cos M phi in
  (mkVec3 x y z, mkHSL (0.5 + random M (3 + r) * 0.3) 1.0 0.5,
   fround (random M (4 + r) * 2 + 1)).

Fixpoint create_particles (M : JSMath) (n r : nat)
  : list vec3 * list hsl * list float :=
  match n with
  | O => ([], [], [])
  | S n' =>
      let '(p, c, sz) := new_particle M r in
      let '(ps, cs, szs) := create_particles M n' (5 + r) in
      (p :: ps, c :: cs, sz :: szs)
  end.

(** The visualizer right after [new Visualizer(canvasId)] with
    [particleCount] particles (the code's value is 2000). *)
Definition construct (M : JSMath) (particleCount : nat) : vstate :=
  let '(ps, cs, szs) := create_particles M particleCount 0 in
  mkVState particleCount ps (repeat vzero particleCount) cs szs
    0 0 150 50 (mkVec3 0 0 150) 0 0 0 false false 0 0 false vzero 0
    "cosmic"%string [] 0 0.1 0 false 0 (5 * particleCount).

Definition defaultParticleCount : nat := 2000.

(** [start()] *)
Definition start (s : vstate) : vstate := set_isRunning true s.

(** [stop()] *)
Definition stop (s : vstate) : vstate := set_isRunning false s.

(** [toggleRadialSymmetry()] *)
Definition toggleRadialSymmetry (s : vstate) : vstate :=
  set_radialSymmetry (negb (radialSymmetry s)) s.

(** ** Sessions: the public operations, in any order *)

Inductive op :=
| SetVisualMode (mode : string)
| Gesture (commands : gestureCommands) (beat : bool) (beatIntensity : float)
| TriggerPulse (intensity : float)
| AnimationFrame
| Update (audioData : option Audio.audioData)
         (commands : option gestureCommands)
| Start
| Stop
| ToggleRadialSymmetry.

Definition run_op (M : JSMath) (o : op) (s : vstate) : js_result vstate :=
  match o with
  | SetVisualMode m => Ok (setVisualMode m s)
  | Gesture c beat bi => Ok (processGestureCommands c beat bi s)
  | TriggerPulse x => Ok (triggerPulse x s)
  | AnimationFrame => Ok (animationFrame s)
  | Update a c => update M a c s
  | Start => Ok (start s)
  | Stop => Ok (stop s)
  | ToggleRadialSymmetry => Ok (toggleRadialSymmetry s)
  end.

(** The operations in order; a call that throws ends the session. *)
Fixpoint run (M : JSMath) (ops : list op) (s : vstate) : js_result vstate :=
  match ops with
  | [] => Ok s
  | o :: os => let! s := run_op M o s in run M os s
  end.

End Vis.

(** ** Hand gestures ([GestureController]) *)

Module Gesture.

(** The strings [recognizeGesture] and the detection loop produce. *)
Inductive gesture := fist | palm | peace | unknown | none.

Definition gesture_eqb (a b : gesture) : bool :=
  match a, b with
  | fist, fist | palm, palm | peace, peace | unknown, unknown | none, none => true
  | _, _ => false
  end.

(** The controller's fields the recognition reads and writes;
    [pulseTimers] counts the [setTimeout] callbacks of [onGestureChange]
    that have not run yet. *)
Record gstate := mkG {
  isModelLoaded : bool;
  isRunning : bool;
  currentGesture : gesture;
  lastGesture : gesture;
  gestureHistory : list gesture;
  commands : Vis.gestureCommands;
  pulseTimers : nat
}.

Definition gestureHistorySize : nat := 5.

(** The state after [new GestureController()], before the model loads. *)
Definition init : gstate :=
  mkG false false none none [] (Vis.mkCommands false false 0%nat) 0%nat.

(** A landmark [[x, y, ...]] of the hand model, as its first two
    coordinates. *)
Definition landmark : Type := float * float.

(** [landmarks[k]] followed by a coordinate read: [undefined] throws. *)
Definition get_landmark (landmarks : list landmark) (k : nat) : js_result landmark :=
  match nth_error landmarks k with Some l => Ok l | None => TypeError end.

(** [drawHandLandmarks(hand)]: only whether it throws is observable in the
    controller's state; destructuring [landmarks[start]] throws when the
    landmark is missing. *)
Definition connections : list (nat * nat) :=
  ([(0, 1); (1, 2); (2, 3); (3, 4);
   (0, 5); (5, 6); (6, 7); (7, 8);
   (0, 9); (9, 10); (10, 11); (11, 12);
   (0, 13); (13, 14); (14, 15); (15, 16);
   (0, 17); (17, 18); (18, 19); (19, 20);
   (5, 9); (9, 13); (13, 17)])%nat.

Fixpoint draw_connections (landmarks : list landmark) (cs : list (nat * nat))
  : js_result unit :=
  match cs with
  | [] => Ok tt
  | (a, b) :: rest =>
      let! _ := get_landmark landmarks a in
      let! _ := get_landmark landmarks b in
      draw_connections landmarks rest
  end.

Definition drawHandLandmarks (landmarks : list landmark) : js_result unit :=
  draw_connections landmarks connections.

(** [fingerIndices.forEach(([tipIdx, pipIdx]) => ...)]: a finger is
    extended when its tip is above its PIP joint. *)
Fixpoint other_fingers (landmarks : list landmark) (idx : list (nat * nat))
  : js_result (list bool) :=
  match idx with
  | [] => Ok []
  | (tipIdx, pipIdx) :: rest =>
      let! tip := get_landmark landmarks tipIdx in
      let! pip := get_landmark landmarks pipIdx in
      let! fs := other_fingers landmarks rest in
      Ok ((snd tip <? snd pip) :: fs)
  end.

(** [getFingerExtensions(landmarks)]: [[thumb, index, middle, ring, pinky]]. *)
Definition getFingerExtensions (landmarks : list landmark) : js_result (list bool) :=
  let! thumbTip := get_landmark landmarks 4%nat in
  let! thumbBase := get_landmark landmarks 2%nat in
  let thumbExtended := gtf (abs (fst thumbTip - fst thumbBase)) 30 in
  let! fs := other_fingers landmarks [(8, 6); (12, 10); (16, 14); (20, 18)]%nat in
  Ok (thumbExtended :: fs).

(** [recognizeGesture(hand)] *)
Definition recognizeGesture (landmarks : list landmark) : js_result gesture :=
  let! fingers := getFingerExtensions landmarks in
  let extendedCount := List.length (filter (fun f => f) fingers) in
  if Nat.eqb extendedCount 0%nat then Ok fist
  else if Nat.eqb extendedCount 5%nat then Ok palm
  else if Nat.eqb extendedCount 2%nat && nth 1%nat fingers false && nth 2%nat fingers false
  then Ok peace
  else Ok unknown.

(** [gestureCounts]: an object whose keys, none of them integer-like, are
    listed by [Object.keys] in insertion order. *)
Fixpoint add_count (counts : list (gesture * nat)) (g : gesture)
  : list (gesture * nat) :=
  match counts with
  | [] => [(g, 1%nat)]
  | (k, n) :: rest =>
      if gesture_eqb k g then (k, S n) :: rest else (k, n) :: add_count rest g
  end.

Definition gestureCounts (h : list gesture) : list (gesture * nat) :=
  fold_left add_count h [].

(** [gestureCounts[k]] for a key of the object. *)
Fixpoint count_of (counts : list (gesture * nat)) (k : gesture) : nat :=
  match counts with
  | [] => 0%nat
  | (k', n) :: rest => if gesture_eqb k' k then n else count_of rest k
  end.

(** [Object.keys(gestureCounts).reduce((a, b) => counts[a] > counts[b] ? a : b)];
    [None] when there is no key ([reduce] of an empty array throws). *)
Definition mostCommon (counts : list (gesture * nat)) : option gesture :=
  match map fst counts with
  | [] => None
  | k :: ks =>
      Some (fold_left (fun a b => if (count_of counts b <? count_of counts a)%nat
                                  then a else b) ks k)
  end.

(** The history after [push] and the conditional [shift]. *)
Definition window (h : list gesture) : list gesture :=
  if (gestureHistorySize <? List.length h)%nat then tl h else h.

(** [onGestureChange(gesture)] *)
Definition onGestureChange (g : gesture) (s : gstate) : gstate :=
  let c := commands s in
  match g with
  | fist =>
      mkG (isModelLoaded s) (isRunning s) (currentGesture s) (lastGesture s)
        (gestureHistory s)
        (Vis.mkCommands (negb (Vis.freeze c)) (Vis.pulse c) (Vis.colorPalette c))
        (pulseTimers s)
  | palm =>
      mkG (isModelLoaded s) (isRunning s) (currentGesture s) (lastGesture s)
        (gestureHistory s) (Vis.mkCommands (Vis.freeze c) true (Vis.colorPalette c))
        (S (pulseTimers s))
  | peace =>
      mkG (isModelLoaded s) (isRunning s) (currentGesture s) (lastGesture s)
        (gestureHistory s)
        (Vis.mkCommands (Vis.freeze c) (Vis.pulse c) ((Vis.colorPalette c + 1) mod 3)%nat)
        (pulseTimers s)
  | _ => s
  end.

Definition set_history (h : list gesture) (s : gstate) : gstate :=
  mkG (isModelLoaded s) (isRunning s) (currentGesture s) (lastGesture s) h
    (commands s) (pulseTimers s).

(** [updateGesture(gesture)].  The [None] branch of [mostCommon] cannot
    happen (the history holds [g]); it stands for [reduce] throwing after
    the push, which the detection loop's [catch] swallows. *)
Definition updateGesture (g : gesture) (s : gstate) : gstate :=
  let s := set_history (window (gestureHistory s ++ [g])) s in
  match mostCommon (gestureCounts (gestureHistory s)) with
  | None => s
  | Some m =>
      if negb (gesture_eqb m (currentGesture s)) && negb (gesture_eqb m unknown)
         && negb (gesture_eqb m none)
      then onGestureChange m
             (mkG (isModelLoaded s) (isRunning s) m (currentGesture s)
                (gestureHistory s) (commands s) (pulseTimers s))
      else s
  end.

(** One run of the [detectGesture] callback of [startDetectionLoop], with
    [predictions] the hands [estimateHands] returned (each as its
    landmarks); an exception is caught and leaves the state as it was. *)
Definition detectGesture (predictions : list (list landmark)) (s : gstate) : gstate :=
  if negb (isRunning s) then s else
  match predictions with
  | [] => updateGesture none s
  | hand :: _ =>
      match drawHandLandmarks hand with
      | TypeError => s
      | Ok _ =>
          match recognizeGesture hand with
          | Ok g => updateGesture g s
          | TypeError => s
          end
      end
  end.

(** The [setTimeout] callback of a palm gesture, 500 ms later. *)
Definition pulseTimeout (s : gstate) : gstate :=
  match pulseTimers s with
  | O => s
  | S n =>
      mkG (isModelLoaded s) (isRunning s) (currentGesture s) (lastGesture s)
        (gestureHistory s)
        (Vis.mkCommands (Vis.freeze (commands s)) false (Vis.colorPalette (commands s)))
        n
  end.

(** [handpose.load()] resolving in [init()]. *)
Definition modelLoaded (s : gstate) : gstate :=
  mkG true (isRunning s) (currentGesture s) (lastGesture s) (gestureHistory s)
    (commands s) (pulseTimers s).

(** [start()], with [webcam] telling whether [getUserMedia] succeeds. *)
Definition start (webcam : bool) (s : gstate) : gstate :=
  if negb (isModelLoaded s) then s
  else if isRunning s then s
  else if webcam then
    mkG (isModelLoaded s) true (currentGesture s) (lastGesture s)
      (gestureHistory s) (commands s) (pulseTimers s)
  else s.

(** [stop()] *)
Definition stop (s : gstate) : gstate :=
  if negb (isRunning s) then s
  else mkG (isModelLoaded s) false none (lastGesture s) (gestureHistory s)
         (Vis.mkCommands false false (Vis.colorPalette (commands s)))
         (pulseTimers s).

(** The controller's events, in any order. *)
Inductive gop :=
| ModelLoaded
| Start (webcam : bool)
| Stop
| Detect (predictions : list (list landmark))
| PulseTimeout.

Definition run_gop (o : gop) (s : gstate) : gstate :=
  match o with
  | ModelLoaded => modelLoaded s
  | Start w => start w s
  | Stop => stop s
  | Detect p => detectGesture p s
  | PulseTimeout => pulseTimeout s
  end.

Definition grun (ops : list gop) (s : gstate) : gstate :=
  fold_left (fun s o => run_gop o s) ops s.

End Gesture.

(** ** Trail effect ([Visualizer.toggleTrailEffect]) *)

Module VisExtra.

(** The visualizer with the fields [vstate] leaves out: [trailEffect],
    [trailOpacity] and the alpha of the renderer's clear color. *)
Record viewer := mkViewer {
  vis : Vis.vstate;
  trailEffect : bool;
  trailOpacity : float;
  clearAlpha : float
}.

(** [toggleTrailEffect()] *)
Definition toggleTrailEffect (v : viewer) : viewer :=
  let te := negb (trailEffect v) in
  mkViewer (vis v) te (trailOpacity v) (if te then trailOpacity v else 1).

(** [toggleRadialSymmetry()] on the visualizer. *)
Definition toggleRadialSymmetry (v : viewer) : viewer :=
  mkViewer (Vis.toggleRadialSymmetry (vis v)) (trailEffect v) (trailOpacity v)
    (clearAlpha v).

End VisExtra.

(** ** Presets ([PresetManager]) *)

Module Presets.

Local Open Scope string_scope.

(** The settings of a preset that reach the visualizer ([name],
    [description] and [icon] only feed the UI). *)
Record preset := mkPreset {
  visualMode : string;
  trailEffect : bool;
  trailOpacity : float;
  radialSymmetry : bool;
  cameraRadius : float;
  particleCount : nat
}.

Definition presets : list (string * preset) :=
  [("cosmic", mkPreset "cosmic" true 0.15 false 150 2000);
   ("neural", mkPreset "neural" false 1.0 false 180 2000);
   ("pulse", mkPreset "pulse" true 0.2 false 140 2000);
   ("chaos", mkPreset "chaos" true 0.1 false 160 2000);
   ("minimal", mkPreset "minimal" false 1.0 false 200 2000)].

Definition keyMap : list (string * string) :=
  [("1", "cosmic"); ("2", "neural"); ("3", "pulse"); ("4", "chaos");
   ("5", "minimal"); ("t", "toggleTrail"); ("k", "toggleKaleidoscope");
   ("r", "randomize")].

(** [obj[key]] on an object literal: an own property, a member inherited
    from [Object.prototype] (a function, truthy), or [undefined]. *)
Inductive lookup (A : Type) := Own (a : A) | Inherited | Absent.
Arguments Own {A} a.
Arguments Inherited {A}.
Arguments Absent {A}.

Definition objectPrototypeKeys : list string :=
  ["constructor"; "__proto__"; "__defineGetter__"; "__defineSetter__";
   "__lookupGetter__"; "__lookupSetter__"; "hasOwnProperty"; "isPrototypeOf";
   "propertyIsEnumerable"; "toLocaleString"; "toString"; "valueOf"].

Definition get_prop {A : Type} (o : list (string * A)) (k : string) : lookup A :=
  match find (fun p => String.eqb (fst p) k) o with
  | Some (_, v) => Own v
  | None => if existsb (String.eqb k) objectPrototypeKeys then Inherited else Absent
  end.

(** The manager's state; [pendingFrame] is the [animate] closure queued
    with [requestAnimationFrame], with the [initialRadius] and
    [targetPreset] it captured. *)
Record manager := mkManager {
  visualizer : VisExtra.viewer;
  currentPreset : string;
  isTransitioning : bool;
  transitionStart : Z;
  pendingFrame : option (float * preset)
}.

Definition transitionDuration : float := 1000.

(** A millisecond count as a JS number. *)
Definition fZ (z : Z) : float :=
  if (z <? 0)%Z then - fnat (Z.to_nat (- z)) else fnat (Z.to_nat z).

(** [Math.min(elapsed / this.transitionDuration, 1)] *)
Definition progress (transitionStart now : Z) : float :=
  Math_min (fZ (now - transitionStart) / transitionDuration) 1.

Definition set_visualizer (v : VisExtra.viewer) (m : manager) : manager :=
  mkManager v (currentPreset m) (isTransitioning m) (transitionStart m) (pendingFrame m).

Definition set_pendingFrame (f : option (float * preset)) (m : manager) : manager :=
  mkManager (visualizer m) (currentPreset m) (isTransitioning m) (transitionStart m) f.

Section Browser.

(** [Math.pow] and [String.prototype.toLowerCase], as the browser has them. *)
Variable pow : float -> float -> float.
Variable toLowerCase : string -> string.

(** [applyPresetImmediate(preset)] *)
Definition applyPresetImmediate (p : preset) (v : VisExtra.viewer) : VisExtra.viewer :=
  let vs := Vis.setVisualMode (visualMode p) (VisExtra.vis v) in
  let vs := Vis.set_cameraRadius (cameraRadius p)
              (Vis.set_radialSymmetry (radialSymmetry p) vs) in
  VisExtra.mkViewer vs (trailEffect p) (trailOpacity p)
    (if trailEffect p then trailOpacity p else 1).

(** One call of the [animate] closure of [smoothTransition] at time [now]. *)
Definition animate (initialRadius : float) (targetPreset : preset) (now : Z)
    (m : manager) : manager :=
  let progress := progress (transitionStart m) now in
  let eased := if (progress <? 0.5)%float then (2 * progress * progress)%float
               else (1 - pow (-2 * progress + 2) 2 / 2)%float in
  let v := visualizer m in
  let v := VisExtra.mkViewer
             (Vis.set_cameraRadius
                (initialRadius + (cameraRadius targetPreset - initialRadius) * eased)%float
                (VisExtra.vis v))
             (VisExtra.trailEffect v) (VisExtra.trailOpacity v) (VisExtra.clearAlpha v) in
  if (progress <? 1)%float then
    mkManager v (currentPreset m) (isTransitioning m) (transitionStart m)
      (Some (initialRadius, targetPreset))
  else
    mkManager (applyPresetImmediate targetPreset v) (currentPreset m) false
      (transitionStart m) (pendingFrame m).

(** [smoothTransition(targetPreset)]: [t0] is the [Date.now()] stored as
    [transitionStart], [t1] the one read by the first [animate()]. *)
Definition smoothTransition (targetPreset : preset) (t0 t1 : Z) (m : manager) : manager :=
  let m := mkManager (visualizer m) (currentPreset m) true t0 (pendingFrame m) in
  let initialRadius := Vis.cameraRadius (VisExtra.vis (visualizer m)) in
  animate initialRadius targetPreset t1 m.

(** [applyPreset(presetName, animate)]; [None] when the name is a member
    of [Object.prototype] and no transition runs (the code then goes on
    with a function as the preset, which this model leaves out). *)
Definition applyPreset (presetName : string) (animate : bool) (t0 t1 : Z)
    (m : manager) : option manager :=
  match get_prop presets presetName with
  | Absent => Some m
  | Inherited => if isTransitioning m then Some m else None
  | Own p =>
      if isTransitioning m then Some m else
      let previousPreset := currentPreset m in
      let m := mkManager (visualizer m) presetName (isTransitioning m)
                 (transitionStart m) (pendingFrame m) in
      if animate && negb (String.eqb previousPreset presetName)
      then Some (smoothTransition p t0 t1 m)
      else Some (set_visualizer (applyPresetImmediate p (visualizer m)) m)
  end.

(** A [requestAnimationFrame] tick at time [now]: the queued [animate]
    closure, if any, runs once. *)
Definition frame (now : Z) (m : manager) : manager :=
  match pendingFrame m with
  | Some (ir, p) => animate ir p now (set_pendingFrame None m)
  | None => m
  end.

(** [randomizePreset()] with [r] the value of [Math.random()]; an index
    that is not a valid array index reads [undefined], which names no
    preset. *)
Definition randomizePreset (r : float) (t0 t1 : Z) (m : manager) : option manager :=
  let presetNames := map fst presets in
  let name :=
    match floor_index (r * fnat (List.length presetNames))%float with
    | Some k => match nth_error presetNames k with Some n => n | None => "undefined" end
    | None => "undefined"
    end in
  applyPreset name true t0 t1 m.

(** [handleKeyPress(event)] for a key [key] pressed on an element with tag
    [tagName]; [r] is the [Math.random()] a randomize would draw.  A key
    whose lookup is inherited gets a function as [action], which matches
    no branch. *)
Definition handleKeyPress (key tagName : string) (r : float) (t0 t1 : Z)
    (m : manager) : option manager :=
  let key := toLowerCase key in
  if String.eqb tagName "INPUT" || String.eqb tagName "TEXTAREA" then Some m else
  match get_prop keyMap key with
  | Own action =>
      if String.eqb action "toggleTrail" then
        Some (set_visualizer (VisExtra.toggleTrailEffect (visualizer m)) m)
      else if String.eqb action "toggleKaleidoscope" then
        Some (set_visualizer (VisExtra.toggleRadialSymmetry (visualizer m)) m)
      else if String.eqb action "randomize" then randomizePreset r t0 t1 m
      else match get_prop presets action with
           | Own _ => applyPreset action true t0 t1 m
           | _ => Some m
           end
  | _ => Some m
  end.

End Browser.

End Presets.

(** * Concrete inputs used by the examples below *)

Module Fixtures.

(** A running visualizer holding one particle at [p] (at rest) in [mode]. *)
Definition single (p : Vis.vec3) (mode : string) : Vis.vstate :=
  Vis.mkVState 1 [p] [Vis.vzero] [Vis.mkHSL 0.5 1 0.5] [1] 0 0 150 50
    (Vis.mkVec3 0 0 150) 0 0 0 false false 0 0 false Vis.vzero 0 mode [] 0 0.1 0
    true 0 0.

(** The frame [getFrequencyData] delivers for [spectrum] on a 44.1 kHz
    context at time 1000. *)
Definition frame_of (spectrum : list Byte.byte) : option Audio.audioData :=
  match Audio.getFrequencyData (Audio.initialized 44100) spectrum 1000 with
  | Ok (_, d) => Some d
  | TypeError => None
  end.

Definition silence : list Byte.byte := repeat Byte.x00 1024.

(** A stand-in for the browser's [Math]: constant trigonometry and
    [Math.random()] always 0.5. *)
Definition M0 : Vis.JSMath :=
  Vis.mkJSMath (fun _ => 0) (fun _ => 1) (fun _ _ => 0) (fun _ => 0) (fun _ => 0.5).

End Fixtures.

(** * Observations used by the properties *)

Module Observations.
Import Vis.

(** Particle [j] has the same position, velocity, color and size. *)
Definition untouched (j : nat) (s t : vstate) : Prop :=
  nth_error (particlePositions t) j = nth_error (particlePositions s) j /\
  nth_error (particleVelocities t) j = nth_error (particleVelocities s) j /\
  nth_error (particleColors t) j = nth_error (particleColors s) j /\
  nth_error (sizes t) j = nth_error (sizes s) j.

(** [t] has the same particle arrays as [s]. *)
Definition particles_same (s t : vstate) : Prop :=
  particleCount t = particleCount s /\
  particlePositions t = particlePositions s /\
  particleVelocities t = particleVelocities s /\
  particleColors t = particleColors s /\
  sizes t = sizes s.

(** Color and size [updateParticleColors] gives particle [i]. *)
Definition frozen_color (pal : palette) (fv average : float) : hsl :=
  mkHSL (hueBase pal + fv * hueRange pal - average * 0.2)
        (saturation pal + fv * 0.1) (0.4 + fv * 0.4).

Definition frozen_size (fv : float) (s0 : vstate) : float :=
  fround (1 + fv * 3 + (if pulseEffect s0 then pulseIntensity s0 * 2 else 0)).

Definition colors_inv (fd : list Byte.byte) (average : float) (s0 : vstate)
    (k : nat) (t : vstate) : Prop :=
  particles_same s0 (set_sizes (sizes s0) (set_particleColors (particleColors s0) t)) /\
  currentPalette t = currentPalette s0 /\ pulseEffect t = pulseEffect s0 /\
  pulseIntensity t = pulseIntensity s0 /\
  (forall j, (j < k)%nat ->
     let fv := freqValueAt fd (freqIndex j (particleCount s0) (List.length fd)) in
     exists pal, palette_of (currentPalette s0) = Some pal /\
       nth_error (particleColors t) j = Some (frozen_color pal fv average) /\
       nth_error (sizes t) j =
         option_map (fun _ => frozen_size fv s0) (nth_error (sizes s0) j)) /\
  (forall j, (k <= j)%nat ->
     nth_error (particleColors t) j = nth_error (particleColors s0) j /\
     nth_error (sizes t) j = nth_error (sizes s0) j).

(** [particleCount] is [N] and the four per-particle arrays hold [N]
    entries. *)
Definition shape (N : nat) (s : vstate) : Prop :=
  particleCount s = N /\ List.length (particlePositions s) = N /\
  List.length (particleVelocities s) = N /\ List.length (particleColors s) = N /\
  List.length (sizes s) = N.

(** What the decay chain has reached: [pulseEffect], [pulseIntensity]
    and whether a [decayPulse] is queued for the next frame. *)
Definition view (t : Vis.vstate) : bool * float * bool :=
  (Vis.pulseEffect t, Vis.pulseIntensity t, Nat.eqb (Vis.pendingDecays t) 1).

Definition fdecay_run (n : nat) (st : bool * float) : bool * float * bool :=
  Vis.decay_run PrimFloat.mul gtf 0.85 0.1 0 n st.

End Observations.

Module RealDecay.
Import Reals.

(** [x > y] on real numbers. *)
Definition Rgtb (x y : R) : bool := if Rlt_dec y x then true else false.

(** The decay chain in exact arithmetic, from intensity [x0]. *)
Definition rdecay_run (n : nat) (x0 : R) : bool * R * bool :=
  Vis.decay_run Rmult Rgtb 0.85%R 0.1%R 0%R n (true, x0).

End RealDecay.

Module GestureObs.
Import Gesture.

(** Occurrences of [k] in a history. *)
Definition gcount (h : list gesture) (k : gesture) : nat :=
  List.length (filter (fun x => gesture_eqb x k) h).

(** A hand of 21 landmarks: wrist and thumb base at the origin, the thumb
    tip [thumbX] to the side, the four fingertips at height [tipY] and
    every other joint at height 5. *)
Definition hand (thumbX tipY : float) : list landmark :=
  map (fun k => if Nat.eqb k 4 then (thumbX, 0)
                else if Nat.eqb k 2 then (0, 0)
                else if existsb (Nat.eqb k) [8; 12; 16; 20]%nat then (0, tipY)
                else (0, 5)) (seq 0 21).

Definition palmHand : list landmark := hand 40 0.
Definition fistHand : list landmark := hand 0 10.

End GestureObs.

Module PresetObs.
Import Presets.

(** A stand-in for [Math.pow] and the identity as [toLowerCase] (the
    keys used below are already lower case). *)
Definition wpow (x _ : float) : float := x * x.
Definition wlower (k : string) : string := k.

Definition pulseP : preset := mkPreset "pulse" true 0.2 false 140 2000.

Definition viewer0 : VisExtra.viewer :=
  VisExtra.mkViewer (Fixtures.single (Vis.mkVec3 3 4 0) "cosmic"%string) true 0.15 0.15.

(** An idle manager on the cosmic preset, and one 0 ms into a transition
    to pulse from radius 150. *)
Definition wm0 : manager := mkManager viewer0 "cosmic"%string false 0 None.
Definition wmt : manager := mkManager viewer0 "pulse"%string true 0 (Some (150, pulseP)).

End PresetObs.

(** * Properties *)

(** ** Beat detector *)

Lemma detectBeat_shift (l d now : Z) (c a : float) :
  Beat.detectBeat (Beat.mkState (l + d) c) a (now + d) =
  let r := Beat.detectBeat (Beat.mkState l c) a now in
  (fst r, Beat.mkState (Beat.lastBeatTime (snd r) + d) (Beat.currentBeat (snd r))).
Proof.
  unfold Beat.detectBeat; simpl.
  replace (now + d - (l + d))%Z with (now - l)%Z by lia.
  destruct (Beat.beatMinInterval <? now - l)%Z;
    [destruct (gtf a (c * Beat.beatThreshold)) |]; reflexivity.
Qed.

Lemma run_const_shift (a : float) (dt : Z) (n : nat) :
  forall now l d c,
  Beat.run_const a dt n (now + d) (Beat.mkState (l + d) c) =
  let r := Beat.run_const a dt n now (Beat.mkState l c) in
  Beat.mkState (Beat.lastBeatTime r + d) (Beat.currentBeat r).
Proof.
  induction n as [|n IH]; intros now l d c; simpl.
  - reflexivity.
  - rewrite detectBeat_shift; simpl.
    replace (now + d + dt)%Z with ((now + dt) + d)%Z by lia.
    destruct (Beat.detectBeat (Beat.mkState l c) a now) as [b [l' c']].
    simpl. apply IH.
Qed.

Lemma run_const_add (a : float) (dt : Z) (m : nat) :
  forall n now s,
  Beat.run_const a dt (m + n) now s =
  Beat.run_const a dt n (now + Z.of_nat m * dt) (Beat.run_const a dt m now s).
Proof.
  induction m as [|m IH]; intros n now s.
  - simpl. f_equal. ring.
  - change (S m + n)%nat with (S (m + n)).
    cbn [Beat.run_const]. rewrite IH. f_equal. rewrite Nat2Z.inj_succ. ring.
Qed.

Lemma run_const_period13 :
  Beat.run_const 100 16 13 1016 (Beat.mkState 1000 98) = Beat.mkState 1208 98.
Proof. vm_compute. reflexivity. Qed.

(** With a constant average of 100 and calls 16 ms apart, the state right
    after every beat is the same: the detector cycles with period 13. *)
Lemma run_const_periodic (k : nat) :
  Beat.run_const 100 16 (1 + 13 * k) 1000 Beat.init =
  Beat.mkState (1000 + 208 * Z.of_nat k) 98.
Proof.
  induction k as [|k IH].
  - vm_compute. reflexivity.
  - replace (1 + 13 * S k)%nat with ((1 + 13 * k) + 13)%nat by lia.
    rewrite run_const_add, IH.
    replace (1000 + Z.of_nat (1 + 13 * k) * 16)%Z with (1016 + 208 * Z.of_nat k)%Z
      by lia.
    rewrite run_const_shift, run_const_period13.
    cbn [Beat.lastBeatTime Beat.currentBeat]. rewrite Nat2Z.inj_succ. f_equal. lia.
Qed.

Lemma run_calls_lastBeat_mono (calls : list (float * Z)) :
  forall s, (Beat.lastBeatTime s <= Beat.lastBeatTime (Beat.run_calls s calls))%Z.
Proof.
  induction calls as [|[a now] rest IH]; intro s; simpl; [lia|].
  eapply Z.le_trans; [|apply IH].
  unfold Beat.detectBeat.
  destruct (Beat.beatMinInterval <? now - Beat.lastBeatTime s)%Z eqn:E;
    [destruct (gtf a (Beat.currentBeat s * Beat.beatThreshold)) |]; simpl;
    try lia.
  apply Z.ltb_lt in E. unfold Beat.beatMinInterval in E. lia.
Qed.

Lemma detectBeat_true (s : Beat.state) (a : float) (now : Z) :
  fst (Beat.detectBeat s a now) = true ->
  (Beat.beatMinInterval < now - Beat.lastBeatTime s)%Z /\
  gtf a (Beat.currentBeat s * Beat.beatThreshold) = true /\
  Beat.lastBeatTime (snd (Beat.detectBeat s a now)) = now.
Proof.
  unfold Beat.detectBeat.
  destruct (Beat.beatMinInterval <? now - Beat.lastBeatTime s)%Z eqn:E;
    [destruct (gtf a (Beat.currentBeat s * Beat.beatThreshold)) eqn:G |];
    simpl; try discriminate.
  intros _. apply Z.ltb_lt in E. auto.
Qed.

(** C2 (counterexample): with 200 ms elapsed exactly and an average well
    above the threshold, no beat is reported, although "at least
    200 ms" holds. *)
Lemma beat_at_least_interval_fails :
  ~ (forall (s : Beat.state) (a : float) (now : Z),
       fst (Beat.detectBeat s a now) = true <->
       ((Beat.beatMinInterval <= now - Beat.lastBeatTime s)%Z /\
        gtf a (Beat.currentBeat s * Beat.beatThreshold) = true)).
Proof.
  intro H. destruct (H Beat.init 100 200%Z) as [_ H1].
  assert (Hb : fst (Beat.detectBeat Beat.init 100 200%Z) = false)
    by (vm_compute; reflexivity).
  rewrite Hb in H1. discriminate H1.
  split; [ vm_compute; discriminate | vm_compute; reflexivity ].
Qed.

(** C2 (amended): a beat is reported exactly when MORE than 200 ms have
    elapsed since the last beat and the average exceeds [currentBeat * 1.3];
    a beat stores [now] and snaps the level to the average; then, on every
    call, the level is multiplied by 0.98 and floored at [average * 0.5].
    [getFrequencyData] feeds the detector the raw mean of the byte
    magnitudes (0-255), and reports the normalised mean separately. *)
Theorem detectBeat_spec :
  (forall (s : Beat.state) (a : float) (now : Z),
     let '(b, s') := Beat.detectBeat s a now in
     (b = true <->
      ((Beat.beatMinInterval < now - Beat.lastBeatTime s)%Z /\
       gtf a (Beat.currentBeat s * Beat.beatThreshold) = true)) /\
     Beat.lastBeatTime s' = (if b then now else Beat.lastBeatTime s) /\
     Beat.currentBeat s' =
       Math_max ((if b then a else Beat.currentBeat s) * Beat.beatDecayRate)
                (a * 0.5)) /\
  (forall (e : Audio.engine) (spectrum : list Byte.byte) (now : Z) arr0,
     Audio.analyser e <> None -> Audio.dataArray e = Some arr0 ->
     let arr := Audio.getByteFrequencyData arr0 spectrum in
     let raw := fold_left (fun sum v => sum + fbyte v) arr 0
                / fnat (Audio.bufferLength e) in
     forall e' d, Audio.getFrequencyData e spectrum now = Ok (e', d) ->
     (Audio.beatFlag d, Audio.beat e') = Beat.detectBeat (Audio.beat e) raw now /\
     Audio.average d = raw / 255).
Proof.
  split.
  - intros [l c] a now. unfold Beat.detectBeat; simpl.
    destruct (Beat.beatMinInterval <? now - l)%Z eqn:E;
      [destruct (gtf a (c * Beat.beatThreshold)) eqn:G |]; simpl;
      repeat split; try reflexivity; try discriminate; try tauto;
      try (apply Z.ltb_lt; assumption);
      try (intros [H1 H2]; congruence);
      try (intros [H1 H2]; apply Z.ltb_lt in H1; congruence).
  - intros e spectrum now arr0 Ha Hd arr raw e' d Hr.
    unfold Audio.getFrequencyData in Hr.
    destruct (Audio.analyser e) as [u|]; [|congruence].
    rewrite Hd in Hr. fold arr raw in Hr.
    destruct (Beat.detectBeat (Audio.beat e) raw now) as [b bs] eqn:Hb.
    unfold Audio.extractFrequencyBands in Hr; simpl in Hr.
    destruct (Audio.audioContext e); [|discriminate].
    injection Hr as <- <-. simpl. split; reflexivity.
Qed.

Lemma detectBeat_spec_witness :
  (let '(b, s') := Beat.detectBeat Beat.init 100 201 in
   (b = true <-> ((Beat.beatMinInterval < 201 - 0)%Z /\
                  gtf 100 (0 * Beat.beatThreshold) = true)) /\
   Beat.lastBeatTime s' = (if b then 201%Z else 0%Z) /\
   Beat.currentBeat s' = Math_max ((if b then 100 else 0) * Beat.beatDecayRate)
                                  (100 * 0.5)) /\
  match Audio.getFrequencyData (Audio.initialized 44100) (repeat Byte.xff 1024) 1000
  with
  | Ok (e', d) =>
      (Audio.beatFlag d, Audio.beat e') =
        Beat.detectBeat Beat.init
          (fold_left (fun sum v => sum + fbyte v)
             (Audio.getByteFrequencyData (repeat Byte.x00 1024) (repeat Byte.xff 1024))
             0 / fnat 1024) 1000 /\
      Audio.average d =
        fold_left (fun sum v => sum + fbyte v)
          (Audio.getByteFrequencyData (repeat Byte.x00 1024) (repeat Byte.xff 1024))
          0 / fnat 1024 / 255
  | TypeError => False
  end.
Proof.
  destruct detectBeat_spec as [H1 H2]. split.
  - exact (H1 Beat.init 100 201%Z).
  - pose proof (H2 (Audio.initialized 44100) (repeat Byte.xff 1024) 1000%Z
                  (repeat Byte.x00 1024) ltac:(discriminate) eq_refl) as Hx.
    destruct (Audio.getFrequencyData (Audio.initialized 44100)
                (repeat Byte.xff 1024) 1000) as [[e' d]|] eqn:E.
    + exact (Hx e' d eq_refl).
    + vm_compute in E. discriminate E.
Defined.

(** C3 (counterexample): with a constant average of 100 and calls every
    16 ms from the initial state, [currentBeat] never settles within 1 of
    100: it is back at 98 right after every beat (every 13 calls). *)
Lemma beat_level_does_not_converge :
  ~ (forall (a eps : float) (dt t0 : Z),
       (0 <? eps) = true -> (0 < dt)%Z ->
       exists N : nat, forall n : nat, (N <= n)%nat ->
         (abs (Beat.currentBeat (Beat.run_const a dt n t0 Beat.init) - a) <? eps)
         = true).
Proof.
  intro H.
  destruct (H 100 1 16%Z 1000%Z eq_refl ltac:(lia)) as [N HN].
  specialize (HN (1 + 13 * N)%nat ltac:(lia)).
  rewrite run_const_periodic in HN. vm_compute in HN. discriminate HN.
Qed.

(** C3 (amended, the part that holds): whatever the averages and the
    clock readings, two calls that both report a beat are more than
    200 ms apart. *)
Theorem beats_more_than_interval_apart :
  forall (s : Beat.state) (pre : list (float * Z)) (a1 : float) (t1 : Z)
         (mid : list (float * Z)) (a2 : float) (t2 : Z),
  let s1 := Beat.run_calls s pre in
  fst (Beat.detectBeat s1 a1 t1) = true ->
  let s2 := Beat.run_calls (snd (Beat.detectBeat s1 a1 t1)) mid in
  fst (Beat.detectBeat s2 a2 t2) = true ->
  (Beat.beatMinInterval < t2 - t1)%Z.
Proof.
  intros s pre a1 t1 mid a2 t2 s1 H1 s2 H2.
  destruct (detectBeat_true _ _ _ H1) as [_ [_ L1]].
  destruct (detectBeat_true _ _ _ H2) as [I2 _].
  pose proof (run_calls_lastBeat_mono mid (snd (Beat.detectBeat s1 a1 t1))) as M.
  fold s2 in M. rewrite L1 in M. lia.
Qed.

Lemma beats_more_than_interval_apart_witness :
  (Beat.beatMinInterval < 1300 - 1000)%Z.
Proof.
  apply (beats_more_than_interval_apart Beat.init [] 100 1000%Z [(50, 1100%Z)] 200 1300%Z);
    vm_compute; reflexivity.
Defined.

(** ** Missing audio data *)

(** C9: without an analyser or a data array, [getFrequencyData] returns,
    without raising and without touching the engine, the all-zero result:
    every band 0, average 0, beatIntensity 0, beat false. *)
Theorem getFrequencyData_uninitialized :
  forall (e : Audio.engine) (spectrum : list Byte.byte) (now : Z),
  (Audio.analyser e = None \/ Audio.dataArray e = None) ->
  Audio.getFrequencyData e spectrum now = Ok (e, Audio.zeroData) /\
  Audio.average Audio.zeroData = 0 /\ Audio.beatFlag Audio.zeroData = false /\
  Audio.beatIntensity Audio.zeroData = 0 /\
  Audio.frequencyData Audio.zeroData = repeat Byte.x00 1024 /\
  (forall name, In name ["sub"; "bass"; "low"; "mid"; "high"; "treble"]%string ->
     Audio.band (Audio.bands Audio.zeroData) name = 0).
Proof.
  intros e spectrum now H.
  split.
  - unfold Audio.getFrequencyData.
    destruct H as [H | H]; rewrite H; [reflexivity|].
    destruct (Audio.analyser e); reflexivity.
  - repeat split; try reflexivity.
    intros name Hin. simpl in Hin.
    repeat (destruct Hin as [<- | Hin]; [reflexivity |]). destruct Hin.
Qed.

Lemma getFrequencyData_uninitialized_witness :
  let e := Audio.mkEngine None None None 0 Beat.init Audio.defaultBands in
  Audio.getFrequencyData e [] 5 = Ok (e, Audio.zeroData).
Proof.
  intro e. apply (getFrequencyData_uninitialized e [] 5%Z). left. reflexivity.
Defined.

(** ** Band energies *)

(** C4 (code_bug): on a 192 kHz context the sub band (0-60 Hz) maps to the
    empty bin range [0, 0), and [extractFrequencyBands] divides 0 by 0:
    even for the all-255 spectrum the sub energy is NaN, not 1. *)
Theorem extract_bands_192k_sub_nan :
  match Audio.extractFrequencyBands (Audio.initialized 192000) (repeat Byte.xff 1024)
  with
  | Ok bands => is_nan (Audio.band bands "sub"%string) = true /\
                Audio.band bands "bass"%string = 1
  | TypeError => False
  end.
Proof. vm_compute. split; reflexivity. Qed.

(** ** Distance guard *)

(** C1 (code_bug): a particle at the origin in neural mode or in the
    generic fallback ([updateParticles], which normalises by the raw
    distance, unlike Cosmic and Pulse that use [Math.max(distance, 1)])
    gets NaN velocity and position after one tick, even in silence. *)
Theorem origin_particle_nan :
  forall (M : Vis.JSMath) (mode : string),
  mode = "neural"%string \/ mode = "spectrum"%string ->
  match Vis.update M (Fixtures.frame_of Fixtures.silence) None
          (Fixtures.single Vis.vzero mode) with
  | Ok s =>
      let v := nth 0 (Vis.particleVelocities s) Vis.vzero in
      let p := nth 0 (Vis.particlePositions s) Vis.vzero in
      is_nan (Vis.vx v) = true /\ is_nan (Vis.vy v) = true /\
      is_nan (Vis.vz v) = true /\ is_nan (Vis.vx p) = true /\
      is_nan (Vis.vy p) = true /\ is_nan (Vis.vz p) = true
  | TypeError => False
  end.
Proof.
  intros M mode [-> | ->]; vm_compute; repeat split.
Qed.

Lemma origin_particle_nan_witness :
  match Vis.update Fixtures.M0 (Fixtures.frame_of Fixtures.silence) None
          (Fixtures.single Vis.vzero "neural"%string) with
  | Ok s => is_nan (Vis.vx (nth 0 (Vis.particleVelocities s) Vis.vzero)) = true
  | TypeError => False
  end.
Proof.
  pose proof (origin_particle_nan Fixtures.M0 "neural"%string (or_introl eq_refl)) as H.
  destruct (Vis.update Fixtures.M0 _ None _); [apply H | exact H].
Defined.

(** ** Loop infrastructure *)

Module Loops.
Import Vis.

Lemma length_set_nth {A : Type} (l : list A) (i : nat) (x : A) :
  List.length (set_nth l i x) = List.length l.
Proof.
  revert i; induction l as [|y t IH]; intros [|i]; simpl; try reflexivity.
  now rewrite IH.
Qed.

Lemma nth_error_set_nth_other {A : Type} (l : list A) (i j : nat) (x : A) :
  i <> j -> nth_error (set_nth l i x) j = nth_error l j.
Proof.
  revert i j; induction l as [|y t IH]; intros [|i] [|j] H; simpl;
    try reflexivity; try congruence.
  apply IH. congruence.
Qed.

Lemma nth_error_set_nth_same {A : Type} (l : list A) (i : nat) (x : A) :
  nth_error (set_nth l i x) i = option_map (fun _ => x) (nth_error l i).
Proof.
  revert i; induction l as [|y t IH]; intros [|i]; simpl; try reflexivity.
  apply IH.
Qed.

Lemma nth_error_set_nth_in {A : Type} (l : list A) (i : nat) (x y : A) :
  nth_error l i = Some y -> nth_error (set_nth l i x) i = Some x.
Proof. intro H. now rewrite nth_error_set_nth_same, H. Qed.

(** Induction over the iterations of [for_range]. *)
Lemma for_range_ind (Inv : nat -> vstate -> Prop)
    (step : nat -> vstate -> js_result vstate) :
  (forall i s t, Inv i s -> step i s = Ok t -> Inv (S i) t) ->
  forall n i s t, Inv i s -> for_range n i step s = Ok t -> Inv (i + n)%nat t.
Proof.
  intros Hstep n. induction n as [|n IH]; intros i s t Hi Hr; simpl in Hr.
  - injection Hr as <-. now rewrite Nat.add_0_r.
  - destruct (step i s) as [s'|] eqn:E; [|discriminate].
    replace (i + S n)%nat with (S i + n)%nat by lia.
    eapply IH; [eapply Hstep; eassumption | exact Hr].
Qed.

Lemma particle_step_inv body i s t :
  particle_step body i s = Ok t ->
  exists p v c o,
    nth_error (particlePositions s) i = Some p /\
    nth_error (particleVelocities s) i = Some v /\
    nth_error (particleColors s) i = Some c /\
    body i p v c (rngCalls s) = Ok o /\ t = write_particle i o s.
Proof.
  unfold particle_step.
  destruct (nth_error (particlePositions s) i) as [p|]; [|discriminate].
  destruct (nth_error (particleVelocities s) i) as [v|]; [|discriminate].
  destruct (nth_error (particleColors s) i) as [c|]; [|discriminate].
  destruct (body i p v c (rngCalls s)) as [o|] eqn:E; simpl; [|discriminate].
  intros H. injection H as <-. now exists p, v, c, o.
Qed.

End Loops.

(** ** Minimal mode *)

Module MinimalFacts.
Import Vis Loops Observations.


Lemma untouched_refl j s : untouched j s s.
Proof. repeat split. Qed.

Lemma untouched_trans j s t u :
  untouched j s t -> untouched j t u -> untouched j s u.
Proof. unfold untouched. intuition congruence. Qed.

Lemma minimal_step_other s0 pal ppb bar fv bh p s t j :
  minimal_step s0 pal ppb bar fv bh p s = Ok t ->
  j <> (bar * ppb + p)%nat -> untouched j s t.
Proof.
  unfold minimal_step.
  destruct (nth_error (particlePositions s) (bar * ppb + p)); [|discriminate].
  destruct (nth_error (particleColors s) (bar * ppb + p)); [|discriminate].
  destruct pal; simpl; [|discriminate].
  intros H Hj. injection H as <-. unfold untouched; simpl.
  rewrite !nth_error_set_nth_other by congruence. repeat split.
Qed.

Lemma minimal_inner_above s0 pal ppb bar fv bh n :
  forall p s t, minimal_inner s0 pal ppb bar fv bh n p s = Ok t ->
  (p + n <= ppb)%nat ->
  forall j, (S bar * ppb <= j)%nat -> untouched j s t.
Proof.
  induction n as [|n IH]; intros p s t H Hp j Hj; simpl in H.
  - injection H as <-. apply untouched_refl.
  - destruct (particleCount s0 <=? bar * ppb + p)%nat.
    + injection H as <-. apply untouched_refl.
    + destruct (minimal_step s0 pal ppb bar fv bh p s) as [s1|] eqn:E;
        [|discriminate].
      apply untouched_trans with s1.
      * eapply minimal_step_other; [exact E | nia].
      * eapply IH; [exact H | lia | exact Hj].
Qed.

Lemma minimal_bars_above s0 pal ppb fd n :
  forall bar s t, minimal_bars fd s0 pal ppb n bar s = Ok t ->
  (bar + n <= barCount)%nat ->
  forall j, (barCount * ppb <= j)%nat -> untouched j s t.
Proof.
  induction n as [|n IH]; intros bar s t H Hb j Hj; simpl in H.
  - injection H as <-. apply untouched_refl.
  - match type of H with
    | js_bind (minimal_inner ?a ?b ?c ?d ?e ?f ?g ?h ?i) _ = _ =>
        destruct (minimal_inner a b c d e f g h i) as [s1|] eqn:E
    end; [|discriminate].
    apply untouched_trans with s1.
    + eapply minimal_inner_above; [exact E | lia |].
      unfold barCount in *. nia.
    + eapply IH; [exact H | lia | exact Hj].
Qed.

End MinimalFacts.

(** C10: one Minimal tick leaves every particle of index at least
    [64 * floor(N / 64)] (for N = 2000: indices 1984 to 1999) exactly as
    it was: position, velocity, color and size. *)
Theorem minimal_leaves_tail :
  (Vis.barCount * Vis.particlesPerBar Vis.defaultParticleCount = 1984)%nat /\
  forall (fd : list Byte.byte) (s t : Vis.vstate),
  Vis.updateParticlesMinimal fd s = Ok t ->
  forall j, (Vis.barCount * Vis.particlesPerBar (Vis.particleCount s) <= j)%nat ->
  nth_error (Vis.particlePositions t) j = nth_error (Vis.particlePositions s) j /\
  nth_error (Vis.particleVelocities t) j = nth_error (Vis.particleVelocities s) j /\
  nth_error (Vis.particleColors t) j = nth_error (Vis.particleColors s) j /\
  nth_error (Vis.sizes t) j = nth_error (Vis.sizes s) j.
Proof.
  split; [vm_compute; reflexivity|].
  intros fd s t H j Hj.
  exact (MinimalFacts.minimal_bars_above s _ _ fd Vis.barCount 0 s t H
           (le_n _) j Hj).
Qed.

Lemma minimal_leaves_tail_witness :
  match Vis.updateParticlesMinimal (repeat Byte.x80 1024)
          (Vis.construct Fixtures.M0 130) with
  | Ok t => nth_error (Vis.particlePositions t) 129 =
            nth_error (Vis.particlePositions (Vis.construct Fixtures.M0 130)) 129
  | TypeError => False
  end.
Proof.
  destruct minimal_leaves_tail as [_ H].
  destruct (Vis.updateParticlesMinimal (repeat Byte.x80 1024)
              (Vis.construct Fixtures.M0 130)) as [t|] eqn:E.
  - apply (H _ _ _ E 129%nat). apply Nat.leb_le. vm_compute. reflexivity.
  - vm_compute in E. discriminate E.
Defined.

(** ** A frozen frame *)

Module FrameFacts.
Import Vis Loops Observations.


Lemma particles_same_refl s : particles_same s s.
Proof. repeat split. Qed.

Lemma particles_same_trans s t u :
  particles_same s t -> particles_same t u -> particles_same s u.
Proof. unfold particles_same. intuition congruence. Qed.

Lemma decayPulse_fields s :
  particles_same s (decayPulse s) /\ isFrozen (decayPulse s) = isFrozen s /\
  currentPalette (decayPulse s) = currentPalette s.
Proof.
  unfold decayPulse, decay_step; cbn.
  destruct (0.1 <? pulseIntensity s * 0.85); cbn; repeat split.
Qed.

Lemma triggerPulse_fields I s :
  particles_same s (triggerPulse I s) /\ isFrozen (triggerPulse I s) = isFrozen s.
Proof.
  unfold triggerPulse.
  destruct (decayPulse_fields
              (set_pulseIntensity (I + 1.5) (set_pulseEffect true s)))
    as [H [H' _]].
  split; [exact H | exact H'].
Qed.

Lemma processGestureCommands_fields c beat bi s :
  particles_same s (processGestureCommands c beat bi s) /\
  isFrozen (processGestureCommands c beat bi s) = freeze c.
Proof.
  unfold processGestureCommands.
  set (s1 := set_isFrozen (freeze c) s).
  assert (H1 : particles_same s s1 /\ isFrozen s1 = freeze c)
    by (repeat split).
  assert (H2 : let s2 := if pulse c && negb (pulseEffect s1)
                          then triggerPulse bi s1 else s1 in
               particles_same s s2 /\ isFrozen s2 = freeze c).
  { destruct (pulse c && negb (pulseEffect s1)); [|exact H1].
    destruct (triggerPulse_fields bi s1) as [A B].
    split; [eapply particles_same_trans; [apply H1|exact A] | rewrite B; apply H1]. }
  simpl in H2. destruct (Nat.eqb _ _); [exact H2|].
  destruct H2 as [A B]. split; [exact A | exact B].
Qed.

Lemma updateCameraShake_fields M bass beat s :
  particles_same s (updateCameraShake M bass beat s) /\
  isFrozen (updateCameraShake M bass beat s) = isFrozen s /\
  visualMode (updateCameraShake M bass beat s) = visualMode s.
Proof.
  unfold updateCameraShake.
  destruct (gtf ((if beat then bass * 10 else cameraShakeIntensity s) * 0.9) 0.1);
    repeat split.
Qed.

(** [prepare] leaves the particle arrays alone; [isFrozen] is then the
    gesture's [freeze] flag, or the previous value without gestures. *)
Lemma prepare_fields M a cmds s :
  particles_same s (prepare M a cmds s) /\
  isFrozen (prepare M a cmds s) =
    match cmds with Some c => freeze c | None => isFrozen s end.
Proof.
  unfold prepare; cbv zeta.
  match goal with |- context [set_trebleIntensity ?x ?y] =>
    set (s1 := set_trebleIntensity x y) end.
  assert (H1 : particles_same s s1 /\ isFrozen s1 = isFrozen s) by (repeat split).
  match goal with |- context [match cmds with Some c => @?f c | None => s1 end] =>
    set (s2 := match cmds with Some c => f c | None => s1 end) end.
  assert (H2 : particles_same s s2 /\
               isFrozen s2 = match cmds with Some c => freeze c | None => isFrozen s end).
  { subst s2; destruct cmds as [c|]; [|exact H1].
    destruct (processGestureCommands_fields c (Audio.beatFlag a)
                (Audio.beatIntensity a) s1) as [A B].
    split; [eapply particles_same_trans; [apply H1|exact A] | exact B]. }
  destruct (updateCameraShake_fields M (Audio.band (Audio.bands a) "bass"%string)
              (Audio.beatFlag a) s2) as [A [B _]].
  destruct H2 as [H2 H2'].
  split.
  - eapply particles_same_trans; [exact H2|]. exact A.
  - cbn. rewrite B. exact H2'.
Qed.

End FrameFacts.

Module FrozenFacts.
Import Vis Loops FrameFacts Observations.


Lemma colors_step_inv fd average s0 i t t' :
  colors_inv fd average s0 i t -> colors_step fd average s0 i t = Ok t' ->
  colors_inv fd average s0 (S i) t'.
Proof.
  intros [Hsame [Hpal [Hpe [Hpi [Hlo Hhi]]]]] Hs.
  unfold colors_step in Hs.
  destruct (nth_error (particleColors t) i) as [c0|] eqn:Ec; [|discriminate].
  destruct (palette_of (currentPalette s0)) as [pal|] eqn:Ep; [|discriminate].
  simpl in Hs. injection Hs as <-.
  destruct (Hhi i (le_n _)) as [Hci Hsi].
  split; [exact Hsame|]. split; [exact Hpal|]. split; [exact Hpe|].
  split; [exact Hpi|]. cbn [particleColors sizes set_sizes set_particleColors].
  split.
  - intros j Hj. destruct (Nat.eq_dec j i) as [->|Hne].
    + exists pal. split; [exact Ep|]. split.
      * now apply (nth_error_set_nth_in _ _ _ c0).
      * rewrite nth_error_set_nth_same, Hsi. reflexivity.
    + destruct (Hlo j ltac:(lia)) as [pal' [Hp' [Hc' Hs']]].
      exists pal'. rewrite !nth_error_set_nth_other by congruence.
      split; [congruence|]. split; assumption.
  - intros j Hj. rewrite !nth_error_set_nth_other by lia. apply Hhi. lia.
Qed.

Lemma updateParticleColors_spec fd average s t :
  updateParticleColors fd average s = Ok t ->
  colors_inv fd average s (particleCount s) t.
Proof.
  intro H.
  apply (for_range_ind (colors_inv fd average s) (colors_step fd average s))
    with (n := particleCount s) (i := 0%nat) (s := s); [| |exact H].
  - intros i u u'. apply colors_step_inv.
  - repeat split; intros j Hj; lia.
Qed.

End FrozenFacts.

(** ** C5: frozen ticks *)

(** C5. While frozen (the tick's gesture commands carry [freeze = true], or
    no commands are given and the visualizer is already frozen), a running
    [update] tick leaves every particle position and velocity unchanged,
    and recomputes particle [i]'s color and size from the current
    spectrum, average and palette by the formula of [updateParticleColors]:
    the bin [floor(i / N * len)], hue [hueBase + f * hueRange - average *
    0.2], saturation [saturation + f * 0.1], lightness [0.4 + f * 0.4], size
    [1 + f * 3] plus the pulse bonus, as stored in the [Float32Array] (rounded
    to single precision by [fround]). *)
Theorem frozen_tick_keeps_positions :
  forall (M : Vis.JSMath) (a : Audio.audioData) (cmds : option Vis.gestureCommands)
         (s s' : Vis.vstate),
  Vis.isRunning s = true ->
  match cmds with Some c => Vis.freeze c = true | None => Vis.isFrozen s = true end ->
  Vis.update M (Some a) cmds s = Ok s' ->
  Vis.particlePositions s' = Vis.particlePositions s /\
  Vis.particleVelocities s' = Vis.particleVelocities s /\
  forall i, (i < Vis.particleCount s)%nat ->
    let fd := Audio.frequencyData a in
    let fv := Vis.freqValueAt fd
                (Vis.freqIndex i (Vis.particleCount s) (List.length fd)) in
    exists pal, Vis.palette_of (Vis.currentPalette s') = Some pal /\
      nth_error (Vis.particleColors s') i =
        Some (Observations.frozen_color pal fv (Audio.average a)) /\
      nth_error (Vis.sizes s') i =
        option_map (fun _ => Observations.frozen_size fv s') (nth_error (Vis.sizes s) i).
Proof.
  intros M a cmds s s' Hrun Hfz H.
  unfold Vis.update in H. rewrite Hrun in H. cbv zeta in H. cbn [negb] in H.
  destruct (FrameFacts.prepare_fields M a cmds s) as [Hps Hpf].
  set (p := Vis.prepare M a cmds s) in *.
  assert (Hp : Vis.isFrozen p = true) by (rewrite Hpf; destruct cmds; exact Hfz).
  rewrite Hp in H. cbn [negb] in H.
  destruct (Vis.updateParticleColors (Audio.frequencyData a) (Audio.average a) p)
    as [t|] eqn:E; [|discriminate].
  cbn [js_bind] in H. injection H as <-.
  apply FrozenFacts.updateParticleColors_spec in E.
  destruct E as [Hsame [Hpal [Hpe [Hpi [Hlo _]]]]].
  destruct Hps as [Hn [Hpos [Hvel [_ Hsz]]]].
  destruct Hsame as [Hn' [Hpos' [Hvel' _]]].
  cbn [Vis.particleCount Vis.particlePositions Vis.particleVelocities
       Vis.set_sizes Vis.set_particleColors] in Hn', Hpos', Hvel'.
  unfold Vis.updateCamera.
  cbn [Vis.particlePositions Vis.particleVelocities Vis.particleColors Vis.sizes
       Vis.currentPalette Vis.set_cameraPosition Vis.set_cameraAngle].
  split; [congruence|]. split; [congruence|].
  intros i Hi.
  destruct (Hlo i ltac:(rewrite Hn; exact Hi)) as [pal [Hpl [Hc Hs]]].
  exists pal. split; [congruence|]. split.
  - rewrite Hc. rewrite Hn. reflexivity.
  - rewrite Hs, Hsz. unfold Observations.frozen_size. cbn [Vis.pulseEffect
      Vis.pulseIntensity Vis.set_cameraPosition Vis.set_cameraAngle].
    rewrite Hpe, Hpi. rewrite Hn. reflexivity.
Qed.

Lemma frozen_tick_keeps_positions_witness :
  match Vis.update Fixtures.M0
          (Some (Audio.mkAudioData (repeat Byte.x80 1024) 128 false 0 Audio.zeroBands))
          (Some (Vis.mkCommands true false 0))
          (Fixtures.single (Vis.mkVec3 1 2 3) "cosmic"%string) with
  | Ok s' => Vis.particlePositions s' =
             Vis.particlePositions (Fixtures.single (Vis.mkVec3 1 2 3) "cosmic"%string)
  | TypeError => False
  end.
Proof.
  destruct (Vis.update Fixtures.M0
          (Some (Audio.mkAudioData (repeat Byte.x80 1024) 128 false 0 Audio.zeroBands))
          (Some (Vis.mkCommands true false 0))
          (Fixtures.single (Vis.mkVec3 1 2 3) "cosmic"%string)) as [s'|] eqn:E.
  - exact (proj1 (frozen_tick_keeps_positions Fixtures.M0 _
                    (Some (Vis.mkCommands true false 0))
                    (Fixtures.single (Vis.mkVec3 1 2 3) "cosmic"%string) s'
                    eq_refl eq_refl E)).
  - vm_compute in E. discriminate E.
Defined.

(** ** Particle count *)

Module CountFacts.
Import Vis Loops FrameFacts Observations.


Lemma shape_same N s t : particles_same s t -> shape N s -> shape N t.
Proof. unfold particles_same, shape. intuition congruence. Qed.

Lemma create_particles_length M n r :
  List.length (fst (fst (create_particles M n r))) = n /\
  List.length (snd (fst (create_particles M n r))) = n /\
  List.length (snd (create_particles M n r)) = n.
Proof.
  revert r; induction n as [|n IH]; intro r; [repeat split|].
  cbn [create_particles]. destruct (new_particle M r) as [[p c] sz].
  destruct (IH (5 + r)%nat) as [A [B C]].
  destruct (create_particles M n (5 + r)) as [[ps cs] szs].
  cbn in *. repeat split; congruence.
Qed.

Lemma construct_shape M N : shape N (construct M N).
Proof.
  unfold construct. destruct (create_particles_length M N 0) as [A [B C]].
  destruct (create_particles M N 0) as [[ps cs] szs]. simpl in *.
  repeat split; try assumption. apply repeat_length.
Qed.

Lemma write_particle_shape N i o s : shape N s -> shape N (write_particle i o s).
Proof.
  unfold shape, write_particle; cbn. rewrite !length_set_nth. tauto.
Qed.

Lemma particle_loop_shape N body n i s t :
  shape N s -> for_range n i (particle_step body) s = Ok t -> shape N t.
Proof.
  intros Hs Ht.
  apply (for_range_ind (fun _ u => shape N u) (particle_step body)) with
    (n := n) (i := i) (s := s); [|exact Hs|exact Ht].
  intros k u u' Hu Hstep. apply particle_step_inv in Hstep.
  destruct Hstep as [p [v [c [o [_ [_ [_ [_ ->]]]]]]]].
  now apply write_particle_shape.
Qed.

Lemma minimal_step_shape N s0 pal ppb bar fv bh p s t :
  shape N s -> minimal_step s0 pal ppb bar fv bh p s = Ok t -> shape N t.
Proof.
  unfold minimal_step.
  destruct (nth_error (particlePositions s) (bar * ppb + p)); [|discriminate].
  destruct (nth_error (particleColors s) (bar * ppb + p)); [|discriminate].
  destruct pal; simpl; [|discriminate].
  intros Hs H. injection H as <-. unfold shape in *; cbn.
  rewrite !length_set_nth. tauto.
Qed.

Lemma minimal_inner_shape N s0 pal ppb bar fv bh n p s t :
  shape N s -> minimal_inner s0 pal ppb bar fv bh n p s = Ok t -> shape N t.
Proof.
  revert p s; induction n as [|n IH]; intros p s Hs H; simpl in H.
  - injection H as <-. exact Hs.
  - destruct (particleCount s0 <=? bar * ppb + p)%nat; [injection H as <-; exact Hs|].
    destruct (minimal_step s0 pal ppb bar fv bh p s) as [u|] eqn:E; [|discriminate].
    eapply IH; [eapply minimal_step_shape; eassumption | exact H].
Qed.

Lemma minimal_bars_shape N fd s0 pal ppb n bar s t :
  shape N s -> minimal_bars fd s0 pal ppb n bar s = Ok t -> shape N t.
Proof.
  revert bar s; induction n as [|n IH]; intros bar s Hs H; simpl in H.
  - injection H as <-. exact Hs.
  - match type of H with js_bind ?r _ = _ => destruct r as [u|] eqn:E end;
      [|discriminate].
    eapply IH; [eapply minimal_inner_shape; eassumption | exact H].
Qed.

Lemma colors_shape N fd average s t :
  shape N s -> updateParticleColors fd average s = Ok t -> shape N t.
Proof.
  intros Hs Ht.
  apply (for_range_ind (fun _ u => shape N u) (colors_step fd average s)) with
    (n := particleCount s) (i := 0%nat) (s := s); [|exact Hs|exact Ht].
  intros k u u' Hu Hstep. unfold colors_step in Hstep.
  destruct (nth_error (particleColors u) k); [|discriminate].
  destruct (palette_of (currentPalette s)); [|discriminate].
  simpl in Hstep. injection Hstep as <-. unfold shape in *; cbn.
  rewrite !length_set_nth. tauto.
Qed.

Lemma runMode_shape N M fd average beat bi s t :
  shape N s -> runMode M fd average beat bi s = Ok t -> shape N t.
Proof.
  intros Hs H. unfold runMode in H.
  destruct (String.eqb (visualMode s) "cosmic"%string);
    [eapply particle_loop_shape; eassumption|].
  destruct (String.eqb (visualMode s) "neural"%string).
  - unfold updateParticlesNeural in H.
    destruct (updateParticles fd average beat bi s) as [u|] eqn:E; [|discriminate].
    simpl in H. injection H as <-.
    apply (shape_same N u); [repeat split|].
    eapply particle_loop_shape; [exact Hs|exact E].
  - destruct (String.eqb (visualMode s) "pulse"%string);
      [eapply particle_loop_shape; eassumption|].
    destruct (String.eqb (visualMode s) "chaos"%string);
      [eapply particle_loop_shape; eassumption|].
    destruct (String.eqb (visualMode s) "minimal"%string);
      [eapply minimal_bars_shape; eassumption|].
    eapply particle_loop_shape; eassumption.
Qed.

Lemma update_shape N M a cmds s t :
  shape N s -> update M a cmds s = Ok t -> shape N t.
Proof.
  intros Hs H. unfold update in H.
  destruct a as [a|]; [|injection H as <-; exact Hs].
  destruct (isRunning s); cbn [negb] in H; [|injection H as <-; exact Hs].
  cbv zeta in H.
  assert (Hp : shape N (prepare M a cmds s))
    by (eapply shape_same; [apply prepare_fields|exact Hs]).
  match type of H with js_bind ?r _ = _ => destruct r as [u|] eqn:E end;
    [|discriminate].
  cbn [js_bind] in H. injection H as <-.
  apply (shape_same N u); [repeat split|].
  destruct (isFrozen (prepare M a cmds s)); cbn [negb] in E.
  - eapply colors_shape; eassumption.
  - eapply runMode_shape; eassumption.
Qed.

Lemma run_decays_shape N n s : shape N s -> shape N (run_decays n s).
Proof.
  revert s; induction n as [|n IH]; intros s Hs; [exact Hs|].
  apply IH. eapply shape_same; [apply decayPulse_fields|exact Hs].
Qed.

Lemma run_op_shape N M o s t : shape N s -> run_op M o s = Ok t -> shape N t.
Proof.
  intros Hs H. destruct o; cbn [run_op] in H;
    try (injection H as <-).
  - eapply shape_same; [|exact Hs]. repeat split.
  - eapply shape_same; [apply processGestureCommands_fields|exact Hs].
  - eapply shape_same; [apply triggerPulse_fields|exact Hs].
  - apply run_decays_shape. eapply shape_same; [|exact Hs]. repeat split.
  - eapply update_shape; eassumption.
  - eapply shape_same; [|exact Hs]. repeat split.
  - eapply shape_same; [|exact Hs]. repeat split.
  - eapply shape_same; [|exact Hs]. repeat split.
Qed.

Lemma run_shape N M ops s t : shape N s -> run M ops s = Ok t -> shape N t.
Proof.
  revert s; induction ops as [|o os IH]; intros s Hs H; cbn [run] in H.
  - injection H as <-. exact Hs.
  - destruct (run_op M o s) as [u|] eqn:E; [|discriminate].
    eapply IH; [eapply run_op_shape; eassumption | exact H].
Qed.

End CountFacts.

(** ** C7: particle count *)

(** C7. The constructor's particle count is 2000; after construction with
    [N] particles, every session (any sequence of mode switches, gesture
    commands with freeze toggles and pulses, direct pulse triggers,
    animation frames with the queued pulse decays, [update] ticks,
    start, stop and symmetry toggles) that ends without an exception
    leaves [particleCount = N] and the position, velocity, color and size
    arrays with exactly [N] entries; a mode switch changes only
    [visualMode] and keeps the very same particle arrays. *)
Theorem particle_count_invariant :
  Vis.defaultParticleCount = 2000%nat /\
  (forall (M : Vis.JSMath) (N : nat) (ops : list Vis.op) (s' : Vis.vstate),
     Vis.run M ops (Vis.construct M N) = Ok s' ->
     Vis.particleCount s' = N /\
     List.length (Vis.particlePositions s') = N /\
     List.length (Vis.particleVelocities s') = N /\
     List.length (Vis.particleColors s') = N /\
     List.length (Vis.sizes s') = N) /\
  (forall (mode : string) (s : Vis.vstate),
     Vis.visualMode (Vis.setVisualMode mode s) = mode /\
     Vis.particleCount (Vis.setVisualMode mode s) = Vis.particleCount s /\
     Vis.particlePositions (Vis.setVisualMode mode s) = Vis.particlePositions s /\
     Vis.particleVelocities (Vis.setVisualMode mode s) = Vis.particleVelocities s /\
     Vis.particleColors (Vis.setVisualMode mode s) = Vis.particleColors s /\
     Vis.sizes (Vis.setVisualMode mode s) = Vis.sizes s).
Proof.
  split; [reflexivity|]. split.
  - intros M N ops s' H.
    exact (CountFacts.run_shape N M ops _ _ (CountFacts.construct_shape M N) H).
  - intros mode s. repeat split.
Qed.

Lemma particle_count_invariant_witness :
  match Vis.run Fixtures.M0
          [Vis.SetVisualMode "neural"%string; Vis.Start;
           Vis.Update (Fixtures.frame_of (repeat Byte.x80 1024)) None;
           Vis.Gesture (Vis.mkCommands true true 1) true 1; Vis.AnimationFrame;
           Vis.Update (Fixtures.frame_of (repeat Byte.x80 1024))
             (Some (Vis.mkCommands false false 2));
           Vis.SetVisualMode "minimal"%string;
           Vis.Update (Fixtures.frame_of (repeat Byte.x80 1024)) None]
          (Vis.construct Fixtures.M0 5) with
  | Ok s' => Vis.particleCount s' = 5%nat /\ List.length (Vis.sizes s') = 5%nat
  | TypeError => False
  end.
Proof.
  destruct particle_count_invariant as [_ [H _]].
  match goal with |- match ?r with Ok _ => _ | TypeError => _ end =>
    destruct r as [s'|] eqn:E end.
  - destruct (H _ _ _ _ E) as [A [_ [_ [_ B]]]]. split; [exact A|exact B].
  - vm_compute in E. discriminate E.
Defined.

(** ** Which spectrum bin a particle reads *)

(** C8 (counterexample). With 2000 particles and 1024 bins, particle 31
    would read bin [floor(31 / 2000 * 1024) = 15]; in minimal mode it is
    particle 0 of bar 1 and reads bin [floor(1 / 64 * 1024) = 16]
    instead: two spectra that agree on bin 15 and differ on bin 16 give
    particle 31 the sizes 3 and 7. *)
Lemma minimal_reads_bar_bin :
  Vis.freqIndex 31 2000 1024 = Some 15%nat /\
  nth_error (repeat Byte.x00 1024) 15 =
    nth_error (Vis.set_nth (repeat Byte.x00 1024) 16 Byte.xff) 15 /\
  match Vis.updateParticlesMinimal (repeat Byte.x00 1024)
          (Vis.construct Fixtures.M0 2000),
        Vis.updateParticlesMinimal (Vis.set_nth (repeat Byte.x00 1024) 16 Byte.xff)
          (Vis.construct Fixtures.M0 2000) with
  | Ok a, Ok b => nth_error (Vis.sizes a) 31 = Some 3 /\
                  nth_error (Vis.sizes b) 31 = Some 7
  | _, _ => False
  end.
Proof. vm_compute. repeat split. Qed.

Module BinFacts.
Import Vis Loops MinimalFacts Observations.

Lemma untouched_sym j s t : untouched j s t -> untouched j t s.
Proof. unfold untouched. intuition congruence. Qed.

(** Two runs of the same loop shape, side by side. *)
Lemma for_range_ind2 (Inv : nat -> vstate -> vstate -> Prop)
    (step1 step2 : nat -> vstate -> js_result vstate) :
  (forall i u1 u2 w1 w2, Inv i u1 u2 -> step1 i u1 = Ok w1 -> step2 i u2 = Ok w2 ->
     Inv (S i) w1 w2) ->
  forall n i u1 u2 t1 t2, Inv i u1 u2 ->
  for_range n i step1 u1 = Ok t1 -> for_range n i step2 u2 = Ok t2 ->
  Inv (i + n)%nat t1 t2.
Proof.
  intros Hstep n. induction n as [|n IH]; intros i u1 u2 t1 t2 Hi H1 H2;
    simpl in H1, H2.
  - injection H1 as <-. injection H2 as <-. now rewrite Nat.add_0_r.
  - destruct (step1 i u1) as [w1|] eqn:E1; [|discriminate].
    destruct (step2 i u2) as [w2|] eqn:E2; [|discriminate].
    replace (i + S n)%nat with (S i + n)%nat by lia.
    eapply IH; [eapply Hstep; eassumption | exact H1 | exact H2].
Qed.

Lemma write_particle_other i j o u : i <> j -> untouched i u (write_particle j o u).
Proof.
  intro H. unfold untouched, write_particle; cbn.
  rewrite !nth_error_set_nth_other by congruence. repeat split.
Qed.

Lemma write_particle_same i o u1 u2 :
  untouched i u1 u2 -> untouched i (write_particle i o u1) (write_particle i o u2).
Proof.
  intros [A [B [C D]]]. unfold untouched, write_particle; cbn.
  rewrite !nth_error_set_nth_same. rewrite A, B, C, D. repeat split.
Qed.

(** A particle loop whose bodies call [Math.random()] [k] times per
    particle: particle [i] ends the same in two runs whose bodies agree
    on particle [i]. *)
Lemma particle_loops_agree body1 body2 k i s n t1 t2 :
  (forall j p v c r o, body1 j p v c r = Ok o -> o_rng o = (r + k)%nat) ->
  (forall j p v c r o, body2 j p v c r = Ok o -> o_rng o = (r + k)%nat) ->
  (forall p v c r, body1 i p v c r = body2 i p v c r) ->
  for_range n 0 (particle_step body1) s = Ok t1 ->
  for_range n 0 (particle_step body2) s = Ok t2 ->
  untouched i t1 t2.
Proof.
  intros R1 R2 Hb H1 H2.
  enough (rngCalls t1 = rngCalls t2 /\ untouched i t1 t2) by tauto.
  apply (for_range_ind2 (fun _ u1 u2 => rngCalls u1 = rngCalls u2 /\ untouched i u1 u2)
           (particle_step body1) (particle_step body2))
    with (n := n) (i := 0%nat) (u1 := s) (u2 := s); [| split; [reflexivity|apply untouched_refl] | exact H1 | exact H2].
  intros j u1 u2 w1 w2 [Hr Hu] S1 S2.
  apply particle_step_inv in S1. apply particle_step_inv in S2.
  destruct S1 as [p1 [v1 [c1 [o1 [P1 [V1 [C1 [B1 ->]]]]]]]].
  destruct S2 as [p2 [v2 [c2 [o2 [P2 [V2 [C2 [B2 ->]]]]]]]].
  split.
  - cbn. rewrite (R1 _ _ _ _ _ _ B1), (R2 _ _ _ _ _ _ B2), Hr. reflexivity.
  - destruct (Nat.eq_dec i j) as [<-|Hne].
    + pose proof Hu as [A [B [C _]]].
      assert (p1 = p2) by congruence. assert (v1 = v2) by congruence.
      assert (c1 = c2) by congruence. subst p2 v2 c2.
      rewrite Hb, Hr in B1. rewrite B1 in B2. injection B2 as ->.
      now apply write_particle_same.
    + eapply untouched_trans; [|apply write_particle_other; exact Hne].
      eapply untouched_trans; [apply untouched_sym; apply write_particle_other; exact Hne|].
      exact Hu.
Qed.

(** [frequencyData[Math.floor(i / N * len)] / 255] is the same for two
    spectra of one length that agree on that bin. *)
Lemma freqValue_agree fd1 fd2 i N k :
  List.length fd1 = List.length fd2 -> freqIndex i N (List.length fd1) = Some k ->
  nth_error fd1 k = nth_error fd2 k ->
  freqValueAt fd1 (freqIndex i N (List.length fd1)) =
  freqValueAt fd2 (freqIndex i N (List.length fd2)).
Proof.
  intros Hl Hk Hn. rewrite <- Hl, Hk. unfold freqValueAt, u8_get. now rewrite Hn.
Qed.

Section Bodies.
Variables (M : JSMath) (fd1 fd2 : list Byte.byte) (average : float) (beat : bool)
          (bi : float) (s : vstate) (i : nat).
Hypothesis Hfv : freqValueAt fd1 (freqIndex i (particleCount s) (List.length fd1)) =
                 freqValueAt fd2 (freqIndex i (particleCount s) (List.length fd2)).

Lemma generic_body_agree p v c r :
  generic_body fd1 average beat bi s i p v c r = generic_body fd2 average beat bi s i p v c r.
Proof. unfold generic_body. now rewrite Hfv. Qed.

Lemma cosmic_body_agree p v c r :
  cosmic_body M fd1 beat bi s i p v c r = cosmic_body M fd2 beat bi s i p v c r.
Proof. unfold cosmic_body. now rewrite Hfv. Qed.

Lemma pulse_body_agree p v c r :
  pulse_body M fd1 beat bi s i p v c r = pulse_body M fd2 beat bi s i p v c r.
Proof. unfold pulse_body. now rewrite Hfv. Qed.

Lemma chaos_body_agree p v c r :
  chaos_body M fd1 beat bi s i p v c r = chaos_body M fd2 beat bi s i p v c r.
Proof. unfold chaos_body. now rewrite Hfv. Qed.

End Bodies.

Lemma generic_body_rng fd average beat bi s j p v c r o :
  generic_body fd average beat bi s j p v c r = Ok o -> o_rng o = (r + 0)%nat.
Proof.
  unfold generic_body, with_palette. destruct (palette_of _); [|discriminate].
  intro H. injection H as <-. cbn. lia.
Qed.

Lemma cosmic_body_rng M fd beat bi s j p v c r o :
  cosmic_body M fd beat bi s j p v c r = Ok o -> o_rng o = (r + 0)%nat.
Proof.
  unfold cosmic_body, with_palette. destruct (palette_of _); [|discriminate].
  intro H. injection H as <-. cbn. lia.
Qed.

Lemma pulse_body_rng M fd beat bi s j p v c r o :
  pulse_body M fd beat bi s j p v c r = Ok o -> o_rng o = (r + 0)%nat.
Proof.
  unfold pulse_body, with_palette. destruct (palette_of _); [|discriminate].
  intro H. injection H as <-. cbn. lia.
Qed.

Lemma chaos_body_rng M fd beat bi s j p v c r o :
  chaos_body M fd beat bi s j p v c r = Ok o ->
  o_rng o = (r + if beat then 3 else 0)%nat.
Proof.
  unfold chaos_body, with_palette.
  destruct beat; cbv beta iota zeta; destruct (palette_of _); intro H;
    try discriminate H; injection H as <-; cbn; lia.
Qed.

Lemma minimal_step_agree i s0 pal ppb bar fv bh p u1 u2 w1 w2 :
  untouched i u1 u2 -> i = (bar * ppb + p)%nat ->
  minimal_step s0 pal ppb bar fv bh p u1 = Ok w1 ->
  minimal_step s0 pal ppb bar fv bh p u2 = Ok w2 ->
  untouched i w1 w2.
Proof.
  intros [A [B [C D]]] -> H1 H2. unfold minimal_step in H1, H2.
  rewrite A, C in H2.
  destruct (nth_error (particlePositions u1) (bar * ppb + p)) as [q|] eqn:Q;
    [|discriminate].
  destruct (nth_error (particleColors u1) (bar * ppb + p)) as [c|] eqn:Cq;
    [|discriminate].
  destruct pal; simpl in H1, H2; [|discriminate].
  injection H1 as <-. injection H2 as <-.
  unfold untouched; cbn. rewrite !nth_error_set_nth_same.
  rewrite A, C, D, Q, Cq. repeat split. exact B.
Qed.

Lemma minimal_inner_agree i s0 pal ppb bar fv1 bh1 fv2 bh2 :
  forall n p u1 u2 w1 w2,
  untouched i u1 u2 ->
  (forall p', (p <= p' < p + n)%nat -> i = (bar * ppb + p')%nat ->
     fv1 = fv2 /\ bh1 = bh2) ->
  minimal_inner s0 pal ppb bar fv1 bh1 n p u1 = Ok w1 ->
  minimal_inner s0 pal ppb bar fv2 bh2 n p u2 = Ok w2 ->
  untouched i w1 w2.
Proof.
  intro n. induction n as [|n IH]; intros p u1 u2 w1 w2 Hu Hf H1 H2;
    cbn [minimal_inner] in H1, H2.
  - injection H1 as <-. injection H2 as <-. exact Hu.
  - destruct (particleCount s0 <=? bar * ppb + p)%nat.
    + injection H1 as <-. injection H2 as <-. exact Hu.
    + destruct (minimal_step s0 pal ppb bar fv1 bh1 p u1) as [x1|] eqn:E1;
        [|discriminate].
      destruct (minimal_step s0 pal ppb bar fv2 bh2 p u2) as [x2|] eqn:E2;
        [|discriminate].
      cbn [js_bind] in H1, H2.
      apply (IH (S p) x1 x2); [| intros p' Hp' Hi; apply (Hf p'); lia | exact H1 | exact H2].
      destruct (Nat.eq_dec i (bar * ppb + p)) as [Hi|Hi].
      * destruct (Hf p ltac:(lia) Hi) as [-> ->].
        eapply minimal_step_agree; eassumption.
      * eapply untouched_trans; [apply untouched_sym; eapply minimal_step_other; eassumption|].
        eapply untouched_trans; [exact Hu|]. eapply minimal_step_other; eassumption.
Qed.

(** The bin a bar reads. *)
Lemma minimal_bars_agree fd1 fd2 i s0 pal ppb :
  forall n bar u1 u2 w1 w2,
  untouched i u1 u2 ->
  (forall b p, (bar <= b)%nat -> (p < ppb)%nat -> i = (b * ppb + p)%nat ->
     freqValueAt fd1 (floor_index ((fnat b / fnat barCount) * fnat (List.length fd1))) =
     freqValueAt fd2 (floor_index ((fnat b / fnat barCount) * fnat (List.length fd2)))) ->
  minimal_bars fd1 s0 pal ppb n bar u1 = Ok w1 ->
  minimal_bars fd2 s0 pal ppb n bar u2 = Ok w2 ->
  untouched i w1 w2.
Proof.
  intro n. induction n as [|n IH]; intros bar u1 u2 w1 w2 Hu Hf H1 H2;
    cbn [minimal_bars] in H1, H2.
  - injection H1 as <-. injection H2 as <-. exact Hu.
  - match type of H1 with js_bind ?r _ = _ => destruct r as [x1|] eqn:E1 end;
      [|discriminate].
    match type of H2 with js_bind ?r _ = _ => destruct r as [x2|] eqn:E2 end;
      [|discriminate].
    cbn [js_bind] in H1, H2.
    apply (IH (S bar) x1 x2); [| intros b p Hb Hp Hi; apply (Hf b p); lia | exact H1 | exact H2].
    eapply (minimal_inner_agree i s0 pal ppb bar); [exact Hu| |exact E1|exact E2].
    intros p' Hp' Hi. rewrite (Hf bar p' (le_n _) ltac:(lia) Hi). split; reflexivity.
Qed.

Lemma bar_index_unique q b b' p p' :
  (p < q)%nat -> (p' < q)%nat -> (b * q + p = b' * q + p')%nat -> b = b'.
Proof.
  intros Hp Hp' H.
  destruct (Nat.lt_trichotomy b b') as [Hl|[Heq|Hl]]; [|exact Heq|].
  - assert (b * q + q <= b' * q)%nat by nia. lia.
  - assert (b' * q + q <= b * q)%nat by nia. lia.
Qed.

End BinFacts.

(** C8 (amended). In the cosmic, neural, pulse and chaos rules and the
    generic fallback, particle [i] of [N] depends on the spectrum only
    through bin [floor(i / N * len)]: with two spectra of one length that
    agree on that bin, the same frame leaves particle [i] with the same
    position, velocity, color and size.  In minimal mode the particle
    [i = bar * floor(N / 64) + p] (with [p < floor(N / 64)]) depends on the
    spectrum only through its bar's bin [floor(bar / 64 * len)]. *)
Theorem particle_reads_own_bin :
  (forall (M : Vis.JSMath) (fd1 fd2 : list Byte.byte) (average : float)
          (beat : bool) (bi : float) (s t1 t2 : Vis.vstate) (i k : nat),
     Vis.visualMode s <> "minimal"%string ->
     List.length fd1 = List.length fd2 ->
     Vis.freqIndex i (Vis.particleCount s) (List.length fd1) = Some k ->
     nth_error fd1 k = nth_error fd2 k ->
     Vis.runMode M fd1 average beat bi s = Ok t1 ->
     Vis.runMode M fd2 average beat bi s = Ok t2 ->
     nth_error (Vis.particlePositions t1) i = nth_error (Vis.particlePositions t2) i /\
     nth_error (Vis.particleVelocities t1) i = nth_error (Vis.particleVelocities t2) i /\
     nth_error (Vis.particleColors t1) i = nth_error (Vis.particleColors t2) i /\
     nth_error (Vis.sizes t1) i = nth_error (Vis.sizes t2) i) /\
  (forall (fd1 fd2 : list Byte.byte) (s t1 t2 : Vis.vstate) (bar p k : nat),
     (bar < Vis.barCount)%nat ->
     (p < Vis.particlesPerBar (Vis.particleCount s))%nat ->
     List.length fd1 = List.length fd2 ->
     floor_index ((fnat bar / fnat Vis.barCount) * fnat (List.length fd1)) = Some k ->
     nth_error fd1 k = nth_error fd2 k ->
     Vis.updateParticlesMinimal fd1 s = Ok t1 ->
     Vis.updateParticlesMinimal fd2 s = Ok t2 ->
     let i := (bar * Vis.particlesPerBar (Vis.particleCount s) + p)%nat in
     nth_error (Vis.particlePositions t1) i = nth_error (Vis.particlePositions t2) i /\
     nth_error (Vis.particleVelocities t1) i = nth_error (Vis.particleVelocities t2) i /\
     nth_error (Vis.particleColors t1) i = nth_error (Vis.particleColors t2) i /\
     nth_error (Vis.sizes t1) i = nth_error (Vis.sizes t2) i).
Proof.
  split.
  - intros M fd1 fd2 average beat bi s t1 t2 i k Hm Hl Hk Hn H1 H2.
    assert (Hfv := BinFacts.freqValue_agree fd1 fd2 i (Vis.particleCount s) k Hl Hk Hn).
    enough (Observations.untouched i t1 t2) by
      (destruct H as [A [B [C D]]]; repeat split; symmetry; assumption).
    unfold Vis.runMode in H1, H2.
    destruct (String.eqb (Vis.visualMode s) "cosmic"%string).
    { eapply (BinFacts.particle_loops_agree _ _ 0 i s); [| |intros; apply BinFacts.cosmic_body_agree; exact Hfv|exact H1|exact H2];
        intros; eapply BinFacts.cosmic_body_rng; eassumption. }
    destruct (String.eqb (Vis.visualMode s) "neural"%string) eqn:En.
    { unfold Vis.updateParticlesNeural in H1, H2.
      destruct (Vis.updateParticles fd1 average beat bi s) as [u1|] eqn:E1; [|discriminate].
      destruct (Vis.updateParticles fd2 average beat bi s) as [u2|] eqn:E2; [|discriminate].
      cbn [js_bind] in H1, H2. injection H1 as <-. injection H2 as <-.
      assert (Observations.untouched i u1 u2).
      { eapply (BinFacts.particle_loops_agree _ _ 0 i s); [| |intros; apply BinFacts.generic_body_agree; exact Hfv|exact E1|exact E2];
          intros; eapply BinFacts.generic_body_rng; eassumption. }
      exact H. }
    destruct (String.eqb (Vis.visualMode s) "pulse"%string).
    { eapply (BinFacts.particle_loops_agree _ _ 0 i s); [| |intros; apply BinFacts.pulse_body_agree; exact Hfv|exact H1|exact H2];
        intros; eapply BinFacts.pulse_body_rng; eassumption. }
    destruct (String.eqb (Vis.visualMode s) "chaos"%string).
    { eapply (BinFacts.particle_loops_agree _ _ (if beat then 3 else 0)%nat i s);
        [| |intros; apply BinFacts.chaos_body_agree; exact Hfv|exact H1|exact H2];
        intros; eapply BinFacts.chaos_body_rng; eassumption. }
    destruct (String.eqb (Vis.visualMode s) "minimal"%string) eqn:Emin.
    { apply String.eqb_eq in Emin. contradiction. }
    eapply (BinFacts.particle_loops_agree _ _ 0 i s); [| |intros; apply BinFacts.generic_body_agree; exact Hfv|exact H1|exact H2];
      intros; eapply BinFacts.generic_body_rng; eassumption.
  - intros fd1 fd2 s t1 t2 bar p k Hbar Hp Hl Hk Hn H1 H2 i.
    enough (Observations.untouched i t1 t2) by
      (destruct H as [A [B [C D]]]; repeat split; symmetry; assumption).
    unfold Vis.updateParticlesMinimal in H1, H2.
    eapply (BinFacts.minimal_bars_agree fd1 fd2 i s); [apply MinimalFacts.untouched_refl| |exact H1|exact H2].
    intros b p' _ Hp' Hi.
    assert (b = bar) as ->.
    { symmetry. eapply BinFacts.bar_index_unique; [exact Hp|exact Hp'|exact Hi]. }
    rewrite <- Hl, Hk. unfold Vis.freqValueAt, u8_get. now rewrite Hn.
Qed.

Lemma particle_reads_own_bin_witness :
  match Vis.runMode Fixtures.M0 (repeat Byte.x80 1024) 128 false 0
          (Vis.construct Fixtures.M0 5),
        Vis.runMode Fixtures.M0 (Vis.set_nth (repeat Byte.x80 1024) 900 Byte.xff)
          128 false 0 (Vis.construct Fixtures.M0 5) with
  | Ok t1, Ok t2 => nth_error (Vis.sizes t1) 0 = nth_error (Vis.sizes t2) 0
  | _, _ => False
  end /\
  match Vis.updateParticlesMinimal (repeat Byte.x80 1024)
          (Vis.set_visualMode "minimal"%string (Vis.construct Fixtures.M0 128)),
        Vis.updateParticlesMinimal (Vis.set_nth (repeat Byte.x80 1024) 0 Byte.xff)
          (Vis.set_visualMode "minimal"%string (Vis.construct Fixtures.M0 128)) with
  | Ok t1, Ok t2 => nth_error (Vis.sizes t1) 3 = nth_error (Vis.sizes t2) 3
  | _, _ => False
  end.
Proof.
  destruct particle_reads_own_bin as [HA HB]. split.
  - destruct (Vis.runMode Fixtures.M0 (repeat Byte.x80 1024) 128 false 0
          (Vis.construct Fixtures.M0 5)) as [t1|] eqn:E1;
      [|vm_compute in E1; discriminate E1].
    destruct (Vis.runMode Fixtures.M0 (Vis.set_nth (repeat Byte.x80 1024) 900 Byte.xff)
          128 false 0 (Vis.construct Fixtures.M0 5)) as [t2|] eqn:E2;
      [|vm_compute in E2; discriminate E2].
    refine (proj2 (proj2 (proj2 (HA _ _ _ _ _ _ _ t1 t2 0%nat 0%nat _ _ _ _ E1 E2)))).
    + apply String.eqb_neq. vm_compute. reflexivity.
    + vm_compute. reflexivity.
    + vm_compute. reflexivity.
    + vm_compute. reflexivity.
  - destruct (Vis.updateParticlesMinimal (repeat Byte.x80 1024)
          (Vis.set_visualMode "minimal"%string (Vis.construct Fixtures.M0 128)))
      as [t1|] eqn:E1; [|vm_compute in E1; discriminate E1].
    destruct (Vis.updateParticlesMinimal (Vis.set_nth (repeat Byte.x80 1024) 0 Byte.xff)
          (Vis.set_visualMode "minimal"%string (Vis.construct Fixtures.M0 128)))
      as [t2|] eqn:E2; [|vm_compute in E2; discriminate E2].
    refine (proj2 (proj2 (proj2 (HB _ _ _ t1 t2 1%nat 1%nat 16%nat _ _ _ _ _ E1 E2)))).
    + apply Nat.ltb_lt. vm_compute. reflexivity.
    + apply Nat.ltb_lt. vm_compute. reflexivity.
    + vm_compute. reflexivity.
    + vm_compute. reflexivity.
    + vm_compute. reflexivity.
Defined.

(** ** Pulses *)

Module PulseFacts.
Import Observations.


Lemma decayPulse_view u :
  Vis.pendingDecays u = 0%nat ->
  view (Vis.decayPulse u) =
    Vis.decay_step PrimFloat.mul gtf 0.85 0.1 0 (Vis.pulseEffect u, Vis.pulseIntensity u) /\
  (Vis.pendingDecays (Vis.decayPulse u) <= 1)%nat.
Proof.
  intro H. unfold Vis.decayPulse, view.
  destruct (Vis.decay_step PrimFloat.mul gtf 0.85 0.1 0
              (Vis.pulseEffect u, Vis.pulseIntensity u)) as [[e x] ag].
  destruct ag; cbn; rewrite H; split; reflexivity || lia.
Qed.

Lemma triggerPulse_view I s :
  Vis.pendingDecays s = 0%nat ->
  view (Vis.triggerPulse I s) = fdecay_run 0 (true, I + 1.5) /\
  (Vis.pendingDecays (Vis.triggerPulse I s) <= 1)%nat.
Proof. intro H. unfold Vis.triggerPulse. now apply decayPulse_view. Qed.

Lemma animationFrame_view t n st :
  view t = fdecay_run n st -> (Vis.pendingDecays t <= 1)%nat ->
  view (Vis.animationFrame t) = fdecay_run (S n) st /\
  (Vis.pendingDecays (Vis.animationFrame t) <= 1)%nat.
Proof.
  intros Hv Hp. unfold fdecay_run in *. cbn [Vis.decay_run]. rewrite <- Hv.
  unfold Vis.animationFrame.
  destruct (Vis.pendingDecays t) as [|[|k]] eqn:E; [| |lia].
  - unfold view; cbn. rewrite E. split; reflexivity || lia.
  - unfold view at 2. rewrite E. cbn [Nat.eqb Vis.run_decays].
    destruct (decayPulse_view (Vis.set_pendingDecays 0 t) eq_refl) as [A B].
    split; [rewrite A; reflexivity | exact B].
Qed.

Lemma pulse_chain I s :
  Vis.pendingDecays s = 0%nat -> forall n,
  view (Nat.iter n Vis.animationFrame (Vis.triggerPulse I s)) = fdecay_run n (true, I + 1.5) /\
  (Vis.pendingDecays (Nat.iter n Vis.animationFrame (Vis.triggerPulse I s)) <= 1)%nat.
Proof.
  intros H n. induction n as [|n [IH1 IH2]].
  - now apply triggerPulse_view.
  - cbn [Nat.iter]. now apply animationFrame_view.
Qed.

Lemma retrigger_view c beat bi s :
  Vis.pulse c = true -> Vis.pulseEffect s = false -> Vis.pendingDecays s = 0%nat ->
  view (Vis.processGestureCommands c beat bi s) = fdecay_run 0 (true, bi + 1.5).
Proof.
  intros Hc He Hp. unfold Vis.processGestureCommands. cbn [Vis.pulseEffect Vis.set_isFrozen].
  rewrite Hc, He. cbn [andb negb].
  destruct (triggerPulse_view bi (Vis.set_isFrozen (Vis.freeze c) s) Hp) as [A _].
  destruct (Nat.eqb _ _); [exact A|]. exact A.
Qed.

End PulseFacts.

Module PulseReal.
Import Reals Lra RealDecay.


Lemma ln085_neg : (ln 0.85 < 0)%R.
Proof. rewrite <- ln_1. apply ln_increasing; lra. Qed.

Lemma ln_le_iff x y : (0 < x)%R -> (0 < y)%R -> (ln x <= ln y <-> x <= y)%R.
Proof.
  intros Hx Hy. split; intro H.
  - destruct (Rle_or_lt x y) as [|Hlt]; [assumption|].
    pose proof (ln_increasing y x Hy Hlt). lra.
  - destruct (Rle_lt_or_eq_dec x y H) as [Hlt|Heq]; [|subst; lra].
    pose proof (ln_increasing x y Hx Hlt). lra.
Qed.

(** [k] decays reach [0.1] exactly when [k >= log(0.1 / x0) / log(0.85)]. *)
Lemma bound_iff x0 k : (0 < x0)%R ->
  (ln (0.1 / x0) / ln 0.85 <= INR k <-> x0 * 0.85 ^ k <= 0.1)%R.
Proof.
  intros Hx. pose proof ln085_neg as HL.
  set (L := ln 0.85) in *. set (a := ln (0.1 / x0)).
  assert (Hq : (a / L * L = a)%R) by (field; lra).
  assert (Hpow : (ln (0.85 ^ k) = INR k * L)%R) by (apply ln_pow; lra).
  assert (Hp : (0 < 0.85 ^ k)%R) by (apply pow_lt; lra).
  assert (Hd : (0 < 0.1 / x0)%R) by (apply Rdiv_lt_0_compat; lra).
  assert (Hm : (0.1 / x0 * x0 = 0.1)%R) by (field; lra).
  transitivity (INR k * L <= a)%R.
  { split; intro H; nra. }
  rewrite <- Hpow. unfold a. rewrite ln_le_iff by assumption.
  split; intro H; nra.
Qed.

(** After [n + 1] decays the chain is either still running at
    [x0 * 0.85 ^ (n + 1) > 0.1], or cleared. *)
Lemma rdecay_run_shape x0 n : (0 < x0)%R ->
  (rdecay_run n x0 = (true, x0 * 0.85 ^ S n, true)%R /\ (0.1 < x0 * 0.85 ^ S n)%R) \/
  rdecay_run n x0 = (false, 0%R, false).
Proof.
  intro Hx. unfold rdecay_run. induction n as [|n IH].
  - cbn. unfold Vis.decay_step, Rgtb; cbn.
    destruct (Rlt_dec 0.1 (x0 * 0.85)) as [H|H]; [left|right; reflexivity].
    rewrite Rmult_1_r. split; [reflexivity|exact H].
  - cbn [Vis.decay_run]. destruct IH as [[E _]|E]; rewrite E; [|right; reflexivity].
    unfold Vis.decay_step, Rgtb; cbn [fst snd].
    replace (x0 * 0.85 ^ S n * 0.85)%R with (x0 * 0.85 ^ S (S n))%R
      by (cbn [pow]; ring).
    destruct (Rlt_dec 0.1 (x0 * 0.85 ^ S (S n))) as [H|H];
      [left; split; [reflexivity|exact H] | right; reflexivity].
Qed.

(** C6 (counterexample). A pulse triggered with the default intensity
    [I = 1] starts at [I + 1.5 = 2.5], not at [I]: it is still active, with
    [pulseIntensity > 0.1], 15 animation frames after the trigger (16
    decays), although [log(0.1 / I) / log(0.85) <= 15]; it clears at the
    20th decay, i.e. 19 frames after the trigger. *)
Lemma pulse_outlasts_claimed_bound :
  (ln (0.1 / 1) / ln 0.85 <= 15)%R /\
  Vis.pulseEffect (Nat.iter 15 Vis.animationFrame
    (Vis.triggerPulse 1 (Fixtures.single Vis.vzero "cosmic"%string))) = true /\
  gtf (Vis.pulseIntensity (Nat.iter 15 Vis.animationFrame
    (Vis.triggerPulse 1 (Fixtures.single Vis.vzero "cosmic"%string)))) 0.1 = true /\
  Vis.pulseEffect (Nat.iter 18 Vis.animationFrame
    (Vis.triggerPulse 1 (Fixtures.single Vis.vzero "cosmic"%string))) = true /\
  Vis.pulseEffect (Nat.iter 19 Vis.animationFrame
    (Vis.triggerPulse 1 (Fixtures.single Vis.vzero "cosmic"%string))) = false.
Proof.
  split.
  - replace 15%R with (INR 15) by (cbn; lra).
    apply bound_iff; [lra|]. cbn. lra.
  - vm_compute. repeat split.
Qed.

(** C6 (amended). [triggerPulse(I)] sets the intensity to [I + 1.5] and
    decays it at once; each later animation frame decays it again while
    the previous decay re-queued itself.  The state reached [n] frames
    after the trigger is that of [n + 1] steps of the decay chain (in the
    browser's binary64 arithmetic), with at most one decay queued.  In
    exact arithmetic, from any [x0 > 0] the intensity after [k] decays is
    [x0 * 0.85 ^ k] while it stays above [0.1], and the pulse is cleared
    (effect off, intensity exactly [0], nothing queued) once
    [k >= log(0.1 / x0) / log(0.85)], with [x0 = I + 1.5].  A pulse command
    on a visualizer whose pulse is off and has nothing queued triggers a
    new pulse at once. *)
Theorem pulse_decay_spec :
  (forall (I : float) (s : Vis.vstate), Vis.pendingDecays s = 0%nat -> forall n,
     Observations.view (Nat.iter n Vis.animationFrame (Vis.triggerPulse I s)) =
       Observations.fdecay_run n (true, I + 1.5) /\
     (Vis.pendingDecays (Nat.iter n Vis.animationFrame (Vis.triggerPulse I s)) <= 1)%nat) /\
  (forall (x0 : R) (n : nat), (0 < x0)%R ->
     (rdecay_run n x0 = (true, x0 * 0.85 ^ S n, true)%R /\ (0.1 < x0 * 0.85 ^ S n)%R) \/
     rdecay_run n x0 = (false, 0%R, false)) /\
  (forall (x0 : R) (n : nat), (0 < x0)%R ->
     (ln (0.1 / x0) / ln 0.85 <= INR (S n))%R ->
     rdecay_run n x0 = (false, 0%R, false)) /\
  (forall (c : Vis.gestureCommands) (beat : bool) (bi : float) (s : Vis.vstate),
     Vis.pulse c = true -> Vis.pulseEffect s = false -> Vis.pendingDecays s = 0%nat ->
     Observations.view (Vis.processGestureCommands c beat bi s) =
       Observations.fdecay_run 0 (true, bi + 1.5)).
Proof.
  split; [exact PulseFacts.pulse_chain|].
  split; [exact rdecay_run_shape|].
  split; [|exact PulseFacts.retrigger_view].
  intros x0 n Hx Hb. apply bound_iff in Hb; [|exact Hx].
  destruct (rdecay_run_shape x0 n Hx) as [[_ H]|E]; [lra|exact E].
Qed.

Lemma pulse_decay_spec_witness :
  Observations.view (Nat.iter 3 Vis.animationFrame
      (Vis.triggerPulse 1 (Fixtures.single Vis.vzero "cosmic"%string))) =
    Observations.fdecay_run 3 (true, 1 + 1.5) /\
  ((rdecay_run 4 2.5 = (true, 2.5 * 0.85 ^ 5, true)%R /\ (0.1 < 2.5 * 0.85 ^ 5)%R) \/
   rdecay_run 4 2.5 = (false, 0%R, false)) /\
  rdecay_run 19 2.5 = (false, 0%R, false) /\
  Observations.view (Vis.processGestureCommands (Vis.mkCommands false true 0) true 0.5
      (Fixtures.single Vis.vzero "cosmic"%string)) =
    Observations.fdecay_run 0 (true, 0.5 + 1.5).
Proof.
  destruct pulse_decay_spec as [A [B [C D]]].
  split; [exact (proj1 (A 1 (Fixtures.single Vis.vzero "cosmic"%string) eq_refl 3%nat))|].
  split; [apply B; lra|].
  split; [apply C; [lra|] | exact (D (Vis.mkCommands false true 0) true 0.5
    (Fixtures.single Vis.vzero "cosmic"%string) eq_refl eq_refl eq_refl)].
  apply bound_iff; [lra|]. cbn. lra.
Defined.

End PulseReal.

(** * Properties of the gesture controller, the preset manager and the
    remaining code *)

Module GestureFacts.
Import Gesture GestureObs.

Lemma gesture_eqb_spec a b : gesture_eqb a b = true <-> a = b.
Proof. destruct a, b; simpl; split; congruence. Qed.

Lemma gesture_eqb_refl a : gesture_eqb a a = true.
Proof. now apply gesture_eqb_spec. Qed.

Lemma count_of_add c g k :
  count_of (add_count c g) k = (count_of c k + if gesture_eqb g k then 1 else 0)%nat.
Proof.
  induction c as [|[k' n] c IH]; simpl.
  - destruct (gesture_eqb g k); reflexivity.
  - destruct (gesture_eqb k' g) eqn:E1; simpl.
    + apply gesture_eqb_spec in E1; subst k'.
      destruct (gesture_eqb g k); simpl; lia.
    + rewrite IH. destruct (gesture_eqb k' k) eqn:E2; [|reflexivity].
      apply gesture_eqb_spec in E2; subst k'.
      destruct (gesture_eqb g k) eqn:E3; [|lia].
      apply gesture_eqb_spec in E3; subst g. rewrite gesture_eqb_refl in E1; discriminate.
Qed.

Lemma count_of_fold h c k :
  count_of (fold_left add_count h c) k = (count_of c k + gcount h k)%nat.
Proof.
  revert c; induction h as [|g h IH]; intro c; simpl.
  - unfold gcount; simpl; lia.
  - rewrite IH, count_of_add. unfold gcount; simpl.
    destruct (gesture_eqb g k); simpl; lia.
Qed.

Lemma count_of_gestureCounts h k : count_of (gestureCounts h) k = gcount h k.
Proof. unfold gestureCounts. rewrite count_of_fold. reflexivity. Qed.

Lemma keys_add c g k : In k (map fst (add_count c g)) <-> In k (map fst c) \/ k = g.
Proof.
  induction c as [|[k' n] c IH]; simpl.
  - split; [intros [->|[]]; now right | intros [[]| ->]; now left].
  - destruct (gesture_eqb k' g) eqn:E; simpl.
    + apply gesture_eqb_spec in E; subst k'. intuition.
    + rewrite IH. tauto.
Qed.

Lemma keys_fold h c k : In k (map fst (fold_left add_count h c)) <-> In k (map fst c) \/ In k h.
Proof.
  revert c; induction h as [|g h IH]; intro c; simpl.
  - tauto.
  - rewrite IH, keys_add. intuition.
Qed.

Lemma gcount_two h a b : a <> b -> (gcount h a + gcount h b <= List.length h)%nat.
Proof.
  intro Hab; induction h as [|g h IH]; unfold gcount in *; simpl; [lia|].
  destruct (gesture_eqb g a) eqn:Ea, (gesture_eqb g b) eqn:Eb; simpl; try lia.
  apply gesture_eqb_spec in Ea; apply gesture_eqb_spec in Eb; congruence.
Qed.

Lemma reduce_strict_max (cnt : gesture -> nat) m ks acc :
  (forall x, x <> m -> (cnt x < cnt m)%nat) ->
  (acc = m \/ In m ks) ->
  fold_left (fun a b => if (cnt b <? cnt a)%nat then a else b) ks acc = m.
Proof.
  intros Hmax; revert acc; induction ks as [|b ks IH]; intros acc Hin; simpl.
  - destruct Hin as [->|[]]; reflexivity.
  - apply IH.
    destruct (Nat.ltb_spec (cnt b) (cnt acc)).
    + destruct Hin as [->|[->|Hin]]; [now left| |now right].
      destruct (gesture_eqb acc m) eqn:E.
      * apply gesture_eqb_spec in E. now left.
      * assert (acc <> m) as Ha by (intro; subst; rewrite gesture_eqb_refl in E; discriminate).
        specialize (Hmax acc Ha); lia.
    + destruct Hin as [->|[->|Hin]]; [|now left|now right].
      destruct (gesture_eqb b m) eqn:E.
      * apply gesture_eqb_spec in E. now left.
      * assert (b <> m) as Hb by (intro; subst; rewrite gesture_eqb_refl in E; discriminate).
        specialize (Hmax b Hb); lia.
Qed.

Lemma gcount_in h m : (0 < gcount h m)%nat -> In m h.
Proof.
  unfold gcount; induction h as [|g h IH]; simpl; [lia|].
  destruct (gesture_eqb g m) eqn:E; intro H.
  - apply gesture_eqb_spec in E; now left.
  - right; now apply IH.
Qed.

(** The vote returns a gesture that fills more than half of the window. *)
Lemma mostCommon_majority h m :
  (List.length h < 2 * gcount h m)%nat -> mostCommon (gestureCounts h) = Some m.
Proof.
  intro Hm. unfold mostCommon.
  assert (In m h) as Hin.
  { apply gcount_in. lia. }
  assert (In m (map fst (gestureCounts h))) as Hk.
  { unfold gestureCounts; apply keys_fold; now right. }
  destruct (map fst (gestureCounts h)) as [|k ks] eqn:Ek; [destruct Hk|].
  f_equal. apply reduce_strict_max; [|exact Hk].
  intros x Hx. rewrite !count_of_gestureCounts.
  pose proof (gcount_two h x m Hx); lia.
Qed.

Lemma updateGesture_history g s :
  gestureHistory (updateGesture g s) = window (gestureHistory s ++ [g]).
Proof.
  unfold updateGesture. simpl.
  destruct (mostCommon _) as [m|]; [|reflexivity].
  destruct (_ && _); [|reflexivity]. destruct m; reflexivity.
Qed.

Lemma updateGesture_running g s : isRunning (updateGesture g s) = isRunning s.
Proof.
  unfold updateGesture. simpl.
  destruct (mostCommon _) as [m|]; [|reflexivity].
  destruct (_ && _); [|reflexivity]. destruct m; reflexivity.
Qed.

Lemma window_length h g :
  (List.length h <= 5)%nat -> (List.length (window (h ++ [g])) <= 5)%nat.
Proof.
  intro H. unfold window, gestureHistorySize. rewrite length_app; simpl.
  destruct (Nat.ltb_spec 5 (List.length h + 1)).
  - destruct h; simpl in *; [lia|]. rewrite length_app; simpl; lia.
  - rewrite length_app; simpl; lia.
Qed.

Lemma window_suffix p sfx g :
  (List.length (p ++ sfx) <= 5)%nat -> (List.length sfx < 5)%nat ->
  exists p', window (p ++ sfx ++ [g]) = p' ++ sfx ++ [g].
Proof.
  intros H1 H2. unfold window, gestureHistorySize.
  rewrite length_app, length_app in *; simpl.
  destruct (Nat.ltb_spec 5 (List.length p + (List.length sfx + 1))).
  - destruct p as [|x p]; simpl in *; [lia|]. now exists p.
  - now exists p.
Qed.

End GestureFacts.

Module GestureThms.
Import Gesture GestureObs GestureFacts.

Lemma run_gop_history_bound o s :
  (List.length (gestureHistory s) <= 5)%nat ->
  (List.length (gestureHistory (run_gop o s)) <= 5)%nat.
Proof.
  intro H; destruct o; simpl.
  - exact H.
  - unfold start; destruct (isModelLoaded s), (isRunning s), webcam; simpl; exact H.
  - unfold stop; destruct (isRunning s); simpl; exact H.
  - unfold detectGesture; destruct (isRunning s); simpl; [|exact H].
    destruct predictions as [|hd tl].
    + rewrite updateGesture_history; now apply window_length.
    + destruct (drawHandLandmarks hd); [|exact H].
      destruct (recognizeGesture hd); [|exact H].
      rewrite updateGesture_history; now apply window_length.
  - unfold pulseTimeout; destruct (pulseTimers s); simpl; exact H.
Qed.

Lemma onGestureChange_palette g s :
  (Vis.colorPalette (commands s) < 3)%nat ->
  (Vis.colorPalette (commands (onGestureChange g s)) < 3)%nat.
Proof.
  intro H; destruct g; cbn -[Nat.modulo]; try exact H. apply Nat.mod_upper_bound; lia.
Qed.

Lemma updateGesture_palette g s :
  (Vis.colorPalette (commands s) < 3)%nat ->
  (Vis.colorPalette (commands (updateGesture g s)) < 3)%nat.
Proof.
  intro H; unfold updateGesture; simpl.
  destruct (mostCommon _) as [m|]; [|exact H].
  destruct (_ && _); [|exact H]. now apply onGestureChange_palette.
Qed.

Lemma run_gop_palette o s :
  (Vis.colorPalette (commands s) < 3)%nat ->
  (Vis.colorPalette (commands (run_gop o s)) < 3)%nat.
Proof.
  intro H; destruct o; simpl.
  - exact H.
  - unfold start; destruct (isModelLoaded s), (isRunning s), webcam; simpl; exact H.
  - unfold stop; destruct (isRunning s); simpl; exact H.
  - unfold detectGesture; destruct (isRunning s); simpl; [|exact H].
    destruct predictions as [|hd tl]; [now apply updateGesture_palette|].
    destruct (drawHandLandmarks hd); [|exact H].
    destruct (recognizeGesture hd); [now apply updateGesture_palette|exact H].
  - unfold pulseTimeout; destruct (pulseTimers s); simpl; exact H.
Qed.

Lemma grun_palette ops s :
  (Vis.colorPalette (commands s) < 3)%nat ->
  (Vis.colorPalette (commands (grun ops s)) < 3)%nat.
Proof.
  revert s; induction ops as [|o ops IH]; intros s H; [exact H|].
  apply IH. now apply run_gop_palette.
Qed.

Lemma grun_cons o ops s : grun (o :: ops) s = grun ops (run_gop o s).
Proof. reflexivity. Qed.

Lemma updateGesture_majority g s m :
  mostCommon (gestureCounts (window (gestureHistory s ++ [g]))) = Some m ->
  m <> unknown -> m <> none ->
  currentGesture (updateGesture g s) = m.
Proof.
  intros Hm Hu Hn. unfold updateGesture; simpl. rewrite Hm.
  destruct (gesture_eqb m (currentGesture s)) eqn:E; simpl.
  - symmetry; now apply gesture_eqb_spec.
  - assert (gesture_eqb m unknown = false) as ->
      by (destruct (gesture_eqb m unknown) eqn:F; [apply gesture_eqb_spec in F; congruence|reflexivity]).
    assert (gesture_eqb m none = false) as ->
      by (destruct (gesture_eqb m none) eqn:F; [apply gesture_eqb_spec in F; congruence|reflexivity]).
    destruct m; reflexivity.
Qed.

Lemma gcount_app h1 h2 k : gcount (h1 ++ h2) k = (gcount h1 k + gcount h2 k)%nat.
Proof. unfold gcount. rewrite filter_app, length_app. reflexivity. Qed.

Lemma detect_recognized hand g s :
  isRunning s = true -> drawHandLandmarks hand = Ok tt -> recognizeGesture hand = Ok g ->
  detectGesture [hand] s = updateGesture g s.
Proof. intros Hr Hd Hg. unfold detectGesture. rewrite Hr, Hd, Hg. reflexivity. Qed.

Lemma draw_connections_in l cs :
  draw_connections l cs = Ok tt ->
  forall a b, In (a, b) cs -> (b < List.length l)%nat.
Proof.
  induction cs as [|[x y] cs IH]; simpl; [tauto|].
  unfold get_landmark.
  destruct (nth_error l x) eqn:Ex; simpl; [|discriminate].
  destruct (nth_error l y) eqn:Ey; simpl; [|discriminate].
  intros H a b [E|Hin].
  - injection E as -> ->. apply nth_error_Some. congruence.
  - eapply IH; eauto.
Qed.

End GestureThms.

Module GestureExtras.
Import Gesture GestureObs GestureFacts GestureThms.

(** The smoothing window never holds more than [gestureHistorySize] (5)
    gestures, whatever the controller's events. *)
Theorem gesture_history_bounded (ops : list gop) (s : gstate) :
  (List.length (gestureHistory s) <= 5)%nat ->
  (List.length (gestureHistory (grun ops s)) <= 5)%nat.
Proof.
  revert s; induction ops as [|o ops IH]; intros s H; [exact H|].
  rewrite grun_cons. apply IH. now apply run_gop_history_bound.
Qed.

Lemma gesture_history_bounded_witness :
  (List.length (gestureHistory init) <= 5)%nat /\
  (List.length (gestureHistory
     (grun [ModelLoaded; Start true; Detect [palmHand]; Detect []; Detect [];
            Detect []; Detect []; Detect [fistHand]] init)) <= 5)%nat.
Proof. split; [simpl; lia | apply gesture_history_bounded; simpl; lia]. Defined.

(** The palette index of the commands stays in [0, 1, 2]. *)
Theorem gesture_palette_in_range (ops : list gop) (s : gstate) :
  (Vis.colorPalette (commands s) < 3)%nat ->
  (Vis.colorPalette (commands (grun ops s)) < 3)%nat.
Proof.
  apply grun_palette.
Qed.

Lemma gesture_palette_in_range_witness :
  (Vis.colorPalette (commands init) < 3)%nat /\
  (Vis.colorPalette (commands (grun [ModelLoaded; Start true] init)) < 3)%nat.
Proof. split; [simpl; lia | apply gesture_palette_in_range; simpl; lia]. Defined.

(** Three detection frames in a row that recognize the same gesture
    (other than [unknown]) make it the current gesture. *)
Theorem gesture_selected_after_three_frames (hand : list landmark) (g : gesture)
    (s : gstate) :
  isRunning s = true -> (List.length (gestureHistory s) <= 5)%nat ->
  drawHandLandmarks hand = Ok tt -> recognizeGesture hand = Ok g ->
  g <> unknown ->
  currentGesture (grun [Detect [hand]; Detect [hand]; Detect [hand]] s) = g.
Proof.
  intros Hr Hl Hd Hg Hu.
  assert (g <> none) as Hn.
  { intro; subst g. unfold recognizeGesture in Hg.
    destruct (getFingerExtensions hand); simpl in Hg; [|discriminate].
    repeat match type of Hg with context [if ?c then _ else _] => destruct c end;
      discriminate. }
  unfold grun; simpl.
  rewrite (detect_recognized hand g s Hr Hd Hg).
  set (s1 := updateGesture g s).
  assert (isRunning s1 = true) as Hr1 by (unfold s1; now rewrite updateGesture_running).
  rewrite (detect_recognized hand g s1 Hr1 Hd Hg).
  set (s2 := updateGesture g s1).
  assert (isRunning s2 = true) as Hr2 by (unfold s2; now rewrite updateGesture_running).
  rewrite (detect_recognized hand g s2 Hr2 Hd Hg).
  apply updateGesture_majority; [|exact Hu|exact Hn].
  destruct (window_suffix (gestureHistory s) [] g ltac:(rewrite app_nil_r; exact Hl)
    ltac:(simpl; lia)) as [p1 E1].
  simpl in E1.
  assert (gestureHistory s2 = window (gestureHistory s1 ++ [g])) as H2
    by (unfold s2; apply updateGesture_history).
  assert (gestureHistory s1 = p1 ++ [g]) as H1
    by (unfold s1; rewrite updateGesture_history; exact E1).
  pose proof (window_length (gestureHistory s) g Hl) as L1.
  rewrite <- updateGesture_history in L1; fold s1 in L1.
  pose proof (window_length (gestureHistory s1) g L1) as L2.
  rewrite <- updateGesture_history in L2; fold s2 in L2.
  destruct (window_suffix p1 [g] g ltac:(rewrite <- H1; exact L1) ltac:(simpl; lia))
    as [p2 E2].
  assert (gestureHistory s2 = p2 ++ [g; g]) as E2'
    by (rewrite H2, H1, <- app_assoc; exact E2).
  destruct (window_suffix p2 [g; g] g ltac:(rewrite <- E2'; exact L2) ltac:(simpl; lia))
    as [p3 E3].
  pose proof (window_length (gestureHistory s2) g L2) as L3.
  rewrite E2', <- app_assoc in *. rewrite E3 in *.
  apply mostCommon_majority.
  rewrite gcount_app.
  assert (gcount ([g; g] ++ [g]) g = 3%nat) as ->
    by (unfold gcount; simpl; rewrite gesture_eqb_refl; reflexivity).
  rewrite !length_app in *; simpl in *. lia.
Qed.
Lemma gesture_selected_after_three_frames_witness :
  currentGesture (grun [Detect [fistHand]; Detect [fistHand]; Detect [fistHand]]
                   (grun [ModelLoaded; Start true] init)) = fist.
Proof.
  apply gesture_selected_after_three_frames;
    [reflexivity | simpl; lia | vm_compute; reflexivity | vm_compute; reflexivity |
     discriminate].
Defined.

(** While the current gesture fills more than half of the window (after
    the push), a frame changes nothing but the window: no switch, no
    command. *)
Theorem gesture_majority_keeps_state (g : gesture) (s : gstate) :
  let w := window (gestureHistory s ++ [g]) in
  (List.length w < 2 * gcount w (currentGesture s))%nat ->
  updateGesture g s = set_history w s.
Proof.
  intros w Hw. unfold updateGesture; simpl. fold w.
  rewrite (mostCommon_majority w (currentGesture s) Hw), gesture_eqb_refl.
  reflexivity.
Qed.

Lemma gesture_majority_keeps_state_witness :
  let s := mkG true true fist none [fist; fist; fist; palm; fist]
             (Vis.mkCommands true false 1) 0 in
  let w := window (gestureHistory s ++ [palm]) in
  (List.length w < 2 * gcount w (currentGesture s))%nat /\
  updateGesture palm s = set_history w s.
Proof.
  intros s w. split; [vm_compute; lia | apply gesture_majority_keeps_state; vm_compute; lia].
Defined.

(** A hand with fewer than 21 landmarks makes [drawHandLandmarks] throw;
    the frame is dropped and the state stays as it was. *)
Theorem short_hand_frame_ignored (hand : list landmark) (rest : list (list landmark))
    (s : gstate) :
  (List.length hand < 21)%nat -> detectGesture (hand :: rest) s = s.
Proof.
  intro Hl. unfold detectGesture.
  destruct (isRunning s); [simpl|reflexivity].
  destruct (drawHandLandmarks hand) as [[]|] eqn:Hd; [|reflexivity].
  exfalso. pose proof (draw_connections_in hand connections Hd 19 20) as H.
  assert (In (19%nat, 20%nat) connections) as Hin by (simpl; tauto).
  specialize (H Hin). lia.
Qed.

Lemma short_hand_frame_ignored_witness :
  let s := grun [ModelLoaded; Start true] init in
  (List.length (firstn 20 palmHand) < 21)%nat /\
  detectGesture [firstn 20 palmHand] s = s.
Proof.
  intro s. split; [vm_compute; lia | apply short_hand_frame_ignored; vm_compute; lia].
Defined.

End GestureExtras.

Module SafetyFacts.
Import Vis Loops Observations FrameFacts CountFacts.

Lemma palette_of_lt n : (n < 3)%nat -> exists p, palette_of n = Some p.
Proof. intro H. destruct n as [|[|[|n]]]; [eexists; reflexivity..|lia]. Qed.

Lemma palette_of_ge n : (3 <= n)%nat -> palette_of n = None.
Proof. intro H. unfold palette_of. apply nth_error_None. simpl. lia. Qed.

Lemma for_range_ok (P : vstate -> Prop) (step : nat -> vstate -> js_result vstate) n :
  forall i s,
  (forall k u, (i <= k < i + n)%nat -> P u -> exists u', step k u = Ok u' /\ P u') ->
  P s -> exists t, for_range n i step s = Ok t /\ P t.
Proof.
  induction n as [|n IH]; intros i s Hstep Hs; simpl; [now exists s|].
  destruct (Hstep i s ltac:(lia) Hs) as [u [-> Hu]]. cbn [js_bind].
  apply IH; [|exact Hu]. intros k w Hk Hw. apply Hstep; [lia|exact Hw].
Qed.

Lemma nth_error_lt {A : Type} (l : list A) k :
  (k < List.length l)%nat -> exists x, nth_error l k = Some x.
Proof.
  intro H. destruct (nth_error l k) eqn:E; [eauto|].
  apply nth_error_None in E. lia.
Qed.

Lemma particle_loop_ok N body s :
  shape N s ->
  (forall i p v c r, exists o, body i p v c r = Ok o) ->
  exists t, for_range N 0 (particle_step body) s = Ok t /\ shape N t.
Proof.
  intros Hs Hb. apply for_range_ok; [|exact Hs].
  intros k u Hk Hu. pose proof Hu as [_ [Lp [Lv [Lc _]]]].
  destruct (nth_error_lt (particlePositions u) k ltac:(lia)) as [p Ep].
  destruct (nth_error_lt (particleVelocities u) k ltac:(lia)) as [v Ev].
  destruct (nth_error_lt (particleColors u) k ltac:(lia)) as [c Ec].
  destruct (Hb k p v c (rngCalls u)) as [o Eo].
  exists (write_particle k o u). split; [|now apply write_particle_shape].
  unfold particle_step. rewrite Ep, Ev, Ec, Eo. reflexivity.
Qed.

Ltac body_ok Hp :=
  intros i p v c r; destruct Hp as [pal Hpal];
  repeat match goal with |- context [if ?b then _ else _] => destruct b end;
  cbv zeta; rewrite Hpal; cbn [with_palette]; eexists; reflexivity.

Lemma generic_body_ok fd average beat bi s :
  (exists p, palette_of (currentPalette s) = Some p) ->
  forall i p v c r, exists o, generic_body fd average beat bi s i p v c r = Ok o.
Proof. intro Hp. unfold generic_body. body_ok Hp. Qed.

Lemma cosmic_body_ok M fd beat bi s :
  (exists p, palette_of (currentPalette s) = Some p) ->
  forall i p v c r, exists o, cosmic_body M fd beat bi s i p v c r = Ok o.
Proof. intro Hp. unfold cosmic_body. body_ok Hp. Qed.

Lemma pulse_body_ok M fd beat bi s :
  (exists p, palette_of (currentPalette s) = Some p) ->
  forall i p v c r, exists o, pulse_body M fd beat bi s i p v c r = Ok o.
Proof. intro Hp. unfold pulse_body. body_ok Hp. Qed.

Lemma chaos_body_ok M fd beat bi s :
  (exists p, palette_of (currentPalette s) = Some p) ->
  forall i p v c r, exists o, chaos_body M fd beat bi s i p v c r = Ok o.
Proof. intro Hp. unfold chaos_body. destruct beat; body_ok Hp. Qed.

Lemma minimal_inner_ok N s0 palette pal ppb bar fv bh n :
  palette = Some pal -> particleCount s0 = N ->
  forall p s, shape N s ->
  exists t, minimal_inner s0 palette ppb bar fv bh n p s = Ok t /\ shape N t.
Proof.
  intros Hpal HN. induction n as [|n IH]; intros p s Hs; simpl; [now exists s|].
  destruct (Nat.leb_spec (particleCount s0) (bar * ppb + p)); [now exists s|].
  pose proof Hs as [_ [Lp [_ [Lc _]]]].
  destruct (nth_error_lt (particlePositions s) (bar * ppb + p) ltac:(lia)) as [q Eq].
  destruct (nth_error_lt (particleColors s) (bar * ppb + p) ltac:(lia)) as [c Ec].
  assert (exists u, minimal_step s0 palette ppb bar fv bh p s = Ok u) as [u Eu].
  { unfold minimal_step. rewrite Eq, Ec, Hpal. cbn [with_palette js_bind].
    eexists; reflexivity. }
  rewrite Eu. cbn [js_bind]. apply IH. eapply minimal_step_shape; eassumption.
Qed.

Lemma minimal_bars_ok N fd s0 palette pal ppb n :
  palette = Some pal -> particleCount s0 = N ->
  forall bar s, shape N s ->
  exists t, minimal_bars fd s0 palette ppb n bar s = Ok t /\ shape N t.
Proof.
  intros Hpal HN. induction n as [|n IH]; intros bar s Hs; simpl; [now exists s|].
  match goal with |- context [minimal_inner s0 palette ppb bar ?fv ?bh ppb 0 s] =>
    destruct (minimal_inner_ok N s0 palette pal ppb bar fv bh ppb Hpal HN 0 s Hs)
      as [u [Eu Hu]] end.
  rewrite Eu. cbn [js_bind]. now apply IH.
Qed.

Lemma colors_ok N fd average s :
  shape N s -> (exists p, palette_of (currentPalette s) = Some p) ->
  exists t, updateParticleColors fd average s = Ok t.
Proof.
  intros Hs [pal Hpal]. pose proof Hs as [HN _].
  destruct (for_range_ok (shape N) (colors_step fd average s) (particleCount s) 0 s)
    as [t [Et _]]; [|exact Hs|now exists t].
  intros k u Hk Hu. pose proof Hu as [_ [_ [_ [Lc _]]]].
  destruct (nth_error_lt (particleColors u) k ltac:(lia)) as [c Ec].
  unfold colors_step. rewrite Ec, Hpal. cbn [with_palette js_bind].
  eexists; split; [reflexivity|]. unfold shape in *; cbn.
  rewrite !Loops.length_set_nth. tauto.
Qed.

Lemma runMode_ok N M fd average beat bi s :
  shape N s -> (exists p, palette_of (currentPalette s) = Some p) ->
  exists t, runMode M fd average beat bi s = Ok t.
Proof.
  intros Hs Hp. pose proof Hs as [HN _]. unfold runMode.
  assert (forall body, (forall i p v c r, exists o, body i p v c r = Ok o) ->
          exists t, for_range (particleCount s) 0 (particle_step body) s = Ok t) as Hl.
  { intros body Hb. rewrite HN.
    destruct (particle_loop_ok N body s Hs Hb) as [t [Et _]]. now exists t. }
  destruct (String.eqb (visualMode s) "cosmic"%string);
    [apply Hl, cosmic_body_ok, Hp|].
  destruct (String.eqb (visualMode s) "neural"%string).
  - unfold updateParticlesNeural.
    destruct (Hl _ (generic_body_ok fd average beat bi s Hp)) as [t Et].
    unfold updateParticles. rewrite Et. cbn [js_bind]. eexists; reflexivity.
  - destruct (String.eqb (visualMode s) "pulse"%string);
      [apply Hl, pulse_body_ok, Hp|].
    destruct (String.eqb (visualMode s) "chaos"%string);
      [apply Hl, chaos_body_ok, Hp|].
    destruct (String.eqb (visualMode s) "minimal"%string);
      [|apply Hl, generic_body_ok, Hp].
    destruct Hp as [pal Hpal]. unfold updateParticlesMinimal.
    destruct (minimal_bars_ok N fd s _ pal (particlesPerBar (particleCount s)) barCount
                Hpal HN 0 s Hs) as [t [Et _]].
    now exists t.
Qed.

Lemma decayPulse_mode s : visualMode (decayPulse s) = visualMode s.
Proof.
  unfold decayPulse, decay_step; cbn.
  destruct (0.1 <? pulseIntensity s * 0.85); reflexivity.
Qed.

Lemma processGestureCommands_palette c beat bi s :
  currentPalette (processGestureCommands c beat bi s) = colorPalette c /\
  visualMode (processGestureCommands c beat bi s) = visualMode s.
Proof.
  unfold processGestureCommands.
  set (s1 := set_isFrozen (freeze c) s).
  set (s2 := if pulse c && negb (pulseEffect s1) then triggerPulse bi s1 else s1).
  assert (visualMode s2 = visualMode s) as Hm.
  { subst s2; destruct (pulse c && negb (pulseEffect s1)); [|reflexivity].
    unfold triggerPulse; rewrite decayPulse_mode; reflexivity. }
  destruct (Nat.eqb (colorPalette c) (currentPalette s2)) eqn:E.
  - apply Nat.eqb_eq in E. split; [symmetry; exact E | exact Hm].
  - split; [reflexivity | exact Hm].
Qed.

Lemma updateCameraShake_palette M bass beat s :
  currentPalette (updateCameraShake M bass beat s) = currentPalette s.
Proof.
  unfold updateCameraShake.
  destruct (gtf ((if beat then bass * 10 else cameraShakeIntensity s) * 0.9) 0.1);
    reflexivity.
Qed.

(** After [prepare], the palette index is the gesture's, or the previous
    one without gestures; the mode is unchanged. *)
Lemma prepare_palette M a cmds s :
  currentPalette (prepare M a cmds s) =
    match cmds with Some c => colorPalette c | None => currentPalette s end /\
  visualMode (prepare M a cmds s) = visualMode s.
Proof.
  unfold prepare; cbv zeta.
  match goal with |- context [set_trebleIntensity ?x ?y] =>
    set (s1 := set_trebleIntensity x y) end.
  match goal with |- context [match cmds with Some c => @?f c | None => s1 end] =>
    set (s2 := match cmds with Some c => f c | None => s1 end) end.
  assert (currentPalette s2 =
            match cmds with Some c => colorPalette c | None => currentPalette s end /\
          visualMode s2 = visualMode s) as [H1 H2].
  { subst s2; destruct cmds as [c|]; [|split; reflexivity].
    exact (processGestureCommands_palette c _ _ s1). }
  destruct (updateCameraShake_fields M (Audio.band (Audio.bands a) "bass"%string)
              (Audio.beatFlag a) s2) as [_ [_ Hm]].
  cbn. rewrite updateCameraShake_palette. split; [exact H1|rewrite Hm; exact H2].
Qed.

(** [update] returns normally on a visualizer of good shape whose palette
    index, and that of the gesture commands, is 0, 1 or 2. *)
Lemma update_ok N M a cmds s :
  shape N s -> (currentPalette s < 3)%nat ->
  match cmds with Some c => (colorPalette c < 3)%nat | None => True end ->
  exists t, update M a cmds s = Ok t.
Proof.
  intros Hs Hp Hc. unfold update.
  destruct a as [a|]; [|now exists s].
  destruct (isRunning s); cbn [negb]; [|now exists s]. cbv zeta.
  assert (Hs' : shape N (prepare M a cmds s))
    by (eapply shape_same; [apply prepare_fields|exact Hs]).
  assert (Hp' : exists p, palette_of (currentPalette (prepare M a cmds s)) = Some p).
  { apply palette_of_lt. rewrite (proj1 (prepare_palette M a cmds s)).
    destruct cmds; assumption. }
  destruct (isFrozen (prepare M a cmds s)); cbn [negb].
  - destruct (colors_ok N (Audio.frequencyData a) (Audio.average a) _ Hs' Hp') as [t ->].
    cbn [js_bind]. eexists; reflexivity.
  - destruct (runMode_ok N M (Audio.frequencyData a) (Audio.average a) (Audio.beatFlag a)
                (Audio.beatIntensity a) _ Hs' Hp') as [t ->].
    cbn [js_bind]. eexists; reflexivity.
Qed.

Ltac body_err Hpal :=
  intros i p v c r;
  repeat match goal with |- context [if ?b then _ else _] => destruct b end;
  cbv zeta; rewrite Hpal; reflexivity.

Lemma bodies_err M fd average beat bi s :
  palette_of (currentPalette s) = None ->
  (forall i p v c r, generic_body fd average beat bi s i p v c r = TypeError) /\
  (forall i p v c r, cosmic_body M fd beat bi s i p v c r = TypeError) /\
  (forall i p v c r, pulse_body M fd beat bi s i p v c r = TypeError) /\
  (forall i p v c r, chaos_body M fd beat bi s i p v c r = TypeError).
Proof.
  intro Hpal. repeat split.
  - unfold generic_body; body_err Hpal.
  - unfold cosmic_body; body_err Hpal.
  - unfold pulse_body; body_err Hpal.
  - unfold chaos_body; destruct beat; body_err Hpal.
Qed.

Lemma particle_loop_err N body s :
  shape N s -> (0 < N)%nat ->
  (forall i p v c r, body i p v c r = TypeError) ->
  for_range N 0 (particle_step body) s = TypeError.
Proof.
  intros Hs HN Hb. pose proof Hs as [_ [Lp [Lv [Lc _]]]].
  destruct N as [|N]; [lia|]. simpl.
  destruct (nth_error_lt (particlePositions s) 0 ltac:(lia)) as [p Ep].
  destruct (nth_error_lt (particleVelocities s) 0 ltac:(lia)) as [v Ev].
  destruct (nth_error_lt (particleColors s) 0 ltac:(lia)) as [c Ec].
  unfold particle_step. rewrite Ep, Ev, Ec, Hb. reflexivity.
Qed.

End SafetyFacts.

Module VisExtras.
Import Vis Observations SafetyFacts.

(** A frame never throws on a visualizer whose four particle arrays hold
    [particleCount] entries and whose palette index, and that of the
    gesture commands if any, is 0, 1 or 2. *)
Theorem update_never_throws (N : nat) (M : JSMath) (a : option Audio.audioData)
    (cmds : option gestureCommands) (s : vstate) :
  shape N s -> (currentPalette s < 3)%nat ->
  match cmds with Some c => (colorPalette c < 3)%nat | None => True end ->
  exists t, update M a cmds s = Ok t.
Proof. apply update_ok. Qed.

Lemma update_never_throws_witness :
  shape 1 (Fixtures.single (mkVec3 3 4 0) "chaos"%string) /\
  (currentPalette (Fixtures.single (mkVec3 3 4 0) "chaos"%string) < 3)%nat /\
  (colorPalette (mkCommands false true 2) < 3)%nat /\
  exists t, update Fixtures.M0 (Fixtures.frame_of Fixtures.silence)
              (Some (mkCommands false true 2))
              (Fixtures.single (mkVec3 3 4 0) "chaos"%string) = Ok t.
Proof.
  split; [repeat split|]. split; [simpl; lia|]. split; [simpl; lia|].
  apply (update_never_throws 1); [repeat split | simpl; lia | simpl; lia].
Defined.

(** With at least one particle, a running frame throws when the palette
    index in force is 3 or more, unless Minimal mode draws the frame
    (it only reads the palette when a bar has particles). *)
Theorem update_throws_on_bad_palette (N : nat) (M : JSMath) (a : Audio.audioData)
    (cmds : option gestureCommands) (s : vstate) :
  shape N s -> (0 < N)%nat -> isRunning s = true ->
  (3 <= match cmds with Some c => colorPalette c | None => currentPalette s end)%nat ->
  (match cmds with Some c => freeze c | None => isFrozen s end = true \/
   visualMode s <> "minimal"%string) ->
  update M (Some a) cmds s = TypeError.
Proof.
  intros Hs HN Hr Hp Hm. unfold update. rewrite Hr. cbn [negb]. cbv zeta.
  set (s' := prepare M a cmds s).
  assert (Hs' : shape N s') by (eapply CountFacts.shape_same; [apply FrameFacts.prepare_fields|exact Hs]).
  destruct (prepare_palette M a cmds s) as [P1 P2]. fold s' in P1, P2.
  assert (Hpal : palette_of (currentPalette s') = None)
    by (apply palette_of_ge; rewrite P1; exact Hp).
  destruct (FrameFacts.prepare_fields M a cmds s) as [_ Hf]. fold s' in Hf.
  pose proof Hs' as [HN' [_ [_ [Lc _]]]].
  destruct (isFrozen s') eqn:Ef; cbn [negb].
  - unfold updateParticleColors. rewrite HN'. destruct N as [|N]; [lia|]. simpl.
    destruct (nth_error_lt (particleColors s') 0 ltac:(lia)) as [c Ec].
    unfold colors_step. rewrite Ec, Hpal. reflexivity.
  - assert (visualMode s' <> "minimal"%string) as Hnm.
    { rewrite P2. destruct Hm as [Hm|Hm]; [|exact Hm]. congruence. }
    destruct (bodies_err M (Audio.frequencyData a) (Audio.average a) (Audio.beatFlag a)
                (Audio.beatIntensity a) s' Hpal) as [B1 [B2 [B3 B4]]].
    unfold runMode, updateParticlesCosmic, updateParticlesNeural, updateParticlesPulse,
      updateParticlesChaos, updateParticles.
    rewrite HN'.
    rewrite (particle_loop_err N _ s' Hs' HN B1), (particle_loop_err N _ s' Hs' HN B2),
      (particle_loop_err N _ s' Hs' HN B3), (particle_loop_err N _ s' Hs' HN B4).
    destruct (String.eqb (visualMode s') "cosmic"%string); [reflexivity|].
    destruct (String.eqb (visualMode s') "neural"%string); [reflexivity|].
    destruct (String.eqb (visualMode s') "pulse"%string); [reflexivity|].
    destruct (String.eqb (visualMode s') "chaos"%string); [reflexivity|].
    destruct (String.eqb (visualMode s') "minimal"%string) eqn:Em; [|reflexivity].
    apply String.eqb_eq in Em. contradiction.
Qed.

Lemma update_throws_on_bad_palette_witness :
  let s := Fixtures.single (mkVec3 3 4 0) "cosmic"%string in
  let c := mkCommands false false 3 in
  shape 1 s /\ (0 < 1)%nat /\ isRunning s = true /\ (3 <= colorPalette c)%nat /\
  (freeze c = true \/ visualMode s <> "minimal"%string) /\
  update Fixtures.M0 (Some Audio.zeroData) (Some c) s = TypeError.
Proof.
  intros s c.
  assert (shape 1 s) as Hs by (repeat split).
  assert (freeze c = true \/ visualMode s <> "minimal"%string) as Hm
    by (right; discriminate).
  split; [exact Hs|]. split; [lia|]. split; [reflexivity|]. split; [simpl; lia|].
  split; [exact Hm|].
  apply (update_throws_on_bad_palette 1); [exact Hs|lia|reflexivity|simpl; lia|exact Hm].
Defined.

(** The commands a gesture controller hands over, whatever it has seen,
    never make a frame throw on a well-shaped visualizer with a valid
    palette. *)
Theorem gesture_commands_never_break_update (N : nat) (M : JSMath)
    (a : option Audio.audioData) (ops : list Gesture.gop) (s : vstate) :
  shape N s -> (currentPalette s < 3)%nat ->
  exists t, update M a (Some (Gesture.commands (Gesture.grun ops Gesture.init))) s = Ok t.
Proof.
  intros Hs Hp. apply (update_ok N); [exact Hs|exact Hp|].
  apply GestureThms.grun_palette. simpl; lia.
Qed.

Lemma gesture_commands_never_break_update_witness :
  exists t, update Fixtures.M0 (Fixtures.frame_of Fixtures.silence)
              (Some (Gesture.commands (Gesture.grun [] Gesture.init)))
              (Fixtures.single (mkVec3 3 4 0) "pulse"%string) = Ok t.
Proof. apply (gesture_commands_never_break_update 1); [repeat split | simpl; lia]. Defined.

End VisExtras.

Module ModeFacts.
Import Vis Loops Observations.

Lemma minimal_step_vel s0 pal ppb bar fv bh p s t :
  minimal_step s0 pal ppb bar fv bh p s = Ok t ->
  particleVelocities t = particleVelocities s /\ rngCalls t = rngCalls s /\
  particleCount t = particleCount s.
Proof.
  unfold minimal_step.
  destruct (nth_error (particlePositions s) (bar * ppb + p)); [|discriminate].
  destruct (nth_error (particleColors s) (bar * ppb + p)); [|discriminate].
  destruct pal; simpl; [|discriminate].
  intro H. injection H as <-. repeat split.
Qed.

Lemma minimal_inner_vel s0 pal ppb bar fv bh n p s t :
  minimal_inner s0 pal ppb bar fv bh n p s = Ok t ->
  particleVelocities t = particleVelocities s /\ rngCalls t = rngCalls s.
Proof.
  revert p s; induction n as [|n IH]; intros p s H; simpl in H.
  - injection H as <-. split; reflexivity.
  - destruct (particleCount s0 <=? bar * ppb + p)%nat; [injection H as <-; split; reflexivity|].
    destruct (minimal_step s0 pal ppb bar fv bh p s) as [u|] eqn:E; [|discriminate].
    destruct (minimal_step_vel _ _ _ _ _ _ _ _ _ E) as [A [B _]].
    destruct (IH _ _ H) as [C D]. split; congruence.
Qed.

Lemma minimal_bars_vel fd s0 pal ppb n bar s t :
  minimal_bars fd s0 pal ppb n bar s = Ok t ->
  particleVelocities t = particleVelocities s /\ rngCalls t = rngCalls s.
Proof.
  revert bar s; induction n as [|n IH]; intros bar s H; simpl in H.
  - injection H as <-. split; reflexivity.
  - match type of H with js_bind ?r _ = _ => destruct r as [u|] eqn:E end;
      [|discriminate].
    destruct (minimal_inner_vel _ _ _ _ _ _ _ _ _ _ E) as [A B].
    destruct (IH _ _ H) as [C D]. split; congruence.
Qed.

Lemma edge_in ps thr i j e : In e (edge ps thr i j) -> fst (fst e) = i /\ snd (fst e) = j.
Proof.
  unfold edge. cbv zeta.
  match goal with |- context [if ?c then _ else _] => destruct c end; simpl; [|tauto].
  intros [<-|[]]. simpl. split; reflexivity.
Qed.

Lemma scan_j_in ps thr lim i fuel j e :
  In e (scan_j ps thr lim i fuel j) ->
  fst (fst e) = i /\ (j <= snd (fst e) < lim)%nat /\
  exists k, snd (fst e) = (j + 5 * k)%nat.
Proof.
  revert j; induction fuel as [|f IH]; intros j H; simpl in H; [destruct H|].
  destruct (Nat.ltb_spec j lim); [|destruct H].
  apply in_app_or in H as [H|H].
  - apply edge_in in H as [-> ->]. split; [reflexivity|]. split; [lia|]. exists 0%nat; lia.
  - destruct (IH _ H) as [A [B [k C]]]. split; [exact A|]. split; [lia|].
    exists (S k); lia.
Qed.

Lemma scan_i_in ps thr lim fuel i e :
  In e (scan_i ps thr lim fuel i) ->
  exists k l, fst (fst e) = (i + 5 * k)%nat /\
              snd (fst e) = (fst (fst e) + 5 + 5 * l)%nat /\ (snd (fst e) < lim)%nat.
Proof.
  revert i; induction fuel as [|f IH]; intros i H; simpl in H; [destruct H|].
  destruct (Nat.ltb_spec i lim); [|destruct H].
  apply in_app_or in H as [H|H].
  - destruct (scan_j_in _ _ _ _ _ _ _ H) as [A [B [l C]]].
    exists 0%nat, l. split; [lia|]. split; lia.
  - destruct (IH _ H) as [k [l [A [B C]]]].
    exists (S k), l. split; [lia|]. split; lia.
Qed.

Lemma particle_loop_count body n i s t :
  for_range n i (particle_step body) s = Ok t -> particleCount t = particleCount s.
Proof.
  intro H.
  apply (for_range_ind (fun _ u => particleCount u = particleCount s) (particle_step body))
    with (n := n) (i := i) (s := s); [|reflexivity|exact H].
  intros k u u' Hu Hstep. apply particle_step_inv in Hstep.
  destruct Hstep as [p [v [c [o [_ [_ [_ [_ ->]]]]]]]]. exact Hu.
Qed.

End ModeFacts.

Module ModeExtras.
Import Vis Observations ModeFacts.

(** Minimal mode moves, recolors and resizes particles but keeps their
    velocities and never calls [Math.random()]. *)
Theorem minimal_keeps_velocities (fd : list Byte.byte) (s t : vstate) :
  updateParticlesMinimal fd s = Ok t ->
  particleVelocities t = particleVelocities s /\ rngCalls t = rngCalls s.
Proof. intro H. exact (minimal_bars_vel _ _ _ _ _ _ _ _ H). Qed.

Lemma minimal_keeps_velocities_witness :
  let s := construct Fixtures.M0 64 in
  match updateParticlesMinimal Fixtures.silence s with
  | Ok t => particleVelocities t = particleVelocities s /\ rngCalls t = rngCalls s
  | TypeError => False
  end.
Proof.
  intro s. destruct (updateParticlesMinimal Fixtures.silence s) as [t|] eqn:E.
  - exact (minimal_keeps_velocities Fixtures.silence s t E).
  - vm_compute in E. discriminate E.
Defined.

(** Every edge of the Neural network joins two particles whose indices are
    multiples of 5, the first below the second, and both below
    [Math.min(particleCount, 200)]. *)
Theorem neural_edges_in_range (fd : list Byte.byte) (average : float) (beat : bool)
    (bi : float) (s t : vstate) (a b : nat) (o : float) :
  updateParticlesNeural fd average beat bi s = Ok t ->
  In (a, b, o) (particleConnections t) ->
  (a < b < Nat.min (particleCount s) 200)%nat /\ (a mod 5 = 0)%nat /\ (b mod 5 = 0)%nat.
Proof.
  unfold updateParticlesNeural.
  destruct (updateParticles fd average beat bi s) as [u|] eqn:E; [|discriminate].
  cbn [js_bind]. intros H Hin. injection H as <-. cbn in Hin.
  apply scan_i_in in Hin as [k [l [A [B C]]]]. simpl in A, B, C.
  rewrite (particle_loop_count _ _ _ _ _ E) in C.
  assert (forall m, ((5 * m) mod 5 = 0)%nat) as Hm
    by (intro m; rewrite Nat.mul_comm; apply Nat.Div0.mod_mul).
  split; [lia|]. split.
  - replace a with (5 * k)%nat by lia. apply Hm.
  - replace b with (5 * (k + 1 + l))%nat by lia. apply Hm.
Qed.

Lemma neural_edges_in_range_witness :
  let s := construct Fixtures.M0 10 in
  match updateParticlesNeural Fixtures.silence 0 false 0 s with
  | Ok t =>
      match particleConnections t with
      | (a, b, o) :: _ =>
          (a < b < Nat.min (particleCount s) 200)%nat /\ (a mod 5 = 0)%nat /\
          (b mod 5 = 0)%nat
      | [] => False
      end
  | TypeError => False
  end.
Proof.
  intro s. destruct (updateParticlesNeural Fixtures.silence 0 false 0 s) as [t|] eqn:E.
  - destruct (particleConnections t) as [|[[a b] o] rest] eqn:C.
    + vm_compute in E. injection E as <-. vm_compute in C. discriminate C.
    + apply (neural_edges_in_range Fixtures.silence 0 false 0 s t a b o E).
      rewrite C. left; reflexivity.
  - vm_compute in E. discriminate E.
Defined.

End ModeExtras.

Module PresetFacts.
Import Presets.

Lemma applyPreset_locked pow name anim t0 t1 m :
  isTransitioning m = true -> applyPreset pow name anim t0 t1 m = Some m.
Proof.
  intro H. unfold applyPreset. destruct (get_prop presets name); rewrite ?H; reflexivity.
Qed.

Lemma progress_lt_frame pow ir p t m :
  pendingFrame m = Some (ir, p) -> (progress (transitionStart m) t <? 1) = true ->
  frame pow t m =
    mkManager
      (VisExtra.mkViewer
         (Vis.set_cameraRadius
            (ir + (cameraRadius p - ir) *
               (if progress (transitionStart m) t <? 0.5
                then 2 * progress (transitionStart m) t * progress (transitionStart m) t
                else 1 - pow (-2 * progress (transitionStart m) t + 2) 2 / 2))
            (VisExtra.vis (visualizer m)))
         (VisExtra.trailEffect (visualizer m)) (VisExtra.trailOpacity (visualizer m))
         (VisExtra.clearAlpha (visualizer m)))
      (currentPreset m) (isTransitioning m) (transitionStart m) (Some (ir, p)).
Proof.
  intros Hf Hp. unfold frame. rewrite Hf. unfold animate. cbn [transitionStart set_pendingFrame].
  rewrite Hp. reflexivity.
Qed.

Lemma progress_ge_frame pow ir p t m :
  pendingFrame m = Some (ir, p) -> (progress (transitionStart m) t <? 1) = false ->
  exists v, frame pow t m =
    mkManager (applyPresetImmediate p v) (currentPreset m) false (transitionStart m) None.
Proof.
  intros Hf Hp. unfold frame. rewrite Hf. unfold animate. cbn [transitionStart set_pendingFrame].
  rewrite Hp. eexists; reflexivity.
Qed.

Lemma get_prop_presets_name name p :
  get_prop presets name = Own p ->
  In name ["cosmic"; "neural"; "pulse"; "chaos"; "minimal"]%string.
Proof.
  unfold get_prop. destruct (find (fun q => String.eqb (fst q) name) presets) as [[n v]|] eqn:E.
  - intros _. apply find_some in E as [Hin Heq]. simpl in Heq.
    apply String.eqb_eq in Heq. subst n.
    apply (in_map fst) in Hin. exact Hin.
  - destruct (existsb (String.eqb name) objectPrototypeKeys); discriminate.
Qed.

Lemma frames_keep_pending pow ir p t0 ts m :
  pendingFrame m = Some (ir, p) -> transitionStart m = t0 ->
  Forall (fun t => (progress t0 t <? 1) = true) ts ->
  let m' := fold_left (fun m t => frame pow t m) ts m in
  pendingFrame m' = Some (ir, p) /\ transitionStart m' = t0 /\
  currentPreset m' = currentPreset m.
Proof.
  intros Hf Hs Hts. revert m Hf Hs. induction Hts as [|t ts Ht Hts IH]; intros m Hf Hs.
  - simpl. auto.
  - simpl. subst t0. rewrite (progress_lt_frame pow ir p t m Hf Ht).
    match goal with |- context [fold_left _ ts ?m0] =>
      destruct (IH m0) as (H1 & H2 & H3); [reflexivity|reflexivity|] end.
    simpl in H3. split; [exact H1|split; [exact H2|exact H3]].
Qed.

End PresetFacts.

Module PresetExtras.
Import Presets PresetFacts.

(** While a transition runs, no key press changes the preset, the visual
    mode, the camera radius or the transition itself: preset keys and
    randomize are ignored; only the trail and kaleidoscope toggles act. *)
Theorem transition_lock (pow : float -> float -> float) (toLowerCase : string -> string)
    (key tagName : string) (r : float) (t0 t1 : Z) (m : manager) :
  isTransitioning m = true ->
  exists m', handleKeyPress pow toLowerCase key tagName r t0 t1 m = Some m' /\
    currentPreset m' = currentPreset m /\ isTransitioning m' = true /\
    transitionStart m' = transitionStart m /\ pendingFrame m' = pendingFrame m /\
    Vis.visualMode (VisExtra.vis (visualizer m')) = Vis.visualMode (VisExtra.vis (visualizer m)) /\
    Vis.cameraRadius (VisExtra.vis (visualizer m')) = Vis.cameraRadius (VisExtra.vis (visualizer m)).
Proof.
  intro H. unfold handleKeyPress.
  destruct (String.eqb tagName "INPUT" || String.eqb tagName "TEXTAREA")%string;
    [eexists; split; [reflexivity|]; repeat split; assumption|].
  destruct (get_prop keyMap (toLowerCase key)) as [action| |];
    [|eexists; split; [reflexivity|]; repeat split; assumption
     |eexists; split; [reflexivity|]; repeat split; assumption].
  destruct (String.eqb action "toggleTrail")%string;
    [eexists; split; [reflexivity|]; repeat split; assumption|].
  destruct (String.eqb action "toggleKaleidoscope")%string;
    [eexists; split; [reflexivity|]; repeat split; assumption|].
  destruct (String.eqb action "randomize")%string.
  - unfold randomizePreset. rewrite applyPreset_locked by exact H.
    eexists; split; [reflexivity|]; repeat split; assumption.
  - destruct (get_prop presets action);
      [rewrite applyPreset_locked by exact H| |];
      eexists; (split; [reflexivity|]); repeat split; assumption.
Qed.

Lemma transition_lock_witness :
  isTransitioning PresetObs.wmt = true /\
  exists m', handleKeyPress PresetObs.wpow PresetObs.wlower "1" "DIV" 0.5 10 10 PresetObs.wmt = Some m' /\
    currentPreset m' = currentPreset PresetObs.wmt /\ isTransitioning m' = true /\
    transitionStart m' = transitionStart PresetObs.wmt /\ pendingFrame m' = pendingFrame PresetObs.wmt /\
    Vis.visualMode (VisExtra.vis (visualizer m')) = Vis.visualMode (VisExtra.vis (visualizer PresetObs.wmt)) /\
    Vis.cameraRadius (VisExtra.vis (visualizer m')) = Vis.cameraRadius (VisExtra.vis (visualizer PresetObs.wmt)).
Proof. split; [reflexivity|]. apply transition_lock. reflexivity. Defined.

(** Pressing the key of a preset other than the current one, outside a
    text field and with no transition running, starts a transition to it:
    frames before the end of the transition keep it going, and the
    frame at its end leaves the visualizer with that preset's settings. *)
Theorem preset_key_reaches_preset (pow : float -> float -> float)
    (toLowerCase : string -> string) (key tagName name : string) (p : preset)
    (r : float) (t0 t1 tend : Z) (ts : list Z) (m : manager) :
  isTransitioning m = false ->
  (String.eqb tagName "INPUT" || String.eqb tagName "TEXTAREA")%string = false ->
  get_prop keyMap (toLowerCase key) = Own name ->
  get_prop presets name = Own p ->
  currentPreset m <> name ->
  (progress t0 t1 <? 1) = true ->
  Forall (fun t => (progress t0 t <? 1) = true) ts ->
  (progress t0 tend <? 1) = false ->
  exists m1, handleKeyPress pow toLowerCase key tagName r t0 t1 m = Some m1 /\
    isTransitioning m1 = true /\
    let mf := frame pow tend (fold_left (fun m t => frame pow t m) ts m1) in
    let v := visualizer mf in
    currentPreset mf = name /\ isTransitioning mf = false /\ pendingFrame mf = None /\
    Vis.visualMode (VisExtra.vis v) = visualMode p /\
    Vis.cameraRadius (VisExtra.vis v) = cameraRadius p /\
    Vis.radialSymmetry (VisExtra.vis v) = radialSymmetry p /\
    VisExtra.trailEffect v = trailEffect p /\ VisExtra.trailOpacity v = trailOpacity p /\
    VisExtra.clearAlpha v = (if trailEffect p then trailOpacity p else 1).
Proof.
  intros Hidle Htag Hkey Hp Hne H1 Hts Hend.
  assert (Hn := get_prop_presets_name name p Hp).
  unfold handleKeyPress. rewrite Htag, Hkey.
  assert (Hact : String.eqb name "toggleTrail" = false /\
                 String.eqb name "toggleKaleidoscope" = false /\
                 String.eqb name "randomize" = false)
    by (simpl in Hn; intuition (subst; reflexivity)).
  destruct Hact as (-> & -> & ->). rewrite Hp.
  unfold applyPreset. rewrite Hp, Hidle.
  replace (negb (String.eqb (currentPreset m) name)) with true
    by (destruct (String.eqb_spec (currentPreset m) name); [contradiction|reflexivity]).
  simpl andb. cbv iota.
  set (m1 := smoothTransition pow p t0 t1 _).
  assert (Hm1 : pendingFrame m1 = Some (Vis.cameraRadius (VisExtra.vis (visualizer m)), p) /\
                transitionStart m1 = t0 /\ currentPreset m1 = name /\ isTransitioning m1 = true).
  { unfold m1, smoothTransition, animate. cbn [transitionStart]. rewrite H1. simpl. auto. }
  destruct Hm1 as (Hf1 & Hs1 & Hc1 & Hi1).
  exists m1. split; [reflexivity|]. split; [exact Hi1|].
  destruct (frames_keep_pending pow _ p t0 ts m1 Hf1 Hs1 Hts) as (Hf2 & Hs2 & Hc2).
  set (m2 := fold_left _ ts m1) in *.
  rewrite <- Hs2 in Hend.
  destruct (progress_ge_frame pow _ p tend m2 Hf2 Hend) as [v Hv].
  cbv zeta. rewrite Hv. simpl. rewrite Hc2, Hc1. repeat split.
Qed.

Lemma preset_key_reaches_preset_witness :
  isTransitioning PresetObs.wm0 = false /\
  (String.eqb "DIV" "INPUT" || String.eqb "DIV" "TEXTAREA")%string = false /\
  get_prop keyMap (PresetObs.wlower "3") = Own "pulse"%string /\
  get_prop presets "pulse" = Own PresetObs.pulseP /\
  currentPreset PresetObs.wm0 <> "pulse"%string /\
  (progress 0 0 <? 1) = true /\
  Forall (fun t => (progress 0 t <? 1) = true) [16; 500]%Z /\
  (progress 0 1000 <? 1) = false /\
  exists m1, handleKeyPress PresetObs.wpow PresetObs.wlower "3" "DIV" 0.5 0 0 PresetObs.wm0 = Some m1 /\
    isTransitioning m1 = true /\
    let mf := frame PresetObs.wpow 1000
                (fold_left (fun m t => frame PresetObs.wpow t m) [16; 500]%Z m1) in
    let v := visualizer mf in
    currentPreset mf = "pulse"%string /\ isTransitioning mf = false /\ pendingFrame mf = None /\
    Vis.visualMode (VisExtra.vis v) = visualMode PresetObs.pulseP /\
    Vis.cameraRadius (VisExtra.vis v) = cameraRadius PresetObs.pulseP /\
    Vis.radialSymmetry (VisExtra.vis v) = radialSymmetry PresetObs.pulseP /\
    VisExtra.trailEffect v = trailEffect PresetObs.pulseP /\
    VisExtra.trailOpacity v = trailOpacity PresetObs.pulseP /\
    VisExtra.clearAlpha v = (if trailEffect PresetObs.pulseP then trailOpacity PresetObs.pulseP else 1).
Proof.
  assert (Hts : Forall (fun t => (progress 0 t <? 1) = true) [16; 500]%Z)
    by (repeat constructor; vm_compute; reflexivity).
  assert (Hne : currentPreset PresetObs.wm0 <> "pulse"%string) by discriminate.
  split; [reflexivity|]. split; [reflexivity|]. split; [reflexivity|]. split; [reflexivity|].
  split; [exact Hne|]. split; [vm_compute; reflexivity|]. split; [exact Hts|].
  split; [vm_compute; reflexivity|].
  apply (preset_key_reaches_preset PresetObs.wpow PresetObs.wlower "3" "DIV" "pulse" PresetObs.pulseP
           0.5 0 0 1000 [16; 500]%Z PresetObs.wm0);
    [reflexivity|reflexivity|reflexivity|reflexivity|exact Hne|vm_compute; reflexivity
    |exact Hts|vm_compute; reflexivity].
Defined.

(** With no transition running, pressing the key of the preset already in
    use applies it again at once: no transition starts, the kaleidoscope
    goes off and mode, radius and trail return to the preset's values. *)
Theorem same_preset_key_resets_at_once (pow : float -> float -> float)
    (toLowerCase : string -> string) (key tagName : string) (p : preset)
    (r : float) (t0 t1 : Z) (m : manager) :
  isTransitioning m = false ->
  (String.eqb tagName "INPUT" || String.eqb tagName "TEXTAREA")%string = false ->
  get_prop keyMap (toLowerCase key) = Own (currentPreset m) ->
  get_prop presets (currentPreset m) = Own p ->
  exists m', handleKeyPress pow toLowerCase key tagName r t0 t1 m = Some m' /\
    let v := visualizer m' in
    currentPreset m' = currentPreset m /\ isTransitioning m' = false /\
    pendingFrame m' = pendingFrame m /\
    Vis.visualMode (VisExtra.vis v) = visualMode p /\
    Vis.cameraRadius (VisExtra.vis v) = cameraRadius p /\
    Vis.radialSymmetry (VisExtra.vis v) = false /\
    VisExtra.trailEffect v = trailEffect p /\
    VisExtra.clearAlpha v = (if trailEffect p then trailOpacity p else 1).
Proof.
  intros Hidle Htag Hkey Hp.
  assert (Hn := get_prop_presets_name _ p Hp).
  assert (Hsym : radialSymmetry p = false).
  { unfold get_prop in Hp. simpl in Hn.
    destruct Hn as [H|[H|[H|[H|[H|[]]]]]]; rewrite <- H in Hp; simpl in Hp;
      injection Hp as <-; reflexivity. }
  unfold handleKeyPress. rewrite Htag, Hkey.
  assert (Hact : String.eqb (currentPreset m) "toggleTrail" = false /\
                 String.eqb (currentPreset m) "toggleKaleidoscope" = false /\
                 String.eqb (currentPreset m) "randomize" = false)
    by (simpl in Hn; destruct Hn as [H|[H|[H|[H|[H|[]]]]]]; rewrite <- H; repeat split).
  destruct Hact as (-> & -> & ->). rewrite Hp.
  unfold applyPreset. rewrite Hp, Hidle, String.eqb_refl, andb_false_r.
  eexists. split; [reflexivity|]. cbv zeta. simpl. rewrite Hsym. repeat split.
Qed.

Lemma same_preset_key_resets_at_once_witness :
  isTransitioning PresetObs.wm0 = false /\
  (String.eqb "DIV" "INPUT" || String.eqb "DIV" "TEXTAREA")%string = false /\
  get_prop keyMap (PresetObs.wlower "1") = Own (currentPreset PresetObs.wm0) /\
  get_prop presets (currentPreset PresetObs.wm0) = Own (mkPreset "cosmic" true 0.15 false 150 2000) /\
  exists m', handleKeyPress PresetObs.wpow PresetObs.wlower "1" "DIV" 0.5 0 0 PresetObs.wm0 = Some m' /\
    let v := visualizer m' in
    currentPreset m' = currentPreset PresetObs.wm0 /\ isTransitioning m' = false /\
    pendingFrame m' = pendingFrame PresetObs.wm0 /\
    Vis.visualMode (VisExtra.vis v) = "cosmic"%string /\
    Vis.cameraRadius (VisExtra.vis v) = 150 /\
    Vis.radialSymmetry (VisExtra.vis v) = false /\
    VisExtra.trailEffect v = true /\
    VisExtra.clearAlpha v = 0.15.
Proof.
  split; [reflexivity|]. split; [reflexivity|]. split; [reflexivity|]. split; [reflexivity|].
  apply (same_preset_key_resets_at_once PresetObs.wpow PresetObs.wlower "1" "DIV"
           (mkPreset "cosmic" true 0.15 false 150 2000) 0.5 0 0 PresetObs.wm0);
    reflexivity.
Defined.

End PresetExtras.

Module AudioFacts.
Import Audio.

Lemma sum_range_local d d' i c acc :
  (forall k, (i <= k < i + c)%nat -> nth_error d k = nth_error d' k) ->
  sum_range d i c acc = sum_range d' i c acc.
Proof.
  revert i acc. induction c as [|c IH]; intros i acc H; [reflexivity|].
  simpl. unfold u8_get. rewrite (H i) by lia.
  apply IH. intros k Hk. apply H. lia.
Qed.

End AudioFacts.

Module AudioExtras.
Import Audio AudioFacts.

(** A band's energy reads only the bins of its own range: two spectra
    that agree on the bins from [startBin] up to [endBin] give the band the
    same energy, whatever they hold elsewhere. *)
Theorem band_energy_reads_own_bins (nyquist : float) (bufLen : nat)
    (d d' : list Byte.byte) (start end_ : float) (startBin endBin : nat) :
  floor_index ((start / nyquist) * fnat bufLen) = Some startBin ->
  floor_index ((end_ / nyquist) * fnat bufLen) = Some endBin ->
  (forall k, (startBin <= k < endBin)%nat -> nth_error d k = nth_error d' k) ->
  band_energy nyquist bufLen d (start, end_) = band_energy nyquist bufLen d' (start, end_).
Proof.
  intros Hs He Hk. unfold band_energy. rewrite Hs, He.
  rewrite (sum_range_local d d'); [reflexivity|].
  intros k Hk'. apply Hk. lia.
Qed.

Lemma band_energy_reads_own_bins_witness :
  floor_index ((60 / 22050) * fnat 1024) = Some 2%nat /\
  floor_index ((250 / 22050) * fnat 1024) = Some 11%nat /\
  (forall k, (2 <= k < 11)%nat ->
     nth_error (repeat Byte.x00 1024) k =
     nth_error (repeat Byte.x00 11 ++ repeat Byte.xff 1013) k) /\
  band_energy 22050 1024 (repeat Byte.x00 1024) (60, 250) =
  band_energy 22050 1024 (repeat Byte.x00 11 ++ repeat Byte.xff 1013) (60, 250).
Proof.
  assert (Hk : forall k, (2 <= k < 11)%nat ->
     nth_error (repeat Byte.x00 1024) k =
     nth_error (repeat Byte.x00 11 ++ repeat Byte.xff 1013) k).
  { intros k Hk. do 11 (destruct k as [|k]; [reflexivity|]). lia. }
  split; [vm_compute; reflexivity|]. split; [vm_compute; reflexivity|].
  split; [exact Hk|].
  apply (band_energy_reads_own_bins 22050 1024 _ _ 60 250 2 11);
    [vm_compute; reflexivity|vm_compute; reflexivity|exact Hk].
Defined.

End AudioExtras.
